(** * Verification of the Klipper/Moonraker [GitBackup] component

    Source: [klipper_config/teste/git_backup.py].

    The component is embedded shallowly.  Python strings are Rocq [string]s
    (a character is a code point below 256); the parts of the Python standard
    library the component calls ([str] methods, [shlex], [urllib.parse],
    [os.path], [str.format]) are modelled in module [Py] after CPython 3.11;
    the operating system and the [git] executable are an interface
    ([Runtime]) over which every statement about the component is generic.
    A small simulator of the tool ([FakeGit]) instantiates the interface. *)

From Stdlib Require Import String Ascii List Bool Arith ZArith Lia.
Import ListNotations.

Local Open Scope list_scope.
Local Open Scope string_scope.

Set Implicit Arguments.

(* ================================================================== *)
(** * Exceptions *)
(* ================================================================== *)

(** The exceptions that can travel through the component.  All of them are
    instances of Python's [Exception] (what [except Exception] catches).
    The three exceptions the component raises itself carry a fixed message
    in the source and are constructors of their own. *)
Inductive exn : Type :=
| MissingConfig
    (* Exception("A 'remote_url' e o 'github_token' sao obrigatorios no
       moonraker.conf"), raised by _validate_config *)
| GitNotFound
    (* Exception("Comando 'git' nao encontrado. ..."), raised by
       _check_git_installed *)
| GitError (stderr : string)
    (* Exception(f"Erro Git: {process.stderr.strip()}") *)
| CalledProcessError (cmd : list string) (returncode : Z) (stdout stderr : string)
    (* subprocess.CalledProcessError, raised by subprocess.run(check=True) *)
| ValueError (msg : string)
| TypeError (msg : string)
| LookupError (arg_name : string)
    (* str.format could not find the argument a replacement field names:
       KeyError for a keyword name; IndexError (or ValueError for an index
       too large) for an empty or numeric name, the positional tuple being
       empty *)
| OSError (msg : string).
    (* raised by the operating system when the child cannot be started
       (FileNotFoundError, PermissionError, ...) *)

(** Result of a computation that may raise. *)
Definition result (A : Type) : Type := (exn + A)%type.

(* ================================================================== *)
(** * Python library model *)
(* ================================================================== *)

Module Py.

(** ** Characters and elementary [str] operations *)

(** [c.isspace()] on code points below 256: TAB..CR, FS..US, space, NEL and
    NBSP.  This is the set [str.strip()] removes. *)
Definition isspace (c : ascii) : bool :=
  let n := nat_of_ascii c in
  (((9 <=? n) && (n <=? 13)) || ((28 <=? n) && (n <=? 32))
   || (n =? 133) || (n =? 160))%nat.

Definition is_lower (c : ascii) : bool :=
  let n := nat_of_ascii c in ((97 <=? n) && (n <=? 122))%nat.
Definition is_upper (c : ascii) : bool :=
  let n := nat_of_ascii c in ((65 <=? n) && (n <=? 90))%nat.
Definition is_digit (c : ascii) : bool :=
  let n := nat_of_ascii c in ((48 <=? n) && (n <=? 57))%nat.
(** ASCII letter: [c.isascii() and c.isalpha()]. *)
Definition is_ascii_alpha (c : ascii) : bool := is_lower c || is_upper c.
Definition is_ascii (c : ascii) : bool := (nat_of_ascii c <? 128)%nat.

(** [c in chars] for a one-character [c]. *)
Fixpoint char_in (c : ascii) (chars : string) : bool :=
  match chars with
  | EmptyString => false
  | String d r => Ascii.eqb c d || char_in c r
  end.

(** [all(p(c) for c in s)] and [any(...)]. *)
Fixpoint forallb_str (p : ascii -> bool) (s : string) : bool :=
  match s with
  | EmptyString => true
  | String c r => p c && forallb_str p r
  end.

Definition contains (c : ascii) (s : string) : bool := char_in c s.

(** [s.lstrip()] / [s.lstrip(chars)] with the stripped set given as a
    predicate. *)
Fixpoint lstrip_by (p : ascii -> bool) (s : string) : string :=
  match s with
  | EmptyString => EmptyString
  | String c r => if p c then lstrip_by p r else s
  end.

Fixpoint rstrip_by (p : ascii -> bool) (s : string) : string :=
  match s with
  | EmptyString => EmptyString
  | String c r =>
      match rstrip_by p r with
      | EmptyString => if p c then EmptyString else String c EmptyString
      | r' => String c r'
      end
  end.

(** [s.strip()]. *)
Definition strip (s : string) : string := rstrip_by isspace (lstrip_by isspace s).

(** [s.split(sep)] for a one-character separator: one field per separator
    occurrence plus one; nothing is dropped ([''.split(',') == ['']]). *)
Fixpoint split_char (sep : ascii) (s : string) : list string :=
  match s with
  | EmptyString => [EmptyString]
  | String c r =>
      if Ascii.eqb c sep then EmptyString :: split_char sep r
      else match split_char sep r with
           | h :: t => String c h :: t
           | [] => [String c EmptyString]
           end
  end.

(** [sep.join(parts)]. *)
Fixpoint join (sep : string) (parts : list string) : string :=
  match parts with
  | [] => EmptyString
  | [p] => p
  | p :: rest => p ++ sep ++ join sep rest
  end.

(** [s.count(c)] for a one-character [c]. *)
Fixpoint count_char (c : ascii) (s : string) : nat :=
  match s with
  | EmptyString => 0
  | String d r => ((if Ascii.eqb d c then 1 else 0) + count_char c r)%nat
  end.

(** [s.replace(c, "")]: delete every occurrence of a character. *)
Fixpoint remove_char (c : ascii) (s : string) : string :=
  match s with
  | EmptyString => EmptyString
  | String d r => if Ascii.eqb d c then remove_char c r else String d (remove_char c r)
  end.

(** [s.partition(c)] as (before, found, after); [after] excludes the
    separator. *)
Fixpoint partition (c : ascii) (s : string) : string * bool * string :=
  match s with
  | EmptyString => (EmptyString, false, EmptyString)
  | String d r =>
      if Ascii.eqb d c then (EmptyString, true, r)
      else let '(b, f, a) := partition c r in (String d b, f, a)
  end.

(** ASCII [s.lower()]. *)
Definition lower_char (c : ascii) : ascii :=
  if is_upper c then ascii_of_nat (nat_of_ascii c + 32) else c.
Fixpoint lower (s : string) : string :=
  match s with
  | EmptyString => EmptyString
  | String c r => String (lower_char c) (lower r)
  end.

Definition is_empty (s : string) : bool :=
  match s with EmptyString => true | _ => false end.

(** Last character of a string, if any. *)
Fixpoint last_char (s : string) : option ascii :=
  match s with
  | EmptyString => None
  | String c EmptyString => Some c
  | String _ r => last_char r
  end.

Definition first_char (s : string) : option ascii :=
  match s with EmptyString => None | String c _ => Some c end.

(** A string is trimmed when neither end is a whitespace character. *)
Definition trimmed (s : string) : Prop :=
  (forall c, first_char s = Some c -> isspace c = false) /\
  (forall c, last_char s = Some c -> isspace c = false).

(** ** [shlex] (POSIX mode, as [shlex.split] configures the lexer) *)

Definition squote : ascii := "039"%char.   (* ' *)
Definition dquote : ascii := "034"%char.   (* the double quote *)
Definition backslash : ascii := "092"%char.

(** [shlex.whitespace], [shlex.quotes], [shlex.escape], [shlex.escapedquotes]. *)
Definition shlex_whitespace (c : ascii) : bool :=
  Ascii.eqb c " " || Ascii.eqb c "009" || Ascii.eqb c "013" || Ascii.eqb c "010".
Definition shlex_quotes (c : ascii) : bool := Ascii.eqb c squote || Ascii.eqb c dquote.
Definition shlex_escape (c : ascii) : bool := Ascii.eqb c backslash.
Definition shlex_escapedquotes (c : ascii) : bool := Ascii.eqb c dquote.

(** The lexer's [state] attribute.  [None] (past the end of the input) is
    not a constructor: the lexer below stops when it reaches it. *)
Inductive lexstate : Type :=
| LSpace                 (* ' ' : between tokens *)
| LWord                  (* 'a' : inside a word *)
| LQuote (q : ascii)     (* state in self.quotes *)
| LEscape (e : ascii).   (* state in self.escape *)

Definition append_char (token : string) (c : ascii) : string :=
  token ++ String c EmptyString.

(** [read_token] ends with [result = self.token], turned into [None] when
    the token is empty and unquoted; [None] is [shlex.eof] and ends the
    iteration of [list(lex)].  Otherwise the token is produced and the next
    [read_token] starts with an empty token, [quoted = False]. *)
Definition emit (quoted : bool) (token : string) (next : result (list string))
  : result (list string) :=
  if negb quoted && is_empty token then inr []
  else match next with
       | inl e => inl e
       | inr toks => inr (token :: toks)
       end.

(** [shlex.read_token], iterated by [list(lex)] until [None], with
    [posix = True], [whitespace_split = True], [commenters = ''] and no
    [punctuation_chars]: one pass over the characters [instream.read(1)]
    delivers.  [state] survives from one token to the next; [escapedstate],
    [quoted] and [token] are those of the token being read. *)
Fixpoint lex (state escapedstate : lexstate) (quoted : bool) (token : string)
         (input : string) {struct input} : result (list string) :=
  match input with
  | EmptyString =>
      match state with
      | LSpace | LWord => emit quoted token (inr [])
      | LQuote _ => inl (ValueError "No closing quotation")
      | LEscape _ => inl (ValueError "No escaped character")
      end
  | String c rest =>
      match state with
      | LSpace =>
          if shlex_whitespace c then
            if negb (is_empty token) || quoted
            then emit quoted token (lex LSpace LSpace false EmptyString rest)
            else lex LSpace escapedstate quoted token rest
          else if shlex_escape c then lex (LEscape c) LWord quoted token rest
          else if shlex_quotes c then lex (LQuote c) escapedstate quoted token rest
          else lex LWord escapedstate quoted (String c EmptyString) rest
      | LQuote q =>
          if Ascii.eqb c q then lex LWord escapedstate true token rest
          else if shlex_escape c && shlex_escapedquotes q
               then lex (LEscape c) (LQuote q) true token rest
          else lex (LQuote q) escapedstate true (append_char token c) rest
      | LEscape e =>
          let token1 :=
            match escapedstate with
            | LQuote q =>
                if negb (Ascii.eqb c e) && negb (Ascii.eqb c q)
                then append_char token e else token
            | _ => token
            end in
          lex escapedstate escapedstate quoted (append_char token1 c) rest
      | LWord =>
          if shlex_whitespace c then
            if negb (is_empty token) || quoted
            then emit quoted token (lex LSpace LSpace false EmptyString rest)
            else lex LSpace escapedstate quoted token rest
          else if shlex_quotes c then lex (LQuote c) escapedstate quoted token rest
          else if shlex_escape c then lex (LEscape c) LWord quoted token rest
          else lex LWord escapedstate quoted (append_char token c) rest
      end
  end.

(** [shlex.split(s)]. *)
Definition shlex_split (s : string) : result (list string) :=
  lex LSpace LSpace false EmptyString s.

(** Characters [shlex.quote] leaves alone: the complement of
    [[^\w@%+=:,./-]] under [re.ASCII]. *)
Definition is_safe_char (c : ascii) : bool :=
  is_lower c || is_upper c || is_digit c || char_in c "_@%+=:,./-".

(** [s.replace("'", "'\"'\"'")] with the double quote written [dquote]. *)
Fixpoint escape_squotes (s : string) : string :=
  match s with
  | EmptyString => EmptyString
  | String c r =>
      if Ascii.eqb c squote
      then String squote (String dquote (String squote (String dquote
             (String squote (escape_squotes r)))))
      else String c (escape_squotes r)
  end.

(** [shlex.quote(s)]. *)
Definition shlex_quote (s : string) : string :=
  if is_empty s then String squote (String squote EmptyString)
  else if forallb_str is_safe_char s then s
  else String squote (escape_squotes s ++ String squote EmptyString).

(** ** [urllib.parse] *)

(** [s.rpartition(c)] as (before, found, after), split at the last
    occurrence. *)
Fixpoint rpartition (c : ascii) (s : string) : string * bool * string :=
  match s with
  | EmptyString => (EmptyString, false, EmptyString)
  | String d r =>
      let '(b, f, a) := rpartition c r in
      if f then (String d b, true, a)
      else if Ascii.eqb d c then (EmptyString, true, r)
      else (EmptyString, false, String d a)
  end.

(** Longest prefix free of the characters [p] selects, and what follows. *)
Fixpoint span_until (p : ascii -> bool) (s : string) : string * string :=
  match s with
  | EmptyString => (EmptyString, EmptyString)
  | String c r =>
      if p c then (EmptyString, s)
      else let '(a, b) := span_until p r in (String c a, b)
  end.

Definition in_list (x : string) (l : list string) : bool :=
  existsb (String.eqb x) l.

Definition uses_netloc : list string :=
  [""; "ftp"; "http"; "gopher"; "nntp"; "telnet"; "imap"; "wais"; "file";
   "mms"; "https"; "shttp"; "snews"; "prospero"; "rtsp"; "rtspu"; "rsync";
   "svn"; "svn+ssh"; "sftp"; "nfs"; "git"; "git+ssh"; "ws"; "wss"].

Definition uses_params : list string :=
  [""; "ftp"; "hdl"; "prospero"; "http"; "imap"; "https"; "shttp"; "rtsp";
   "rtspu"; "sip"; "sips"; "mms"; "sftp"; "tel"].

Definition scheme_chars (c : ascii) : bool :=
  is_lower c || is_upper c || is_digit c || char_in c "+-.".

(** [_WHATWG_C0_CONTROL_OR_SPACE]: code points 0 to 32. *)
Definition c0_control_or_space (c : ascii) : bool := (nat_of_ascii c <=? 32)%nat.

(** [ParseResult], the six components [urlparse] returns. *)
Record ParseResult : Type := mkParseResult {
  scheme : string;
  netloc : string;
  path : string;
  params : string;
  query : string;
  fragment : string
}.

Section Urllib.

(** Two checks of [urlsplit] reach into other libraries ([ipaddress],
    [unicodedata]) and are taken as given.  Each returns the message of the
    [ValueError] it raises, or [None] when it passes. *)

(** [_check_bracketed_netloc(netloc)], called when the network location
    holds both brackets. *)
Variable check_bracketed_netloc : string -> option string.
(** The NFKC part of [_checknetloc(netloc)], reached when the network
    location is not empty and not ASCII. *)
Variable checknetloc_nfkc : string -> option string.

(** The scheme test of [urlsplit]: [i = url.find(':')], [i > 0], the first
    character an ASCII letter and every character of [url[:i]] a scheme
    character. *)
Definition split_scheme (url default_scheme : string) : string * string :=
  match partition ":" url with
  | (String c0 _ as before, true, after) =>
      if is_ascii_alpha c0 && forallb_str scheme_chars before
      then (lower before, after)
      else (default_scheme, url)
  | _ => (default_scheme, url)
  end.

(** [_splitnetloc(url, 2)] on what follows the two slashes. *)
Definition _splitnetloc (after_slashes : string) : string * string :=
  span_until (fun c => char_in c "/?#") after_slashes.

(** [urlsplit(url)] with the default [scheme=''] and fragments allowed;
    the result is [(scheme, netloc, url, query, fragment)]. *)
Definition urlsplit (url0 : string)
  : result (string * string * string * string * string) :=
  let url := lstrip_by c0_control_or_space url0 in
  let url := remove_char "010" (remove_char "013" (remove_char "009" url)) in
  let '(scheme, url) := split_scheme url EmptyString in
  let '(netloc, url) :=
    match url with
    | String "/" (String "/" r) => _splitnetloc r
    | _ => (EmptyString, url)
    end in
  let open_br := contains "[" netloc in
  let close_br := contains "]" netloc in
  if (open_br && negb close_br) || (close_br && negb open_br)
  then inl (ValueError "Invalid IPv6 URL")
  else
    match (if open_br && close_br then check_bracketed_netloc netloc else None) with
    | Some msg => inl (ValueError msg)
    | None =>
        let '(url, fragment) :=
          if contains "#" url
          then let '(b, _, a) := partition "#" url in (b, a)
          else (url, EmptyString) in
        let '(url, query) :=
          if contains "?" url
          then let '(b, _, a) := partition "?" url in (b, a)
          else (url, EmptyString) in
        match (if is_empty netloc || forallb_str is_ascii netloc
               then None else checknetloc_nfkc netloc) with
        | Some msg => inl (ValueError msg)
        | None => inr (scheme, netloc, url, query, fragment)
        end
    end.

(** [_splitparams(url)], called with a [url] that contains [';']. *)
Definition _splitparams (url : string) : string * string :=
  if contains "/" url then
    let '(head, _, tail) := rpartition "/" url in
    let '(b, found, a) := partition ";" tail in
    if found then (head ++ String "/" b, a) else (url, EmptyString)
  else
    let '(b, _, a) := partition ";" url in (b, a).

(** [urlparse(url)]. *)
Definition urlparse (url : string) : result ParseResult :=
  match urlsplit url with
  | inl e => inl e
  | inr (scheme, netloc, url, query, fragment) =>
      let '(url, params) :=
        if in_list scheme uses_params && contains ";" url
        then _splitparams url
        else (url, EmptyString) in
      inr (mkParseResult scheme netloc url params query fragment)
  end.

End Urllib.

(** [urlunsplit((scheme, netloc, url, query, fragment))]. *)
Definition urlunsplit (scheme netloc url query fragment : string) : string :=
  let url :=
    if negb (is_empty netloc)
       || (negb (is_empty scheme) && in_list scheme uses_netloc
           && negb (match url with String "/" (String "/" _) => true | _ => false end))
    then
      let url := match url with
                 | EmptyString => url
                 | String "/" _ => url
                 | _ => String "/" url
                 end in
      "//" ++ netloc ++ url
    else url in
  let url := if negb (is_empty scheme) then scheme ++ ":" ++ url else url in
  let url := if negb (is_empty query) then url ++ "?" ++ query else url in
  if negb (is_empty fragment) then url ++ "#" ++ fragment else url.

(** [urlunparse((scheme, netloc, url, params, query, fragment))]. *)
Definition urlunparse (scheme netloc url params query fragment : string) : string :=
  let url := if negb (is_empty params) then url ++ ";" ++ params else url in
  urlunsplit scheme netloc url query fragment.

(** ** [os.path] (POSIX) *)

(** [os.path.join(a, b)]. *)
Definition path_join (a b : string) : string :=
  match b with
  | String "/" _ => b
  | _ =>
      match last_char a with
      | None => b
      | Some "/"%char => a ++ b
      | Some _ => a ++ String "/" b
      end
  end.

(** [os.path.basename(p)]: what follows the last slash. *)
Definition basename (p : string) : string :=
  let '(_, found, tail) := rpartition "/" p in
  if found then tail else p.

(** ** [str.format] with the single keyword argument [filename] *)

(** Where the formatter's scanner is inside the template. *)
Inductive fmt_mode : Type :=
| FLit                                   (* literal text *)
| FName (name : string)                  (* field name, after the brace *)
| FBracket (name : string)               (* field name, inside [...] *)
| FConv (name : string)                  (* after '!' *)
| FAfterConv (name : string) (conv : ascii)
| FSpec (name : string) (conv : option ascii) (spec : string) (depth : nat).

Definition prepend (c : ascii) (r : result string) : result string :=
  match r with
  | inl e => inl e
  | inr s => inr (String c s)
  end.

Definition prepend_str (v : result string) (r : result string) : result string :=
  match v with
  | inl e => inl e
  | inr a => match r with
             | inl e => inl e
             | inr s => inr (a ++ s)
             end
  end.

Section Format.

(** Rendering of a replacement field that names [filename] but also carries
    an attribute or index access, a conversion or a format specification
    ([{filename[0]}], [{filename!r}], [{filename:>20}]): taken as given,
    from the accessors, the conversion, the specification and the value.
    The conversion [!s] alone is rendered here: [str] of a string is the
    string. *)
Variable format_ext : string -> option ascii -> string -> string -> result string.

(** The keyword argument's value. *)
Variable filename : string.

(** One replacement field.  The argument name is the field name up to the
    first ['.'] or ['[']; the call passes no positional argument and the
    only keyword [filename]. *)
Definition render_field (name : string) (conv : option ascii) (spec : string)
  : result string :=
  let '(arg_name, accessors) :=
    span_until (fun c => Ascii.eqb c "." || Ascii.eqb c "[") name in
  if String.eqb arg_name "filename" then
    match accessors, conv, spec with
    | EmptyString, None, EmptyString => inr filename
    | EmptyString, Some c, EmptyString =>
        if Ascii.eqb c "s" then inr filename
        else format_ext accessors conv spec filename
    | _, _, _ => format_ext accessors conv spec filename
    end
  else inl (LookupError arg_name).

(** The scanner ([MarkupIterator_next] and [parse_field] of CPython) and
    the output of each piece, in one pass over the template. *)
Fixpoint fmt (mode : fmt_mode) (input : string) {struct input} : result string :=
  match mode, input with
  | FLit, EmptyString => inr EmptyString
  | FLit, String c rest =>
      if Ascii.eqb c "{" then
        match rest with
        | EmptyString => inl (ValueError "Single '{' encountered in format string")
        | String d rest' =>
            if Ascii.eqb d "{" then prepend "{" (fmt FLit rest')
            else fmt (FName EmptyString) rest
        end
      else if Ascii.eqb c "}" then
        match rest with
        | String "}" rest' => prepend "}" (fmt FLit rest')
        | _ => inl (ValueError "Single '}' encountered in format string")
        end
      else prepend c (fmt FLit rest)
  | FName _, EmptyString | FBracket _, EmptyString =>
      inl (ValueError "expected '}' before end of string")
  | FName name, String c rest =>
      if Ascii.eqb c "{" then inl (ValueError "unexpected '{' in field name")
      else if Ascii.eqb c "[" then fmt (FBracket (append_char name c)) rest
      else if Ascii.eqb c "}"
           then prepend_str (render_field name None EmptyString) (fmt FLit rest)
      else if Ascii.eqb c ":" then fmt (FSpec name None EmptyString 1) rest
      else if Ascii.eqb c "!" then fmt (FConv name) rest
      else fmt (FName (append_char name c)) rest
  | FBracket name, String c rest =>
      if Ascii.eqb c "]" then fmt (FName (append_char name c)) rest
      else fmt (FBracket (append_char name c)) rest
  | FConv _, EmptyString =>
      inl (ValueError "end of string while looking for conversion specifier")
  | FConv name, String c rest => fmt (FAfterConv name c) rest
  | FAfterConv _ _, EmptyString | FSpec _ _ _ _, EmptyString =>
      inl (ValueError "unmatched '{' in format spec")
  | FAfterConv name conv, String c rest =>
      if Ascii.eqb c "}"
      then prepend_str (render_field name (Some conv) EmptyString) (fmt FLit rest)
      else if Ascii.eqb c ":" then fmt (FSpec name (Some conv) EmptyString 1) rest
      else inl (ValueError "expected ':' after conversion specifier")
  | FSpec name conv spec depth, String c rest =>
      if Ascii.eqb c "{" then fmt (FSpec name conv (append_char spec c) (S depth)) rest
      else if Ascii.eqb c "}" then
        match depth with
        | 0%nat | 1%nat => prepend_str (render_field name conv spec) (fmt FLit rest)
        | S d => fmt (FSpec name conv (append_char spec c) d) rest
        end
      else fmt (FSpec name conv (append_char spec c) depth) rest
  end.

(** [template.format(filename=filename)]. *)
Definition str_format (template : string) : result string := fmt FLit template.

End Format.

End Py.

Import Py.

(* ================================================================== *)
(** * The environment of the component *)
(* ================================================================== *)

(** What [subprocess.run(args, cwd=..., capture_output=True, text=True)]
    does before it looks at the return code: the child ran to completion,
    or it could not be started or its output not decoded. *)
Inductive proc_outcome : Type :=
| Completed (returncode : Z) (stdout stderr : string)
| Failed (e : exn).

(** The operating system, the [git] executable behind it, and the three
    library routines the Python model leaves open. *)
Class Runtime : Type := {
  World : Type;
  (** [run_process w cwd args]: start [args] in directory [cwd]. *)
  run_process : World -> string -> list string -> World * proc_outcome;
  (** [os.path.isdir] and [os.path.exists]. *)
  isdir : World -> string -> bool;
  path_exists : World -> string -> bool;
  rt_check_bracketed_netloc : string -> option string;
  rt_checknetloc_nfkc : string -> option string;
  rt_format_ext : string -> option ascii -> string -> string -> result string
}.

(** The host's configuration section: an option is absent ([None]) or has a
    value.  [cfg_config_dir] is the directory of the main configuration
    file, already expanded and normalised
    ([os.path.normpath(os.path.expanduser(config_dir))]). *)
Record Config : Type := mkConfig {
  cfg_config_dir : string;
  cfg_enabled : option bool;
  cfg_remote_url : option string;
  cfg_github_token : option string;
  cfg_watched_files : option string;
  cfg_commit_message : option string;
  cfg_branch : option string
}.

(** [config.get(option, default)] and [config.getboolean(option, default)]. *)
Definition get {A : Type} (value : option A) (default : A) : A :=
  match value with
  | Some v => v
  | None => default
  end.

(** The attributes of a [GitBackup] instance. *)
Record GitBackup : Type := mkGitBackup {
  config_path : string;
  is_enabled : bool;
  remote_url : option string;
  github_token : option string;
  watched_files : list string;
  commit_message : string;
  branch_name : string
}.

Definition set_is_enabled (b : bool) (g : GitBackup) : GitBackup :=
  mkGitBackup (config_path g) b (remote_url g) (github_token g)
              (watched_files g) (commit_message g) (branch_name g).

(** Log records.  Each constructor is one [logging] call of the source; the
    text of the call is given beside it. *)
Inductive level : Type := INFO | ERROR.

Inductive message : Type :=
| MsgDisabled          (* "GitBackup esta desabilitado na configuracao." *)
| MsgInitialized (watched : string)
                       (* f"Plugin GitBackup inicializado. Monitorando: {watched}" *)
| MsgFatalInit (e : exn)
                       (* f"Erro fatal na inicializacao do GitBackup: {e}" *)
| MsgCommandFailed (command : string) (stderr : string)
                       (* f"Erro ao executar '{command}': {e.stderr}" *)
| MsgRepoExists        (* "Repositorio Git ja existe." *)
| MsgRepoInit          (* "Inicializando novo repositorio Git..." *)
| MsgRepoInitDone      (* "Repositorio Git inicializado com sucesso." *)
| MsgRemoteSetup       (* "Configurando repositorio remoto..." *)
| MsgRemoteDone        (* "Repositorio remoto configurado com sucesso." *)
| MsgSaved (filename : string)
                       (* f"Arquivo monitorado '{filename}' foi salvo. Iniciando backup..." *)
| MsgNoChange          (* "Nenhuma modificacao real detectada. Backup cancelado." *)
| MsgBackupDone (filename : string)
                       (* f"Backup de '{filename}' realizado com sucesso!" *)
| MsgBackupFailed (filename : string) (e : exn).
                       (* f"Falha ao fazer backup de '{filename}': {e}" *)

(** The watched-file list of the constructor (line 23):
    [[f.strip() for f in raw.split(',')]]. *)
Definition parse_watched_files (raw : string) : list string :=
  map strip (split_char "," raw).

(** The default commit message, ['Auto-backup: {filename} modificado']. *)
Definition default_commit_message : string := "Auto-backup: {filename} modificado".

(** Two command lines of the source hold double quotes and letters outside
    ASCII; they are spelled out by code point. *)
Definition quoted (s : string) : string := String dquote (s ++ String dquote EmptyString).

Definition cmd_config_name : string :=
  "git config user.name " ++ quoted "Klipper Backup Plugin".
Definition cmd_config_email : string :=
  "git config user.email " ++ quoted "backup@klipper.local".
Definition initial_commit_message : string :=
  "Commit inicial: Arquivos de configura" ++ String "231" (String "227" "o monitorados").
Definition cmd_initial_commit : string :=
  "git commit -m " ++ quoted initial_commit_message.

(** The argument vectors of the component's commands. *)
Definition argv_add (p : string) : list string := ["git"; "add"; p].
Definition argv_status : list string := ["git"; "status"; "--porcelain"].
Definition argv_commit (msg : string) : list string := ["git"; "commit"; "-m"; msg].
Definition argv_push (branch : string) : list string := ["git"; "push"; "origin"; branch].
Definition argv_remote_remove : list string := ["git"; "remote"; "remove"; "origin"].
Definition argv_remote_add (url : string) : list string :=
  ["git"; "remote"; "add"; "origin"; url].

Section Component.

Context {R : Runtime}.

(** What the component shares with its host: the world outside the process,
    the child processes started so far (their argument vectors, oldest
    first), the log, and the event names a handler is registered for. *)
Record Host : Type := mkHost {
  world : World;
  calls : list (list string);
  log : list (level * message);
  handlers : list string
}.

Record State : Type := mkState {
  self : GitBackup;
  host : Host
}.

(** Computations of the component: they read and write the state and
    either return or raise. *)
Definition M (A : Type) : Type := State -> result A * State.

Definition ret {A : Type} (a : A) : M A := fun st => (inr a, st).

Definition bind {A B : Type} (m : M A) (k : A -> M B) : M B :=
  fun st =>
    match m st with
    | (inl e, st') => (inl e, st')
    | (inr a, st') => k a st'
    end.

Definition raise {A : Type} (e : exn) : M A := fun st => (inl e, st).

(** [try: body  except Exception as e: handler(e)]. *)
Definition try_except {A : Type} (body : M A) (handler : exn -> M A) : M A :=
  fun st =>
    match body st with
    | (inl e, st') => handler e st'
    | (inr a, st') => (inr a, st')
    end.

Definition lift {A : Type} (r : result A) : M A := fun st => (r, st).

Definition get_self : M GitBackup := fun st => (inr (self st), st).

Definition get_world : M World := fun st => (inr (world (host st)), st).

End Component.

Declare Scope py_scope.
Delimit Scope py_scope with py.
Notation "x <- m ;; k" := (bind m (fun x => k))
  (at level 61, m at next level, right associativity) : py_scope.
Notation "m ;; k" := (bind m (fun _ => k))
  (at level 61, right associativity) : py_scope.

Section Methods.

Context {R : Runtime}.
Local Open Scope py_scope.

Definition logging (lv : level) (msg : message) : M unit :=
  fun st =>
    let h := host st in
    (inr tt, mkState (self st)
               (mkHost (world h) (calls h) (log h ++ [(lv, msg)])%list (handlers h))).

Definition logging_info : message -> M unit := logging INFO.
Definition logging_error : message -> M unit := logging ERROR.

(** [self.server.register_event_handler(event, self._on_file_saved)]. *)
Definition register_event_handler (event : string) : M unit :=
  fun st =>
    let h := host st in
    (inr tt, mkState (self st)
               (mkHost (world h) (calls h) (log h) (handlers h ++ [event])%list)).

Definition set_enabled (b : bool) : M unit :=
  fun st => (inr tt, mkState (set_is_enabled b (self st)) (host st)).

(** [subprocess.run(args, cwd=self.config_path, capture_output=True,
    text=True, check=check)]: the call is recorded, the world moves on, and
    with [check] a non-zero return code raises [CalledProcessError]. *)
Definition subprocess_run (args : list string) (check : bool)
  : M (Z * string * string) :=
  fun st =>
    let h := host st in
    let '(w', outcome) := run_process (world h) (config_path (self st)) args in
    let st' := mkState (self st)
                 (mkHost w' (calls h ++ [args])%list (log h) (handlers h)) in
    match outcome with
    | Failed e => (inl e, st')
    | Completed returncode stdout stderr =>
        if check && negb (returncode =? 0)%Z
        then (inl (CalledProcessError args returncode stdout stderr), st')
        else (inr (returncode, stdout, stderr), st')
    end.

(** [_run_git_command(command, suppress_errors)] (lines 55-68).  The result
    is the stripped standard output, or [None] when a suppressed
    [CalledProcessError] was caught. *)
Definition _run_git_command (command : string) (suppress_errors : bool)
  : M (option string) :=
  try_except
    (args <- lift (shlex_split command) ;;
     process <- subprocess_run args (negb suppress_errors) ;;
     let '(returncode, stdout, stderr) := process in
     if negb (returncode =? 0)%Z && negb suppress_errors
     then raise (GitError (strip stderr))
     else ret (Some (strip stdout)))
    (fun e =>
       match e with
       | CalledProcessError _ _ _ stderr =>
           logging_error (MsgCommandFailed command stderr) ;;
           if negb suppress_errors then raise e else ret None
       | _ => raise e
       end).

(** [not s] for an optional string: [None] and [''] are false values. *)
Definition falsy (s : option string) : bool :=
  match s with
  | None => true
  | Some v => is_empty v
  end.

(** [_validate_config] (lines 45-47). *)
Definition _validate_config : M unit :=
  g <- get_self ;;
  if falsy (remote_url g) || falsy (github_token g)
  then raise MissingConfig
  else ret tt.

(** [_check_git_installed] (lines 49-53). *)
Definition _check_git_installed : M unit :=
  try_except
    (_run_git_command "git --version" false ;; ret tt)
    (fun _ => raise GitNotFound).

(** The loop of lines 82-84. *)
Fixpoint add_watched_files (files : list string) : M unit :=
  match files with
  | [] => ret tt
  | filename :: rest =>
      g <- get_self ;;
      w <- get_world ;;
      (if path_exists w (path_join (config_path g) filename)
       then _run_git_command ("git add " ++ shlex_quote filename) false ;; ret tt
       else ret tt) ;;
      add_watched_files rest
  end.

(** [_initialize_repo] (lines 70-87). *)
Definition _initialize_repo : M unit :=
  g <- get_self ;;
  w <- get_world ;;
  if isdir w (path_join (config_path g) ".git")
  then logging_info MsgRepoExists
  else
    logging_info MsgRepoInit ;;
    _run_git_command "git init" false ;;
    _run_git_command ("git checkout -b " ++ branch_name g) false ;;
    _run_git_command cmd_config_name false ;;
    _run_git_command cmd_config_email false ;;
    add_watched_files (watched_files g) ;;
    _run_git_command cmd_initial_commit false ;;
    logging_info MsgRepoInitDone.

(** [f'{value}'] for an optional string. *)
Definition fstr (value : option string) : string :=
  match value with
  | Some v => v
  | None => "None"
  end.

(** The URL of lines 91-95.  [urlparse(None)] yields byte components, which
    [urlunparse] refuses to mix with the text ones. *)
Definition url_with_token (g : GitBackup) : result string :=
  match remote_url g with
  | None => inl (TypeError "Cannot mix str and non-str arguments")
  | Some url =>
      match urlparse rt_check_bracketed_netloc rt_checknetloc_nfkc url with
      | inl e => inl e
      | inr parsed_url =>
          inr (urlunparse (scheme parsed_url)
                          (fstr (github_token g) ++ "@" ++ netloc parsed_url)
                          (path parsed_url) "" "" "")
      end
  end.

(** [_setup_remote] (lines 89-100). *)
Definition _setup_remote : M unit :=
  logging_info MsgRemoteSetup ;;
  g <- get_self ;;
  url <- lift (url_with_token g) ;;
  _run_git_command "git remote remove origin" true ;;
  _run_git_command ("git remote add origin " ++ shlex_quote url) false ;;
  logging_info MsgRemoteDone.

(** The [try] block of [_on_file_saved] (lines 111-127). *)
Definition backup (filepath filename : string) : M unit :=
  _run_git_command ("git add " ++ shlex_quote filepath) false ;;
  status <- _run_git_command "git status --porcelain" false ;;
  if falsy status
  then logging_info MsgNoChange
  else
    g <- get_self ;;
    commit_msg <- lift (str_format rt_format_ext filename (commit_message g)) ;;
    _run_git_command ("git commit -m " ++ shlex_quote commit_msg) false ;;
    _run_git_command ("git push origin " ++ branch_name g) false ;;
    logging_info (MsgBackupDone filename).

(** [_on_file_saved(filepath)] (lines 102-129). *)
Definition _on_file_saved (filepath : string) : M unit :=
  g <- get_self ;;
  if negb (is_enabled g) then ret tt
  else
    let filename := basename filepath in
    if in_list filename (watched_files g)
    then
      logging_info (MsgSaved filename) ;;
      try_except (backup filepath filename)
                 (fun e => logging_error (MsgBackupFailed filename e))
    else ret tt.

(** The event name the handler is registered for. *)
Definition file_saved_event : string := "file_manager:file_saved".

(** The [try] block of the constructor (lines 34-39). *)
Definition bootstrap : M unit :=
  _validate_config ;;
  _check_git_installed ;;
  _initialize_repo ;;
  _setup_remote ;;
  register_event_handler file_saved_event.

(** The attributes the constructor reads from the configuration (lines
    13-25). *)
Definition attributes (config : Config) : GitBackup :=
  mkGitBackup
    (cfg_config_dir config)
    (get (cfg_enabled config) false)
    (cfg_remote_url config)
    (cfg_github_token config)
    (parse_watched_files (get (cfg_watched_files config) "printer.cfg"))
    (get (cfg_commit_message config) default_commit_message)
    (get (cfg_branch config) "main").

(** [GitBackup.__init__(config)] (lines 12-43), run in the host [h]; the
    result is the new instance together with the host as the constructor
    leaves it.  The constructor always returns. *)
Definition __init__ (config : Config) (h : Host) : State :=
  let g := attributes config in
  let st := mkState g h in
  if negb (is_enabled g)
  then snd (logging_info MsgDisabled st)
  else
    snd ((logging_info (MsgInitialized (join ", " (watched_files g))) ;;
          try_except bootstrap
                     (fun e => logging_error (MsgFatalInit e) ;; set_enabled false))
           st).

(** [load_component(config)]. *)
Definition load_component (config : Config) (h : Host) : State := __init__ config h.

(** The save events the host delivers, one after the other. *)
Fixpoint deliver (filepaths : list string) (st : State) : State :=
  match filepaths with
  | [] => st
  | p :: rest => deliver rest (snd (_on_file_saved p st))
  end.

(** *** Vocabulary for statements about runs *)

(** The state after one more child process [args] that left the world [w]. *)
Definition record_call (args : list string) (w : World) (st : State) : State :=
  let h := host st in
  mkState (self st) (mkHost w (calls h ++ [args])%list (log h) (handlers h)).

(** The state after one more log record. *)
Definition add_log (lv : level) (msg : message) (st : State) : State :=
  let h := host st in
  mkState (self st) (mkHost (world h) (calls h) (log h ++ [(lv, msg)])%list (handlers h)).

(** From [st] to [st'] the instance and the registered handlers stayed as
    they were, the child processes [new_calls] were started, in this order,
    and the log only grew. *)
Definition evolves (st st' : State) (new_calls : list (list string)) : Prop :=
  self st' = self st
  /\ handlers (host st') = handlers (host st)
  /\ calls (host st') = (calls (host st) ++ new_calls)%list
  /\ exists records, log (host st') = (log (host st) ++ records)%list.

(** What [_run_git_command] does, by the outcome of the child. *)
Definition run_result (command : string) (suppress_errors : bool)
    (args : list string) (w : World) (outcome : proc_outcome) (st : State)
  : result (option string) * State :=
  let st1 := record_call args w st in
  let caught stderr e :=
    let st2 := add_log ERROR (MsgCommandFailed command stderr) st1 in
    if suppress_errors then (inr None, st2) else (inl e, st2) in
  match outcome with
  | Completed rc out err =>
      if (rc =? 0)%Z || suppress_errors
      then (inr (Some (strip out)), st1)
      else caught err (CalledProcessError args rc out err)
  | Failed (CalledProcessError c rc out err) =>
      caught err (CalledProcessError c rc out err)
  | Failed e => (inl e, st1)
  end.

(** The host after the process was started again: the world is the one
    the last run left, nothing else is carried over. *)
Definition restart (st : State) : Host := mkHost (world (host st)) [] [] [].

(** A computation that never changes the instance. *)
Definition preserves_self {A : Type} (m : M A) : Prop :=
  forall st, self (snd (m st)) = self st.

(** The state in which the constructor enters its [try] block. *)
Definition before_bootstrap (config : Config) (h : Host) : State :=
  add_log INFO (MsgInitialized (join ", " (watched_files (attributes config))))
          (mkState (attributes config) h).

(** The child processes of one backup, when every step succeeds: staging,
    status, commit and push.  The commit exists only if the message can be
    rendered, the push only if its command line can be split. *)
Definition pipeline (g : GitBackup) (filepath : string) : list (list string) :=
  argv_add filepath :: argv_status ::
  match str_format rt_format_ext (basename filepath) (commit_message g) with
  | inl _ => []
  | inr msg =>
      argv_commit msg ::
      match shlex_split ("git push origin " ++ branch_name g) with
      | inl _ => []
      | inr args => [args]
      end
  end.

(** A computation that never changes the registered handlers. *)
Definition preserves_handlers {A : Type} (m : M A) : Prop :=
  forall st, handlers (host (snd (m st))) = handlers (host st).

(** The child [args] of [command] did not succeed: it ended with a
    non-zero status, or it could not be run.  The value is the exception
    [_run_git_command command] then raises, with the records it logs
    before: one for a [CalledProcessError], none otherwise. *)
Definition failure (command : string) (args : list string) (outcome : proc_outcome)
  : option (exn * list (level * message)) :=
  match outcome with
  | Completed rc out err =>
      if (rc =? 0)%Z then None
      else Some (CalledProcessError args rc out err,
                 [(ERROR, MsgCommandFailed command err)])
  | Failed (CalledProcessError c rc out err) =>
      Some (CalledProcessError c rc out err, [(ERROR, MsgCommandFailed command err)])
  | Failed e => Some (e, [])
  end.

(** The state in which a save event of [filepath] ends when its backup
    stopped with the exception [e]: the world is [w], as the last child
    left it, the children [started] have been added to the run, and the log
    has received the record of the save, the [records] of the failing
    command and the record of the failed backup.  Instance and handlers
    are those of [st]. *)
Definition stopped (st : State) (filepath : string) (w : World)
    (started : list (list string)) (records : list (level * message)) (e : exn)
  : State :=
  mkState (self st)
    (mkHost w (calls (host st) ++ started)%list
       (log (host st)
        ++ (INFO, MsgSaved (basename filepath))
           :: records ++ [(ERROR, MsgBackupFailed (basename filepath) e)])%list
       (handlers (host st))).

End Methods.

(* ================================================================== *)
(** * Definitions that follow the specification's words *)
(* ================================================================== *)

(** These are not translations of the source: they say what the
    specification asks for, to be compared with what the source computes. *)

(** A URL of the form the specification writes
    [scheme://TOKEN@host/path], by its components: the user-info, the
    query and the fragment may be absent; [url_host] is the host with its
    port, if it has one. *)
Record Url : Type := mkUrl {
  url_scheme : string;
  url_userinfo : option string;
  url_host : string;
  url_path : string;
  url_query : option string;
  url_fragment : option string
}.

Definition userinfo_text (userinfo : option string) : string :=
  match userinfo with
  | Some i => i ++ "@"
  | None => ""
  end.

Definition query_text (query : option string) : string :=
  match query with
  | Some q => "?" ++ q
  | None => ""
  end.

Definition fragment_text (fragment : option string) : string :=
  match fragment with
  | Some f => "#" ++ f
  | None => ""
  end.

(** The URL as it is written. *)
Definition url_text (u : Url) : string :=
  url_scheme u ++ "://" ++ userinfo_text (url_userinfo u) ++ url_host u ++ url_path u
  ++ query_text (url_query u) ++ fragment_text (url_fragment u).

(** "The configured remote URL with the access token injected as the URL's
    user-info component": the same URL, its user-info being the token. *)
Definition with_userinfo (token : string) (u : Url) : Url :=
  mkUrl (url_scheme u) (Some token) (url_host u) (url_path u)
        (url_query u) (url_fragment u).

Definition credential_url_spec (token : string) (u : Url) : string :=
  url_text (with_userinfo token u).

(** Each component holds only characters that do not end it, so that the
    text of a URL can be read in one way only ([url_read] below): a scheme
    begins with a letter and goes on with letters, digits and [+-.]; the
    user-info holds none of [/?#]; the host none of [/?#@]; the path is
    empty or begins with a slash and holds none of [?#]; the query holds
    no [#].  Host, path, query and fragment hold no tab, carriage return
    or line feed. *)
Definition is_tab_cr_lf (c : ascii) : bool :=
  Ascii.eqb c "009" || Ascii.eqb c "013" || Ascii.eqb c "010".

Definition scheme_ok (scheme : string) : bool :=
  match scheme with
  | EmptyString => false
  | String c _ => is_ascii_alpha c && forallb_str scheme_chars scheme
  end.

Definition userinfo_char (c : ascii) : bool := negb (char_in c "/?#").

Definition host_char (c : ascii) : bool :=
  negb (char_in c "/?#@") && negb (is_tab_cr_lf c).

Definition path_char (c : ascii) : bool :=
  negb (char_in c "?#") && negb (is_tab_cr_lf c).

Definition query_char (c : ascii) : bool :=
  negb (Ascii.eqb c "#") && negb (is_tab_cr_lf c).

Definition fragment_char (c : ascii) : bool := negb (is_tab_cr_lf c).

Definition path_ok (path : string) : bool :=
  match path with
  | EmptyString => true
  | String c _ => Ascii.eqb c "/"
  end && forallb_str path_char path.

Definition all_of (p : ascii -> bool) (part : option string) : bool :=
  match part with
  | Some s => forallb_str p s
  | None => true
  end.

Definition url_ok (u : Url) : bool :=
  scheme_ok (url_scheme u)
  && all_of userinfo_char (url_userinfo u)
  && forallb_str host_char (url_host u)
  && path_ok (url_path u)
  && all_of query_char (url_query u)
  && all_of fragment_char (url_fragment u).

(** What follows the two slashes of a URL without user-info. *)
Definition after_slashes (u : Url) : string :=
  url_host u ++ url_path u ++ query_text (url_query u) ++ fragment_text (url_fragment u).

(** A text without tab, carriage return and line feed. *)
Definition clean (s : string) : bool := forallb_str (fun c => negb (is_tab_cr_lf c)) s.

(** The URL the component builds from the remote URL [u] and the token:
    the scheme in lower case, the token as user-info, host and path, and
    nothing after the path. *)
Definition pushed_url (token : string) (u : Url) : Url :=
  mkUrl (lower (url_scheme u)) (Some token) (url_host u) (url_path u) None None.

(** Reading a text as a URL: the scheme ends at the first colon, the
    authority at the first of [/?#] after the two slashes, the user-info at
    the last at-sign of the authority, the path at the first of [?#], the
    query at the first [#]. *)
Definition url_read (text : string) : Url :=
  let '(scheme, _, rest) := partition ":" text in
  let after := match rest with
               | String "/" (String "/" r) => r
               | _ => rest
               end in
  let '(authority, tail) := span_until (fun c => char_in c "/?#") after in
  let '(userinfo, has_userinfo, host) := rpartition "@" authority in
  let '(path, more) := span_until (fun c => char_in c "?#") tail in
  let '(query, has_fragment, fragment) := partition "#" more in
  mkUrl scheme
        (if has_userinfo then Some userinfo else None)
        host path
        (match query with String "?" q => Some q | _ => None end)
        (if has_fragment then Some fragment else None).

(** The URL has path parameters, as [urlparse] understands them: its
    scheme is one of those that take parameters and the last segment of
    the path holds a semicolon. *)
Definition has_params (u : Url) : bool :=
  in_list (lower (url_scheme u)) uses_params && contains ";" (basename (url_path u)).

(** The network location passes the two library checks of [urlsplit]:
    brackets come in pairs and then hold an address the library accepts,
    and characters outside ASCII pass the normalisation check. *)
Definition host_accepted {R : Runtime} (host : string) : Prop :=
  contains "[" host = contains "]" host
  /\ (contains "[" host = true -> rt_check_bracketed_netloc host = None)
  /\ (forallb_str is_ascii host = false -> rt_checknetloc_nfkc host = None).

(** "Trimming whitespace around each comma-separated entry and dropping
    empty entries." *)
Definition watched_files_spec (raw : string) : list string :=
  filter (fun f => negb (is_empty f)) (map strip (split_char "," raw)).

(** A commit-message template seen as the specification sees it: literal
    text without braces, occurrences of the placeholder, and the two
    doubled braces, which stand for a single brace of the message. *)
Inductive segment : Type :=
| Text (s : string)
| Placeholder
| OpenBrace
| CloseBrace.

Definition is_brace (c : ascii) : bool := Ascii.eqb c "{" || Ascii.eqb c "}".

Definition brace_free (s : string) : bool := forallb_str (fun c => negb (is_brace c)) s.

Definition segment_ok (seg : segment) : bool :=
  match seg with
  | Text s => brace_free s
  | Placeholder | OpenBrace | CloseBrace => true
  end.

Definition segment_source (seg : segment) : string :=
  match seg with
  | Text s => s
  | Placeholder => "{filename}"
  | OpenBrace => "{{"
  | CloseBrace => "}}"
  end.

Fixpoint template_of (segs : list segment) : string :=
  match segs with
  | [] => EmptyString
  | seg :: rest => segment_source seg ++ template_of rest
  end.

(** "The template with [{filename}] substituted." *)
Fixpoint substituted (filename : string) (segs : list segment) : string :=
  match segs with
  | [] => EmptyString
  | Text s :: rest => s ++ substituted filename rest
  | Placeholder :: rest => filename ++ substituted filename rest
  | OpenBrace :: rest => "{" ++ substituted filename rest
  | CloseBrace :: rest => "}" ++ substituted filename rest
  end.








(** A word the shell lexer returns unchanged: not empty, and made of the
    characters [shlex.quote] considers safe. *)
Definition plain_word (s : string) : bool :=
  negb (is_empty s) && forallb_str is_safe_char s.

(** The second word of an argument vector: the [git] subcommand. *)
Definition subcommand (args : list string) : string := nth 1 args EmptyString.


(* ================================================================== *)
(** * Further vocabulary *)
(* ================================================================== *)

(** [l1] is [l2] with some elements left out, the order kept. *)
Inductive subseq {A : Type} : list A -> list A -> Prop :=
| subseq_nil : subseq [] []
| subseq_skip (x : A) (l1 l2 : list A) : subseq l1 l2 -> subseq l1 (x :: l2)
| subseq_take (x : A) (l1 l2 : list A) : subseq l1 l2 -> subseq (x :: l1) (x :: l2).

(** Literal text written as a template: every brace doubled. *)
Fixpoint escape_braces (s : string) : string :=
  match s with
  | EmptyString => EmptyString
  | String c r =>
      if is_brace c then String c (String c (escape_braces r))
      else String c (escape_braces r)
  end.

(** The remotes of the form [user@host:path] that git accepts besides
    URLs: the characters before the at-sign, and those after it. *)
Definition scp_user_char (c : ascii) : bool :=
  negb (char_in c ":/?#;") && negb (c0_control_or_space c).

Definition scp_tail_char (c : ascii) : bool :=
  negb (char_in c "?#;") && negb (is_tab_cr_lf c).

(** A watched-file name as one writes it in the configuration: trimmed and
    without comma. *)
Definition clean_name (name : string) : bool :=
  String.eqb (strip name) name && negb (contains "," name).

(** The child processes a save event may start for the instance [g]: the
    staging of a path with a watched base name, the status query, a commit,
    a push to [origin]. *)
Definition backup_command (g : GitBackup) (args : list string) : bool :=
  match args with
  | ["git"; "add"; p] => in_list (basename p) (watched_files g)
  | ["git"; "status"; "--porcelain"] => true
  | ["git"; "commit"; "-m"; _] => true
  | "git" :: "push" :: "origin" :: _ => true
  | _ => false
  end.

(** The child processes that create the repository, when every step
    succeeds: [checkout] is the argument vector of the branch command,
    [added] the watched files found in the directory. *)
Definition creation_commands (checkout : list string) (added : list string)
  : list (list string) :=
  ([["git"; "init"]; checkout;
    ["git"; "config"; "user.name"; "Klipper Backup Plugin"];
    ["git"; "config"; "user.email"; "backup@klipper.local"]]
   ++ map argv_add added ++ [argv_commit initial_commit_message])%list.

(* ================================================================== *)
(** * A simulator of the version-control tool *)
(* ================================================================== *)

(** [FakeGit] is a stand-in for the operating system and [git], in the way a
    test suite of the component would fake the subprocess boundary.  It
    gives the interface [Runtime] a concrete inhabitant on which the
    statements below can be run, and a notion of repository state
    (commits, remotes, index) in which idempotence can be stated.  Nothing
    in the general statements depends on it. *)
Module FakeGit.

Record FakeWorld : Type := mkFake {
  fw_root : string;                    (* the working directory of the repository *)
  fw_git_installed : bool;             (* a git executable can be started *)
  fw_online : bool;                    (* the remote can be reached *)
  fw_files : list string;              (* files under the root, by relative path *)
  fw_repo : bool;                      (* the metadata directory exists *)
  fw_branch : string;                  (* the checked-out branch *)
  fw_config : list (string * string);  (* repository configuration *)
  fw_tracked : list string;            (* paths in the index *)
  fw_modified : list string;           (* tracked paths changed since they were staged *)
  fw_staged : list string;             (* paths staged for the next commit *)
  fw_commits : list string;            (* commit messages, oldest first *)
  fw_remotes : list (string * string); (* remote name and URL *)
  fw_pushed : nat                      (* commits the remote has received *)
}.

(** The part of the world that is the repository. *)
Definition repository (w : FakeWorld)
  : bool * string * list (string * string) * list string * list string
    * list string * list (string * string) :=
  (fw_repo w, fw_branch w, fw_config w, fw_tracked w, fw_staged w,
   fw_commits w, fw_remotes w).

(** [p] relative to [root], when [p] is [root/...]. *)
Fixpoint strip_prefix (pre s : string) : option string :=
  match pre, s with
  | EmptyString, _ => Some s
  | String a pre', String b s' => if Ascii.eqb a b then strip_prefix pre' s' else None
  | _, EmptyString => None
  end.

Definition relative (root p : string) : option string :=
  strip_prefix (root ++ "/") p.

Definition fake_isdir (w : FakeWorld) (p : string) : bool :=
  String.eqb p (fw_root w)
  || String.eqb p (path_join (fw_root w) EmptyString)
  || (String.eqb p (path_join (fw_root w) ".git") && fw_repo w).

Definition fake_exists (w : FakeWorld) (p : string) : bool :=
  fake_isdir w p
  || existsb (fun f => String.eqb p (path_join (fw_root w) f)) (fw_files w).

Definition remove_str (x : string) (l : list string) : list string :=
  filter (fun y => negb (String.eqb x y)) l.

Definition add_str (x : string) (l : list string) : list string :=
  if in_list x l then l else (l ++ [x])%list.

Definition newline : string := String "010" EmptyString.

Definition status_lines (w : FakeWorld) : string :=
  let line (tag p : string) := tag ++ p ++ newline in
  String.concat EmptyString
    (map (line "M  ") (fw_staged w)
     ++ map (line " M ") (fw_modified w)
     ++ map (line "?? ")
            (filter (fun p => negb (in_list p (fw_tracked w))) (fw_files w)))%list.

Definition has_remote (name : string) (w : FakeWorld) : bool :=
  existsb (fun r => String.eqb name (fst r)) (fw_remotes w).

Definition ok (w : FakeWorld) (stdout : string) : FakeWorld * proc_outcome :=
  (w, Completed 0 stdout EmptyString).
Definition fails (w : FakeWorld) (code : Z) (stderr : string) : FakeWorld * proc_outcome :=
  (w, Completed code EmptyString stderr).

Definition with_repo (w : FakeWorld) (repo : bool) (branch : string)
    (config : list (string * string)) (tracked modified staged commits : list string)
    (remotes : list (string * string)) (pushed : nat) : FakeWorld :=
  mkFake (fw_root w) (fw_git_installed w) (fw_online w) (fw_files w)
         repo branch config tracked modified staged commits remotes pushed.

(** The directory [cwd] is the root of an existing repository. *)
Definition in_repo (w : FakeWorld) (cwd : string) : bool :=
  fw_repo w && String.eqb cwd (fw_root w).

Definition without_remote (name : string) (w : FakeWorld) : FakeWorld :=
  with_repo w true (fw_branch w) (fw_config w) (fw_tracked w) (fw_modified w)
            (fw_staged w) (fw_commits w)
            (filter (fun r => negb (String.eqb name (fst r))) (fw_remotes w))
            (fw_pushed w).

Definition with_remote (name url : string) (w : FakeWorld) : FakeWorld :=
  with_repo w true (fw_branch w) (fw_config w) (fw_tracked w) (fw_modified w)
            (fw_staged w) (fw_commits w) (fw_remotes w ++ [(name, url)])%list
            (fw_pushed w).

(** The commands of [git] the component uses, run in directory [cwd]. *)
Definition git (w : FakeWorld) (cwd : string) (args : list string)
  : FakeWorld * proc_outcome :=
  let inside (k : FakeWorld * proc_outcome) :=
    if in_repo w cwd then k
    else fails w 128 "fatal: not a git repository" in
  match args with
  | ["--version"] => ok w ("git version 2.39.2" ++ newline)
  | ["init"] =>
      if String.eqb cwd (fw_root w)
      then ok (with_repo w true (fw_branch w) (fw_config w) (fw_tracked w)
                 (fw_modified w) (fw_staged w) (fw_commits w) (fw_remotes w)
                 (fw_pushed w))
              ("Initialized empty Git repository" ++ newline)
      else fails w 128 "fatal: cannot change to the directory"
  | ["checkout"; "-b"; b] =>
      inside
        (if is_empty b then fails w 128 "fatal: not a valid branch name"
         else ok (with_repo w true b (fw_config w) (fw_tracked w) (fw_modified w)
                    (fw_staged w) (fw_commits w) (fw_remotes w) (fw_pushed w))
                 EmptyString)
  | ["config"; key; value] =>
      inside
        (ok (with_repo w true (fw_branch w) (fw_config w ++ [(key, value)])%list
               (fw_tracked w) (fw_modified w) (fw_staged w) (fw_commits w)
               (fw_remotes w) (fw_pushed w))
            EmptyString)
  | ["add"; p] =>
      inside
        (let name := match relative cwd p with Some r => r | None => p end in
         if is_empty p then fails w 128 "fatal: empty string is not a valid pathspec"
         else if negb (in_list name (fw_files w))
         then fails w 128 "fatal: pathspec did not match any files"
         else
           let changed := negb (in_list name (fw_tracked w))
                          || in_list name (fw_modified w) in
           ok (with_repo w true (fw_branch w) (fw_config w)
                 (add_str name (fw_tracked w))
                 (remove_str name (fw_modified w))
                 (if changed then add_str name (fw_staged w) else fw_staged w)
                 (fw_commits w) (fw_remotes w) (fw_pushed w))
              EmptyString)
  | ["status"; "--porcelain"] => inside (ok w (status_lines w))
  | ["commit"; "-m"; msg] =>
      inside
        (match fw_staged w with
         | [] => (w, Completed 1 ("nothing to commit" ++ newline) EmptyString)
         | _ =>
             ok (with_repo w true (fw_branch w) (fw_config w) (fw_tracked w)
                   (fw_modified w) [] (fw_commits w ++ [msg])%list
                   (fw_remotes w) (fw_pushed w))
                EmptyString
         end)
  | ["remote"; "remove"; name] =>
      inside
        (if has_remote name w then ok (without_remote name w) EmptyString
         else fails w 2 "error: No such remote")
  | ["remote"; "add"; name; url] =>
      inside
        (if has_remote name w then fails w 3 "error: remote already exists."
         else ok (with_remote name url w) EmptyString)
  | ["push"; name; b] =>
      inside
        (if negb (has_remote name w)
         then fails w 128 "fatal: does not appear to be a git repository"
         else if negb (fw_online w)
         then fails w 128 "fatal: unable to access the remote"
         else if negb (String.eqb b (fw_branch w))
                 || match fw_commits w with [] => true | _ => false end
         then fails w 1 "error: src refspec does not match any"
         else ok (with_repo w true (fw_branch w) (fw_config w) (fw_tracked w)
                    (fw_modified w) (fw_staged w) (fw_commits w) (fw_remotes w)
                    (List.length (fw_commits w)))
                 EmptyString)
  | _ => fails w 1 "git: not a git command"
  end.

Definition fake_run (w : FakeWorld) (cwd : string) (args : list string)
  : FakeWorld * proc_outcome :=
  match args with
  | "git" :: rest =>
      if fw_git_installed w then git w cwd rest
      else (w, Failed (OSError "[Errno 2] No such file or directory: 'git'"))
  | _ => (w, Failed (OSError "[Errno 2] No such file or directory"))
  end.

(** The three library routines are closed in the simplest way: every
    bracketed or non-ASCII network location and every extended replacement
    field is refused. *)
#[export] Instance runtime : Runtime := {
  World := FakeWorld;
  run_process := fake_run;
  isdir := fake_isdir;
  path_exists := fake_exists;
  rt_check_bracketed_netloc := fun _ => Some "Invalid IPv6 URL";
  rt_checknetloc_nfkc :=
    fun _ => Some "netloc contains invalid characters under NFKC normalization";
  rt_format_ext := fun _ _ _ _ => inl (ValueError "Invalid format specifier")
}.

(** A machine with [git] and a network, the configuration directory
    [/cfg] holding [files], none of them under version control. *)
Definition fresh (files : list string) : FakeWorld :=
  mkFake "/cfg" true true files false "" [] [] [] [] [] [] 0.

Definition empty_host (w : FakeWorld) : Host := mkHost w [] [] [].

(** The configuration of the running example. *)
Definition example_config : Config :=
  mkConfig "/cfg" (Some true) (Some "https://github.com/user/repo.git")
           (Some "abc123") None None None.

(** The instance the constructor leaves on a fresh machine holding
    [printer.cfg]: repository created, first commit made, remote set. *)
Definition ready : State :=
  Eval vm_compute in __init__ example_config (empty_host (fresh ["printer.cfg"])).

(** The same state in a world changed by [f]. *)
Definition in_world (f : FakeWorld -> FakeWorld) (st : State) : State :=
  let h := host st in
  mkState (self st) (mkHost (f (world h)) (calls h) (log h) (handlers h)).

(** The user edits a tracked file. *)
Definition edit (name : string) (w : FakeWorld) : FakeWorld :=
  with_repo w (fw_repo w) (fw_branch w) (fw_config w) (fw_tracked w)
            (add_str name (fw_modified w)) (fw_staged w) (fw_commits w)
            (fw_remotes w) (fw_pushed w).

(** The network goes away. *)
Definition unplug (w : FakeWorld) : FakeWorld :=
  mkFake (fw_root w) (fw_git_installed w) false (fw_files w) (fw_repo w)
         (fw_branch w) (fw_config w) (fw_tracked w) (fw_modified w)
         (fw_staged w) (fw_commits w) (fw_remotes w) (fw_pushed w).

(** The default commit-message template, in segments. *)
Definition default_segments : list segment :=
  [Text "Auto-backup: "; Placeholder; Text " modificado"].

(** A configuration whose template names a placeholder the component does
    not supply, and the instance it gives on the same machine. *)
Definition bad_template_config : Config :=
  mkConfig "/cfg" (Some true) (Some "https://github.com/user/repo.git")
           (Some "abc123") None (Some "Backup {file}") None.

Definition bad_template_ready : State :=
  Eval vm_compute in __init__ bad_template_config (empty_host (fresh ["printer.cfg"])).

(** A configuration without token, and one that is switched off. *)
Definition no_token_config : Config :=
  mkConfig "/cfg" (Some true) (Some "https://github.com/user/repo.git")
           None None None None.

Definition disabled_config : Config :=
  mkConfig "/cfg" None (Some "https://github.com/user/repo.git")
           (Some "abc123") None None None.

(** An instance whose remote URL carries a query. *)
Definition query_url_instance : GitBackup :=
  mkGitBackup "/cfg" true (Some "https://github.com/user/repo.git?ref=main")
              (Some "abc123") ["printer.cfg"] default_commit_message "main".

(** A machine without [git]. *)
Definition without_git (w : FakeWorld) : FakeWorld :=
  mkFake (fw_root w) false (fw_online w) (fw_files w) (fw_repo w)
         (fw_branch w) (fw_config w) (fw_tracked w) (fw_modified w)
         (fw_staged w) (fw_commits w) (fw_remotes w) (fw_pushed w).

(** The same state with another instance. *)
Definition with_self (g : GitBackup) (st : State) : State := mkState g (host st).

(** The ready instance, had its branch been configured with a quote that
    is never closed, or with two words. *)
Definition quote_branch_instance : GitBackup :=
  mkGitBackup "/cfg" true (Some "https://github.com/user/repo.git")
              (Some "abc123") ["printer.cfg"] default_commit_message "fix'me".

(** An instance that watches a file in a subdirectory. *)
Definition subdir_instance : GitBackup :=
  mkGitBackup "/cfg" true (Some "https://github.com/user/repo.git")
              (Some "abc123") ["macros/print.cfg"] default_commit_message "main".

(** An instance whose remote is given in the [user@host:path] form. *)
Definition scp_instance : GitBackup :=
  mkGitBackup "/cfg" true (Some "git@github.com:user/repo.git")
              (Some "abc123") ["printer.cfg"] default_commit_message "main".

(** The remote URL of the running example, and the one of
    [query_url_instance], by their components. *)
Definition example_url : Url :=
  mkUrl "https" None "github.com" "/user/repo.git" None None.

Definition query_url : Url :=
  mkUrl "https" None "github.com" "/user/repo.git" (Some "ref=main") None.





(** The ready instance on a machine that holds, beside the watched file,
    a file that is not under version control. *)
Definition untracked_ready : State :=
  Eval vm_compute in
    __init__ example_config (empty_host (fresh ["printer.cfg"; "notes.txt"])).

(** Another file of the directory has a change staged. *)
Definition stage_other (name : string) (w : FakeWorld) : FakeWorld :=
  mkFake (fw_root w) (fw_git_installed w) (fw_online w) (add_str name (fw_files w))
         (fw_repo w) (fw_branch w) (fw_config w) (add_str name (fw_tracked w))
         (fw_modified w) (add_str name (fw_staged w)) (fw_commits w)
         (fw_remotes w) (fw_pushed w).

(** The ready instance, had its branch been configured with a part in
    double quotes. *)
Definition dquote_branch_instance : GitBackup :=
  mkGitBackup "/cfg" true (Some "https://github.com/user/repo.git")
              (Some "abc123") ["printer.cfg"] default_commit_message
              ("v" ++ quoted "2").

(** A configuration whose remote URL opens a bracket in the network
    location and never closes it. *)
Definition bracket_url_config : Config :=
  mkConfig "/cfg" (Some true) (Some "https://[github.com/user/repo.git")
           (Some "abc123") None None None.

End FakeGit.


(* ================================================================== *)
(** * Facts about the string operations *)
(* ================================================================== *)

Section StringFacts.

Lemma append_assoc (a b c : string) : (a ++ b) ++ c = a ++ (b ++ c).
Proof. induction a as [|x a IH]; simpl; [reflexivity | now rewrite IH]. Qed.

Lemma append_nil_r (a : string) : a ++ "" = a.
Proof. induction a as [|x a IH]; simpl; [reflexivity | now rewrite IH]. Qed.

Lemma is_empty_true (s : string) : is_empty s = true <-> s = "".
Proof. destruct s; simpl; split; congruence. Qed.

Lemma is_empty_append (a b : string) :
  is_empty (a ++ b) = is_empty a && is_empty b.
Proof. destruct a; reflexivity. Qed.

Lemma forallb_str_append p (a b : string) :
  forallb_str p (a ++ b) = forallb_str p a && forallb_str p b.
Proof.
  induction a as [|x a IH]; simpl; [reflexivity|].
  rewrite IH. now rewrite andb_assoc.
Qed.

Lemma char_in_append c (a b : string) :
  char_in c (a ++ b) = char_in c a || char_in c b.
Proof.
  induction a as [|x a IH]; simpl; [reflexivity|].
  rewrite IH. now rewrite orb_assoc.
Qed.

(** A character absent from a string, as a [forallb_str] fact. *)
Lemma char_in_false_forall c (s : string) :
  char_in c s = false <-> forallb_str (fun d => negb (Ascii.eqb d c)) s = true.
Proof.
  induction s as [|x s IH]; simpl; [tauto|].
  rewrite (Ascii.eqb_sym c x).
  destruct (Ascii.eqb x c); simpl; [split; discriminate | exact IH].
Qed.

Lemma forallb_str_impl (p q : ascii -> bool) (s : string) :
  (forall c, p c = true -> q c = true) ->
  forallb_str p s = true -> forallb_str q s = true.
Proof.
  intros Hpq. induction s as [|x s IH]; simpl; [reflexivity|].
  intros H. apply andb_true_iff in H as [Hx Hs].
  now rewrite (Hpq _ Hx), IH.
Qed.

(** *** [split] *)

Lemma split_char_length sep (s : string) :
  List.length (split_char sep s) = S (count_char sep s).
Proof.
  induction s as [|c s IH]; simpl; [reflexivity|].
  destruct (Ascii.eqb c sep); simpl.
  - now rewrite IH.
  - destruct (split_char sep s) as [|h t] eqn:E; simpl in *; [discriminate | exact IH].
Qed.

Lemma split_char_no_sep sep (s : string) :
  Forall (fun f => contains sep f = false) (split_char sep s).
Proof.
  induction s as [|c s IH]; simpl.
  - constructor; [reflexivity | constructor].
  - destruct (Ascii.eqb c sep) eqn:E.
    + constructor; [reflexivity | exact IH].
    + destruct (split_char sep s) as [|h t].
      * constructor; [|constructor]. unfold contains. simpl.
        rewrite Ascii.eqb_sym, E. reflexivity.
      * inversion IH; subst. constructor; [|assumption].
        unfold contains in *. simpl. rewrite Ascii.eqb_sym, E. assumption.
Qed.

(** *** [strip] *)

Lemma lstrip_by_first p (s : string) c :
  first_char (lstrip_by p s) = Some c -> p c = false.
Proof.
  induction s as [|x s IH]; simpl; [discriminate|].
  destruct (p x) eqn:E; [exact IH|].
  simpl. intros H. injection H as <-. exact E.
Qed.

Lemma rstrip_by_first p (s : string) c :
  first_char (rstrip_by p s) = Some c -> first_char s = Some c.
Proof.
  destruct s as [|x s]; simpl; [discriminate|].
  destruct (rstrip_by p s); [destruct (p x)|]; simpl; congruence.
Qed.

Lemma rstrip_by_last p (s : string) c :
  last_char (rstrip_by p s) = Some c -> p c = false.
Proof.
  induction s as [|x s IH]; simpl; [discriminate|].
  destruct (rstrip_by p s) as [|y r] eqn:E.
  - destruct (p x) eqn:Ex; simpl; [discriminate|].
    intros H. injection H as <-. exact Ex.
  - intros H. apply IH. exact H.
Qed.

Lemma strip_trimmed (s : string) : trimmed (strip s).
Proof.
  split; intros c H.
  - apply (lstrip_by_first isspace s). now apply rstrip_by_first in H.
  - now apply rstrip_by_last in H.
Qed.

Lemma lstrip_by_empty p (s : string) :
  forallb_str p s = true -> lstrip_by p s = "".
Proof.
  induction s as [|x s IH]; simpl; [reflexivity|].
  destruct (p x); simpl; [exact IH | discriminate].
Qed.

Lemma rstrip_by_empty p (s : string) :
  rstrip_by p s = "" <-> forallb_str p s = true.
Proof.
  induction s as [|x s IH]; simpl; [tauto|].
  destruct (rstrip_by p s) as [|y r] eqn:E.
  - destruct (p x); simpl.
    + split; [intros _; now apply IH | reflexivity].
    + split; discriminate.
  - split; [discriminate|].
    intros H. apply andb_true_iff in H as [_ H]. apply IH in H. discriminate.
Qed.

Lemma lstrip_by_forallb p (s : string) :
  forallb_str p (lstrip_by p s) = forallb_str p s.
Proof.
  induction s as [|x s IH]; simpl; [reflexivity|].
  destruct (p x) eqn:E; simpl; [exact IH | now rewrite E].
Qed.

(** [strip] returns the empty string exactly on blank input. *)
Lemma strip_empty_iff (s : string) :
  strip s = "" <-> forallb_str isspace s = true.
Proof.
  unfold strip. rewrite rstrip_by_empty, lstrip_by_forallb. tauto.
Qed.

Lemma lstrip_by_contains p c (s : string) :
  contains c s = false -> contains c (lstrip_by p s) = false.
Proof.
  unfold contains. induction s as [|x s IH]; simpl; [reflexivity|].
  intros H. apply orb_false_iff in H as [Hx Hs].
  destruct (p x); [now apply IH | simpl; now rewrite Hx, Hs].
Qed.

Lemma rstrip_by_contains p c (s : string) :
  contains c s = false -> contains c (rstrip_by p s) = false.
Proof.
  unfold contains. induction s as [|x s IH]; simpl; [reflexivity|].
  intros H. apply orb_false_iff in H as [Hx Hs].
  specialize (IH Hs).
  destruct (rstrip_by p s) as [|y r].
  - destruct (p x); simpl; [reflexivity | now rewrite Hx].
  - simpl in *. now rewrite Hx, IH.
Qed.

Lemma strip_contains c (s : string) :
  contains c s = false -> contains c (strip s) = false.
Proof.
  intros H. unfold strip. now apply rstrip_by_contains, lstrip_by_contains.
Qed.

End StringFacts.

(* ================================================================== *)
(** * The watched-file list *)
(* ================================================================== *)

(** C8, as stated, fails: an entry that is empty after trimming stays in the
    list, so the list of the source differs from the one the specification
    describes. *)
Lemma watched_files_keeps_empty_entries :
  In "" (parse_watched_files "printer.cfg, ,moonraker.conf")
  /\ parse_watched_files "printer.cfg, ,moonraker.conf"
     <> watched_files_spec "printer.cfg, ,moonraker.conf".
Proof.
  split.
  - vm_compute. right. left. reflexivity.
  - vm_compute. discriminate.
Qed.

(** C8, amended: the watched-file list is the comma-separated entries of the
    configuration value, each trimmed, none dropped.  It has one entry per
    comma plus one, every entry is trimmed and free of commas, the empty
    name is in the list exactly when some entry is blank, and the list of
    the specification is this one without its empty names. *)
Theorem watched_files_split_and_trimmed (raw : string) :
  List.length (parse_watched_files raw) = S (count_char "," raw)
  /\ Forall trimmed (parse_watched_files raw)
  /\ Forall (fun f => contains "," f = false) (parse_watched_files raw)
  /\ (In "" (parse_watched_files raw)
      <-> exists f, In f (split_char "," raw) /\ forallb_str isspace f = true)
  /\ watched_files_spec raw
     = filter (fun f => negb (is_empty f)) (parse_watched_files raw).
Proof.
  unfold parse_watched_files. repeat split.
  - now rewrite length_map, split_char_length.
  - apply Forall_forall. intros f Hf.
    apply in_map_iff in Hf as (g & <- & _). apply strip_trimmed.
  - apply Forall_forall. intros f Hf.
    apply in_map_iff in Hf as (g & <- & Hg).
    apply strip_contains.
    pose proof (split_char_no_sep "," raw) as H.
    rewrite Forall_forall in H. now apply H.
  - intros H. apply in_map_iff in H as (g & Hg & Hin).
    exists g. split; [assumption | now apply strip_empty_iff].
  - intros (g & Hin & Hg). apply in_map_iff.
    exists g. split; [now apply strip_empty_iff | assumption].
Qed.

(* ================================================================== *)
(** * The shell lexer: quoting and splitting *)
(* ================================================================== *)

Section ShlexFacts.

(** A safe character is ordinary for the lexer. *)
Lemma safe_char_ordinary (c : ascii) :
  is_safe_char c = true ->
  shlex_whitespace c = false /\ shlex_quotes c = false /\ shlex_escape c = false.
Proof.
  destruct c as [b0 b1 b2 b3 b4 b5 b6 b7].
  destruct b0, b1, b2, b3, b4, b5, b6, b7; vm_compute; intros H;
    first [discriminate H | repeat split].
Qed.

Lemma append_char_append (t : string) (c : ascii) (s : string) :
  append_char t c ++ s = t ++ String c s.
Proof. unfold append_char. now rewrite append_assoc. Qed.

(** Inside a word, safe characters are appended up to the end of input. *)
Lemma lex_word_safe (s t : string) (esc : lexstate) (q : bool) :
  forallb_str is_safe_char s = true ->
  lex LWord esc q t s = emit q (t ++ s) (inr []).
Proof.
  revert t. induction s as [|c s IH]; intros t H; simpl.
  - now rewrite append_nil_r.
  - simpl in H. apply andb_true_iff in H as [Hc Hs].
    destruct (safe_char_ordinary c Hc) as (-> & -> & ->).
    rewrite IH by assumption. now rewrite append_char_append.
Qed.

(** Inside single quotes, the escaped form of [s] is read back as [s]. *)
Lemma lex_single_quoted (s t : string) (esc : lexstate) (q : bool) :
  lex (LQuote squote) esc q t (escape_squotes s ++ String squote "")
  = inr [t ++ s].
Proof.
  revert t q. induction s as [|c s IH]; intros t q.
  - simpl. now rewrite append_nil_r.
  - simpl. destruct (Ascii.eqb c squote) eqn:E.
    + apply Ascii.eqb_eq in E. subst c.
      simpl. rewrite IH. now rewrite append_char_append.
    + simpl. rewrite E, andb_false_r, IH. now rewrite append_char_append.
Qed.

(** [shlex.split] undoes [shlex.quote]: a quoted string is one argument. *)
Lemma lex_quote (s : string) (esc : lexstate) :
  lex LSpace esc false "" (shlex_quote s) = inr [s].
Proof.
  unfold shlex_quote. destruct s as [|c s]; [reflexivity|].
  simpl is_empty. cbv iota.
  destruct (forallb_str is_safe_char (String c s)) eqn:E.
  - simpl in E. apply andb_true_iff in E as [Hc Hs].
    simpl. destruct (safe_char_ordinary c Hc) as (-> & -> & ->).
    now rewrite lex_word_safe.
  - change (lex LSpace esc false ""
              (String squote (escape_squotes (String c s) ++ String squote "")))
      with (lex (LQuote squote) esc false ""
              (escape_squotes (String c s) ++ String squote "")).
    now rewrite lex_single_quoted.
Qed.

Lemma lex_plain_word (s : string) (esc : lexstate) :
  plain_word s = true -> lex LSpace esc false "" s = inr [s].
Proof.
  unfold plain_word. intros H. apply andb_true_iff in H as [Hne Hs].
  destruct s as [|c s]; [discriminate|].
  simpl in Hs. apply andb_true_iff in Hs as [Hc Hs].
  simpl. destruct (safe_char_ordinary c Hc) as (-> & -> & ->).
  now rewrite lex_word_safe.
Qed.

(** The command lines of the component and their argument vectors. *)

Lemma split_add (p : string) :
  shlex_split ("git add " ++ shlex_quote p) = inr (argv_add p).
Proof. unfold shlex_split. simpl. now rewrite lex_quote. Qed.

Lemma split_commit (msg : string) :
  shlex_split ("git commit -m " ++ shlex_quote msg) = inr (argv_commit msg).
Proof. unfold shlex_split. simpl. now rewrite lex_quote. Qed.

Lemma split_remote_add (url : string) :
  shlex_split ("git remote add origin " ++ shlex_quote url) = inr (argv_remote_add url).
Proof. unfold shlex_split. simpl. now rewrite lex_quote. Qed.

Lemma split_push (branch : string) :
  plain_word branch = true ->
  shlex_split ("git push origin " ++ branch) = inr (argv_push branch).
Proof. intros H. unfold shlex_split. simpl. now rewrite lex_plain_word. Qed.

Lemma split_checkout (branch : string) :
  plain_word branch = true ->
  shlex_split ("git checkout -b " ++ branch) = inr ["git"; "checkout"; "-b"; branch].
Proof. intros H. unfold shlex_split. simpl. now rewrite lex_plain_word. Qed.

Lemma split_status : shlex_split "git status --porcelain" = inr argv_status.
Proof. reflexivity. Qed.

Lemma split_remote_remove : shlex_split "git remote remove origin" = inr argv_remote_remove.
Proof. reflexivity. Qed.

Lemma split_version : shlex_split "git --version" = inr ["git"; "--version"].
Proof. reflexivity. Qed.

Lemma split_init : shlex_split "git init" = inr ["git"; "init"].
Proof. reflexivity. Qed.

Lemma split_config_name :
  shlex_split cmd_config_name = inr ["git"; "config"; "user.name"; "Klipper Backup Plugin"].
Proof. reflexivity. Qed.

Lemma split_config_email :
  shlex_split cmd_config_email = inr ["git"; "config"; "user.email"; "backup@klipper.local"].
Proof. reflexivity. Qed.

Lemma split_initial_commit :
  shlex_split cmd_initial_commit = inr (argv_commit initial_commit_message).
Proof. reflexivity. Qed.

(** Whatever the branch name, what [git push origin <branch>] splits into
    is a [push]: the first two words are fixed. *)
Lemma split_push_subcommand (branch : string) (args : list string) :
  shlex_split ("git push origin " ++ branch) = inr args ->
  subcommand args = "push".
Proof.
  unfold shlex_split. simpl.
  destruct (lex LSpace LSpace false "" branch) as [e|toks]; simpl.
  - discriminate.
  - intros H. injection H as <-. reflexivity.
Qed.

End ShlexFacts.

(* ================================================================== *)
(** * Running commands *)
(* ================================================================== *)

Section RunFacts.

Context {R : Runtime}.

(** The lexer raises nothing but [ValueError]. *)
Lemma emit_error (q : bool) (t : string) (next : result (list string)) (e : exn) :
  emit q t next = inl e -> next = inl e.
Proof.
  unfold emit. destruct (negb q && is_empty t); [discriminate|].
  destruct next; congruence.
Qed.

Lemma lex_error (input : string) :
  forall state esc q t e,
    lex state esc q t input = inl e -> exists msg, e = ValueError msg.
Proof.
  induction input as [|c rest IH]; intros state esc q t e H; simpl in H.
  - destruct state; try (injection H as <-; eauto).
    + apply emit_error in H. discriminate.
    + apply emit_error in H. discriminate.
  - destruct state.
    + destruct (shlex_whitespace c).
      * destruct (negb (is_empty t) || q); [apply emit_error in H|]; eauto.
      * destruct (shlex_escape c); [eauto|].
        destruct (shlex_quotes c); eauto.
    + destruct (shlex_whitespace c).
      * destruct (negb (is_empty t) || q); [apply emit_error in H|]; eauto.
      * destruct (shlex_quotes c); [eauto|].
        destruct (shlex_escape c); eauto.
    + destruct (Ascii.eqb c q0); [eauto|].
      destruct (shlex_escape c && shlex_escapedquotes q0); eauto.
    + eauto.
Qed.

Lemma shlex_split_error (command : string) (e : exn) :
  shlex_split command = inl e -> exists msg, e = ValueError msg.
Proof. apply lex_error. Qed.

Lemma evolves_refl (st : State) : evolves st st [].
Proof.
  repeat split. - now rewrite app_nil_r. - exists []. now rewrite app_nil_r.
Qed.

Lemma evolves_trans (st1 st2 st3 : State) (l1 l2 : list (list string)) :
  evolves st1 st2 l1 -> evolves st2 st3 l2 -> evolves st1 st3 (l1 ++ l2).
Proof.
  intros (S1 & H1 & C1 & r1 & L1) (S2 & H2 & C2 & r2 & L2).
  repeat split.
  - congruence.
  - congruence.
  - rewrite C2, C1. now rewrite app_assoc.
  - exists (r1 ++ r2)%list. rewrite L2, L1. now rewrite app_assoc.
Qed.

Lemma evolves_add_log (st : State) lv msg : evolves st (add_log lv msg st) [].
Proof.
  repeat split; simpl. - now rewrite app_nil_r. - now exists [(lv, msg)].
Qed.

Lemma evolves_record_call (st : State) args w : evolves st (record_call args w st) [args].
Proof.
  repeat split; simpl. exists []. now rewrite app_nil_r.
Qed.

Lemma logging_run lv msg (st : State) : logging lv msg st = (inr tt, add_log lv msg st).
Proof. reflexivity. Qed.

Lemma logging_info_run msg (st : State) :
  logging_info msg st = (inr tt, add_log INFO msg st).
Proof. reflexivity. Qed.

Lemma logging_error_run msg (st : State) :
  logging_error msg st = (inr tt, add_log ERROR msg st).
Proof. reflexivity. Qed.

Lemma run_git_command_spec (command : string) (suppress_errors : bool) (st : State) :
  _run_git_command command suppress_errors st =
  match shlex_split command with
  | inl e => (inl e, st)
  | inr args =>
      let '(w, outcome) := run_process (world (host st)) (config_path (self st)) args in
      run_result command suppress_errors args w outcome st
  end.
Proof.
  unfold _run_git_command, try_except, bind, lift.
  destruct (shlex_split command) as [e|args] eqn:E.
  - destruct (shlex_split_error _ E) as [msg ->]. reflexivity.
  - unfold subprocess_run.
    destruct (run_process (world (host st)) (config_path (self st)) args) as [w outcome].
    unfold run_result.
    destruct outcome as [rc out err|e].
    + destruct (rc =? 0)%Z eqn:Erc; destruct suppress_errors; simpl; try rewrite Erc; reflexivity.
    + destruct e; destruct suppress_errors; reflexivity.
Qed.

(** A command adds at most its own child process to the run and leaves the
    instance alone. *)
Lemma run_git_command_evolves (command : string) (suppress_errors : bool) (st : State) :
  match shlex_split command with
  | inl e => _run_git_command command suppress_errors st = (inl e, st)
  | inr args => evolves st (snd (_run_git_command command suppress_errors st)) [args]
  end.
Proof.
  rewrite run_git_command_spec.
  destruct (shlex_split command) as [e|args]; [reflexivity|].
  destruct (run_process _ _ args) as [w outcome].
  unfold run_result.
  assert (Hlog : forall lv msg, evolves st (add_log lv msg (record_call args w st)) [args]).
  { intros lv msg.
    change [args] with ([args] ++ [])%list.
    eapply evolves_trans; [apply evolves_record_call | apply evolves_add_log]. }
  destruct outcome as [rc out err|e].
  - destruct ((rc =? 0)%Z || suppress_errors); simpl.
    + apply evolves_record_call.
    + destruct suppress_errors; simpl; apply Hlog.
  - destruct e; simpl; try apply evolves_record_call;
      destruct suppress_errors; simpl; apply Hlog.
Qed.

Lemma run_git_command_outcome (command : string) (suppress : bool) (st : State)
      (args : list string) (w : World) (outcome : proc_outcome) :
  shlex_split command = inr args ->
  run_process (world (host st)) (config_path (self st)) args = (w, outcome) ->
  _run_git_command command suppress st = run_result command suppress args w outcome st.
Proof.
  intros Hs Hr. now rewrite run_git_command_spec, Hs, Hr.
Qed.

(** The three outcomes the statements below distinguish. *)
Lemma run_git_command_ok (command : string) (suppress : bool) (st : State)
      (args : list string) (w : World) (out err : string) :
  shlex_split command = inr args ->
  run_process (world (host st)) (config_path (self st)) args = (w, Completed 0 out err) ->
  _run_git_command command suppress st = (inr (Some (strip out)), record_call args w st).
Proof.
  intros Hs Hr. rewrite run_git_command_spec, Hs, Hr. reflexivity.
Qed.

Lemma run_git_command_suppressed (command : string) (st : State)
      (args : list string) (w : World) (rc : Z) (out err : string) :
  shlex_split command = inr args ->
  run_process (world (host st)) (config_path (self st)) args = (w, Completed rc out err) ->
  _run_git_command command true st = (inr (Some (strip out)), record_call args w st).
Proof.
  intros Hs Hr. rewrite run_git_command_spec, Hs, Hr. unfold run_result.
  now rewrite orb_true_r.
Qed.

Lemma run_git_command_nonzero (command : string) (st : State)
      (args : list string) (w : World) (rc : Z) (out err : string) :
  shlex_split command = inr args ->
  run_process (world (host st)) (config_path (self st)) args = (w, Completed rc out err) ->
  rc <> 0%Z ->
  _run_git_command command false st
  = (inl (CalledProcessError args rc out err),
     add_log ERROR (MsgCommandFailed command err) (record_call args w st)).
Proof.
  intros Hs Hr Hrc. rewrite run_git_command_spec, Hs, Hr. unfold run_result.
  apply Z.eqb_neq in Hrc. now rewrite Hrc.
Qed.

Lemma run_git_command_failure (command : string) (st : State)
      (args : list string) (w : World) (outcome : proc_outcome)
      (e : exn) (records : list (level * message)) :
  shlex_split command = inr args ->
  run_process (world (host st)) (config_path (self st)) args = (w, outcome) ->
  failure command args outcome = Some (e, records) ->
  _run_git_command command false st
  = (inl e,
     mkState (self st)
       (mkHost w (calls (host st) ++ [args])%list (log (host st) ++ records)%list
          (handlers (host st)))).
Proof.
  intros Hs Hr Hf. rewrite (run_git_command_outcome _ false _ Hs Hr).
  unfold run_result, failure in *.
  destruct outcome as [rc out err|e0].
  - destruct (rc =? 0)%Z; [discriminate|]. injection Hf as <- <-. reflexivity.
  - destruct e0; injection Hf as <- <-; try reflexivity;
      unfold record_call; cbn; now rewrite app_nil_r.
Qed.

End RunFacts.

(* ================================================================== *)
(** * Rendering the commit message *)
(* ================================================================== *)

Section FormatFacts.

Variable ext : string -> option ascii -> string -> string -> result string.
Variable filename : string.

Lemma prepend_str_inr_nil (r : result string) : prepend_str (inr "") r = r.
Proof. destruct r; reflexivity. Qed.

Lemma prepend_str_cons (c : ascii) (s : string) (r : result string) :
  prepend c (prepend_str (inr s) r) = prepend_str (inr (String c s)) r.
Proof. destruct r; reflexivity. Qed.

Lemma prepend_str_append (a b : string) (r : result string) :
  prepend_str (inr a) (prepend_str (inr b) r) = prepend_str (inr (a ++ b)) r.
Proof. destruct r; simpl; [reflexivity | now rewrite append_assoc]. Qed.

(** Literal text without braces is copied. *)
Lemma fmt_text (s rest : string) :
  brace_free s = true ->
  Py.fmt ext filename FLit (s ++ rest)
  = prepend_str (inr s) (Py.fmt ext filename FLit rest).
Proof.
  induction s as [|c s IH]; intros H.
  - now rewrite prepend_str_inr_nil.
  - simpl in H. apply andb_true_iff in H as [Hc Hs].
    unfold is_brace in Hc. apply negb_true_iff, orb_false_iff in Hc as [Ho Hcl].
    change (String c s ++ rest) with (String c (s ++ rest)).
    simpl Py.fmt. rewrite Ho, Hcl, (IH Hs). apply prepend_str_cons.
Qed.

(** The placeholder is replaced by the file name. *)
Lemma fmt_placeholder (rest : string) :
  Py.fmt ext filename FLit ("{filename}" ++ rest)
  = prepend_str (inr filename) (Py.fmt ext filename FLit rest).
Proof. reflexivity. Qed.

Lemma prepend_as_str (c : ascii) (r : result string) :
  prepend c r = prepend_str (inr (String c "")) r.
Proof. destruct r; reflexivity. Qed.

Lemma fmt_template_of (segs : list segment) (rest : string) :
  forallb segment_ok segs = true ->
  Py.fmt ext filename FLit (template_of segs ++ rest)
  = prepend_str (inr (substituted filename segs)) (Py.fmt ext filename FLit rest).
Proof.
  induction segs as [|seg segs IH]; intros H.
  - now rewrite prepend_str_inr_nil.
  - simpl in H. apply andb_true_iff in H as [Hseg Hsegs].
    simpl template_of. rewrite append_assoc.
    destruct seg as [s| | |]; simpl segment_source.
    + rewrite (fmt_text _ _ Hseg), (IH Hsegs). simpl substituted.
      apply prepend_str_append.
    + rewrite fmt_placeholder, (IH Hsegs). simpl substituted.
      apply prepend_str_append.
    + change (Py.fmt ext filename FLit ("{{" ++ template_of segs ++ rest))
        with (prepend "{" (Py.fmt ext filename FLit (template_of segs ++ rest))).
      rewrite (IH Hsegs), prepend_as_str. cbn [substituted].
      apply prepend_str_append.
    + change (Py.fmt ext filename FLit ("}}" ++ template_of segs ++ rest))
        with (prepend "}" (Py.fmt ext filename FLit (template_of segs ++ rest))).
      rewrite (IH Hsegs), prepend_as_str. cbn [substituted].
      apply prepend_str_append.
Qed.

(** A template of literal text and placeholders renders as the
    specification says. *)
Lemma str_format_template_of (segs : list segment) :
  forallb segment_ok segs = true ->
  str_format ext filename (template_of segs) = inr (substituted filename segs).
Proof.
  intros H. unfold str_format.
  rewrite <- (append_nil_r (template_of segs)), (fmt_template_of _ _ H).
  simpl. now rewrite append_nil_r.
Qed.


Lemma span_until_stop p (a b : string) :
  forallb_str (fun c => negb (p c)) a = true ->
  match b with EmptyString => True | String c _ => p c = true end ->
  span_until p (a ++ b) = (a, b).
Proof.
  induction a as [|d a IH]; simpl.
  - intros _ Hb. destruct b as [|c b]; simpl; [reflexivity | now rewrite Hb].
  - intros H Hb. apply andb_true_iff in H as [Hd Ha].
    apply negb_true_iff in Hd. now rewrite Hd, (IH Ha Hb).
Qed.











End FormatFacts.

(* ================================================================== *)
(** * The URL with the token *)
(* ================================================================== *)

Section UrlFacts.

(** Reasoning by cases on a character: all 256 of them. *)
Ltac by_bits c :=
  destruct c as [[] [] [] [] [] [] [] []]; vm_compute; intros;
  first [discriminate | reflexivity | tauto | repeat split; congruence].

Lemma remove_char_absent (c : ascii) (s : string) :
  forallb_str (fun d => negb (Ascii.eqb d c)) s = true -> remove_char c s = s.
Proof.
  induction s as [|d s IH]; simpl; [reflexivity|].
  intros H. apply andb_true_iff in H as [Hd Hs].
  apply negb_true_iff in Hd. now rewrite Hd, (IH Hs).
Qed.

Lemma remove_tab_cr_lf (s : string) :
  forallb_str (fun c => negb (is_tab_cr_lf c)) s = true ->
  remove_char "010" (remove_char "013" (remove_char "009" s)) = s.
Proof.
  intros H.
  rewrite (remove_char_absent "009"), (remove_char_absent "013"), (remove_char_absent "010");
    try reflexivity;
    revert H; apply forallb_str_impl; intros c Hc;
    apply negb_true_iff in Hc; unfold is_tab_cr_lf in Hc;
    repeat (apply orb_false_iff in Hc as [Hc ?]);
    apply negb_true_iff; assumption.
Qed.

Lemma partition_first (c : ascii) (a b : string) :
  forallb_str (fun d => negb (Ascii.eqb d c)) a = true ->
  partition c (a ++ String c b) = (a, true, b).
Proof.
  induction a as [|d a IH]; simpl.
  - intros _. now rewrite Ascii.eqb_refl.
  - intros H. apply andb_true_iff in H as [Hd Ha].
    apply negb_true_iff in Hd. now rewrite Hd, (IH Ha).
Qed.

Lemma contains_absent (c : ascii) (s : string) :
  forallb_str (fun d => negb (Ascii.eqb d c)) s = true -> contains c s = false.
Proof. intros H. now apply char_in_false_forall. Qed.

End UrlFacts.

(* ================================================================== *)
(** * The save-event handler *)
(* ================================================================== *)

Section HandlerFacts.

Context {R : Runtime}.

Lemma on_file_saved_disabled (filepath : string) (st : State) :
  is_enabled (self st) = false -> _on_file_saved filepath st = (inr tt, st).
Proof.
  intros H. unfold _on_file_saved, bind, get_self. now rewrite H.
Qed.

Lemma on_file_saved_unwatched (filepath : string) (st : State) :
  in_list (basename filepath) (watched_files (self st)) = false ->
  _on_file_saved filepath st = (inr tt, st).
Proof.
  intros H. unfold _on_file_saved, bind, get_self.
  destruct (is_enabled (self st)); simpl; [now rewrite H | reflexivity].
Qed.

Lemma on_file_saved_watched (filepath : string) (st : State) :
  is_enabled (self st) = true ->
  in_list (basename filepath) (watched_files (self st)) = true ->
  _on_file_saved filepath st =
  try_except (backup filepath (basename filepath))
             (fun e => logging_error (MsgBackupFailed (basename filepath) e))
             (add_log INFO (MsgSaved (basename filepath)) st).
Proof.
  intros He Hw. unfold _on_file_saved, bind, get_self. rewrite He. simpl.
  now rewrite Hw.
Qed.

Lemma deliver_disabled (filepaths : list string) (st : State) :
  is_enabled (self st) = false -> deliver filepaths st = st.
Proof.
  intros H. induction filepaths as [|p rest IH]; simpl; [reflexivity|].
  now rewrite (on_file_saved_disabled p st H).
Qed.

Lemma firstn_pipeline_1 g p : firstn 1 (pipeline g p) = [argv_add p].
Proof. reflexivity. Qed.

Lemma firstn_pipeline_2 g p : firstn 2 (pipeline g p) = [argv_add p; argv_status].
Proof. reflexivity. Qed.

(** One backup starts a beginning of the pipeline and nothing else. *)
Lemma backup_evolves (filepath : string) (st : State) :
  exists n, evolves st (snd (backup filepath (basename filepath) st))
                    (firstn n (pipeline (self st) filepath)).
Proof.
  unfold backup, bind.
  pose proof (run_git_command_evolves ("git add " ++ shlex_quote filepath) false st) as H1.
  rewrite split_add in H1.
  destruct (_run_git_command ("git add " ++ shlex_quote filepath) false st) as [[e1|r1] st1];
    cbv beta iota in H1 |- *; cbn [snd] in H1 |- *.
  { exists 1%nat. now rewrite firstn_pipeline_1. }
  pose proof (run_git_command_evolves "git status --porcelain" false st1) as H2.
  rewrite split_status in H2.
  destruct (_run_git_command "git status --porcelain" false st1) as [[e2|status] st2];
    cbv beta iota in H2 |- *; cbn [snd] in H2 |- *.
  { exists 2%nat. rewrite firstn_pipeline_2.
    exact (evolves_trans H1 H2). }
  assert (H12 : evolves st st2 [argv_add filepath; argv_status])
    by exact (evolves_trans H1 H2).
  destruct (falsy status).
  { exists 2%nat. rewrite firstn_pipeline_2.
    pose proof (evolves_trans H12 (evolves_add_log st2 INFO MsgNoChange)) as H.
    exact H. }
  unfold get_self, lift.
  assert (Hself : self st2 = self st) by (destruct H12 as (S & _); exact S).
  rewrite Hself. unfold pipeline.
  destruct (str_format rt_format_ext (basename filepath) (commit_message (self st)))
    as [ef|msg].
  { exists 2%nat. exact H12. }
  pose proof (run_git_command_evolves ("git commit -m " ++ shlex_quote msg) false st2) as H3.
  rewrite split_commit in H3.
  destruct (_run_git_command ("git commit -m " ++ shlex_quote msg) false st2) as [[e3|r3] st3];
    cbv beta iota in H3 |- *; cbn [snd] in H3 |- *.
  { exists 3%nat. exact (evolves_trans H12 H3). }
  assert (H123 : evolves st st3 [argv_add filepath; argv_status; argv_commit msg])
    by exact (evolves_trans H12 H3).
  pose proof (run_git_command_evolves ("git push origin " ++ branch_name (self st))
                false st3) as H4.
  destruct (shlex_split ("git push origin " ++ branch_name (self st))) as [es|args].
  { rewrite H4. exists 3%nat. exact H123. }
  destruct (_run_git_command ("git push origin " ++ branch_name (self st)) false st3)
    as [[e4|r4] st4]; cbv beta iota in H4 |- *; cbn [snd] in H4 |- *.
  { exists 4%nat. exact (evolves_trans H123 H4). }
  exists 4%nat.
  pose proof (evolves_trans H123 H4) as H1234.
  pose proof (evolves_trans H1234
                (evolves_add_log st4 INFO (MsgBackupDone (basename filepath)))) as H.
  exact H.
Qed.

(** The handler always returns, and what it starts is a beginning of the
    pipeline. *)
Lemma on_file_saved_evolves (filepath : string) (st : State) :
  exists st' n,
    _on_file_saved filepath st = (inr tt, st')
    /\ evolves st st' (firstn n (pipeline (self st) filepath)).
Proof.
  destruct (is_enabled (self st)) eqn:He.
  2:{ exists st, 0%nat. split; [now apply on_file_saved_disabled | apply evolves_refl]. }
  destruct (in_list (basename filepath) (watched_files (self st))) eqn:Hw.
  2:{ exists st, 0%nat. split; [now apply on_file_saved_unwatched | apply evolves_refl]. }
  rewrite (on_file_saved_watched _ _ He Hw). unfold try_except.
  set (st0 := add_log INFO (MsgSaved (basename filepath)) st).
  destruct (backup_evolves filepath st0) as [n Hn].
  change (self st0) with (self st) in Hn.
  assert (H0 : evolves st st0 []) by apply evolves_add_log.
  destruct (backup filepath (basename filepath) st0) as [[e|[]] st1]; simpl in Hn.
  - exists (add_log ERROR (MsgBackupFailed (basename filepath) e) st1), n.
    split; [reflexivity|].
    pose proof (evolves_trans (evolves_trans H0 Hn)
                  (evolves_add_log st1 ERROR (MsgBackupFailed (basename filepath) e))) as H.
    simpl in H. now rewrite app_nil_r in H.
  - exists st1, n. split; [reflexivity|]. exact (evolves_trans H0 Hn).
Qed.

End HandlerFacts.

(* ================================================================== *)
(** * The constructor: validation, repository, remote *)
(* ================================================================== *)

Section InitFacts.

Context {R : Runtime}.

Ltac run_any Hsplit Hrun :=
  match goal with
  | |- context [_run_git_command ?c ?s ?st] =>
      rewrite (@run_git_command_outcome _ c s st _ _ _ Hsplit Hrun)
  end.

Ltac run_ok Hsplit Hrun :=
  match goal with
  | |- context [_run_git_command ?c ?s ?st] =>
      rewrite (@run_git_command_ok _ c s st _ _ _ _ Hsplit Hrun)
  end.

Lemma validate_config_ok (st : State) :
  falsy (remote_url (self st)) = false ->
  falsy (github_token (self st)) = false ->
  _validate_config st = (inr tt, st).
Proof.
  intros Hu Ht. unfold _validate_config, bind, get_self. now rewrite Hu, Ht.
Qed.

Lemma validate_config_inv (st st' : State) :
  _validate_config st = (inr tt, st') ->
  st' = st /\ falsy (remote_url (self st)) = false
  /\ falsy (github_token (self st)) = false.
Proof.
  unfold _validate_config, bind, get_self, raise, ret.
  destruct (falsy (remote_url (self st))), (falsy (github_token (self st)));
    simpl; intros H; try discriminate.
  injection H as <-. repeat split.
Qed.

Lemma check_git_installed_ok (st : State) (w : World) (out err : string) :
  run_process (world (host st)) (config_path (self st)) ["git"; "--version"]
    = (w, Completed 0 out err) ->
  _check_git_installed st = (inr tt, record_call ["git"; "--version"] w st).
Proof.
  intros H. unfold _check_git_installed, try_except, bind.
  run_ok split_version H. reflexivity.
Qed.

Lemma initialize_repo_existing (st : State) :
  isdir (world (host st)) (path_join (config_path (self st)) ".git") = true ->
  _initialize_repo st = (inr tt, add_log INFO MsgRepoExists st).
Proof.
  intros H. unfold _initialize_repo, bind, get_self, get_world. now rewrite H.
Qed.

(** The loop adds nothing when no watched file exists. *)
Lemma add_watched_files_none (files : list string) (st : State) :
  (forall f, In f files ->
             path_exists (world (host st)) (path_join (config_path (self st)) f) = false) ->
  add_watched_files files st = (inr tt, st).
Proof.
  induction files as [|f rest IH]; intros H; [reflexivity|].
  simpl. unfold bind, get_self, get_world.
  rewrite (H f (or_introl eq_refl)). simpl.
  apply IH. intros g Hg. apply H. now right.
Qed.

(** *** Computations that leave the instance alone *)

Lemma preserves_ret {A : Type} (a : A) : preserves_self (ret a).
Proof. intros st. reflexivity. Qed.

Lemma preserves_raise {A : Type} (e : exn) : preserves_self (@raise _ A e).
Proof. intros st. reflexivity. Qed.

Lemma preserves_lift {A : Type} (r : result A) : preserves_self (lift r).
Proof. intros st. reflexivity. Qed.

Lemma preserves_bind {A B : Type} (m : M A) (k : A -> M B) :
  preserves_self m -> (forall a, preserves_self (k a)) -> preserves_self (bind m k).
Proof.
  intros Hm Hk st. unfold bind. specialize (Hm st).
  destruct (m st) as [[e|a] st1]; simpl in *; [assumption|].
  rewrite (Hk a st1). assumption.
Qed.

Lemma preserves_try_except {A : Type} (m : M A) (handler : exn -> M A) :
  preserves_self m -> (forall e, preserves_self (handler e)) ->
  preserves_self (try_except m handler).
Proof.
  intros Hm Hk st. unfold try_except. specialize (Hm st).
  destruct (m st) as [[e|a] st1]; simpl in *; [|assumption].
  rewrite (Hk e st1). assumption.
Qed.

Lemma preserves_logging lv msg : preserves_self (logging lv msg).
Proof. intros st. reflexivity. Qed.

Lemma preserves_get_self : preserves_self get_self.
Proof. intros st. reflexivity. Qed.

Lemma preserves_get_world : preserves_self get_world.
Proof. intros st. reflexivity. Qed.

Lemma preserves_register event : preserves_self (register_event_handler event).
Proof. intros st. reflexivity. Qed.

Lemma preserves_run_git_command command suppress :
  preserves_self (_run_git_command command suppress).
Proof.
  intros st. pose proof (run_git_command_evolves command suppress st) as H.
  destruct (shlex_split command).
  - now rewrite H.
  - now destruct H as (-> & _).
Qed.

Create HintDb preserve.
#[local] Hint Resolve preserves_ret preserves_raise preserves_lift
  preserves_logging preserves_get_self preserves_get_world preserves_register
  preserves_run_git_command : preserve.

Ltac preserve :=
  repeat first
    [ solve [auto with preserve]
    | apply preserves_bind; [|intros ?]
    | apply preserves_try_except; [|intros ?]
    | match goal with |- preserves_self (if ?b then _ else _) => destruct b end ].

Lemma preserves_validate_config : preserves_self _validate_config.
Proof. unfold _validate_config. preserve. Qed.

Lemma preserves_check_git_installed : preserves_self _check_git_installed.
Proof. unfold _check_git_installed. preserve. Qed.

Lemma preserves_add_watched_files files : preserves_self (add_watched_files files).
Proof.
  induction files as [|f rest IH]; simpl; [auto with preserve|].
  preserve.
Qed.

#[local] Hint Resolve preserves_add_watched_files : preserve.

Lemma preserves_initialize_repo : preserves_self _initialize_repo.
Proof.
  unfold _initialize_repo, logging_info. preserve.
Qed.

(** A constructor that leaves the instance enabled has run the whole
    bootstrap: the configuration was valid, and the remote setup succeeded
    in some state holding the same instance. *)
Lemma bootstrap_success (st st' : State) :
  bootstrap st = (inr tt, st') ->
  falsy (remote_url (self st)) = false
  /\ falsy (github_token (self st)) = false
  /\ exists sb sc,
       self sb = self st
       /\ _setup_remote sb = (inr tt, sc)
       /\ st' = snd (register_event_handler file_saved_event sc).
Proof.
  unfold bootstrap, bind.
  destruct (_validate_config st) as [[e|[]] s1] eqn:E1; [discriminate|].
  apply validate_config_inv in E1 as (-> & Hu & Ht).
  pose proof (preserves_check_git_installed st) as P2.
  destruct (_check_git_installed st) as [[e|[]] s2]; [discriminate|].
  pose proof (preserves_initialize_repo s2) as P3.
  destruct (_initialize_repo s2) as [[e|[]] s3]; [discriminate|].
  destruct (_setup_remote s3) as [[e|[]] s4] eqn:E4; [discriminate|].
  intros H. injection H as <-.
  split; [assumption|]. split; [assumption|].
  exists s3, s4. simpl in P2, P3.
  split; [congruence|]. split; [exact E4 | reflexivity].
Qed.

Lemma preserves_setup_remote : preserves_self _setup_remote.
Proof. unfold _setup_remote, logging_info. preserve. Qed.

Lemma preserves_bootstrap : preserves_self bootstrap.
Proof.
  pose proof preserves_validate_config. pose proof preserves_check_git_installed.
  pose proof preserves_initialize_repo. pose proof preserves_setup_remote.
  unfold bootstrap. preserve.
Qed.

(** The constructor of an enabled configuration is the bootstrap and its
    handler. *)
Lemma init_unfold (config : Config) (h : Host) :
  get (cfg_enabled config) false = true ->
  __init__ config h
  = snd (try_except bootstrap
           (fun e => bind (logging_error (MsgFatalInit e)) (fun _ => set_enabled false))
           (before_bootstrap config h)).
Proof.
  intros He.
  assert (Hen : is_enabled (attributes config) = true) by exact He.
  unfold __init__. rewrite Hen. reflexivity.
Qed.

(** The constructor, when the instance comes out enabled: the bootstrap
    returned. *)
Lemma init_enabled (config : Config) (h : Host) :
  is_enabled (self (__init__ config h)) = true ->
  get (cfg_enabled config) false = true
  /\ bootstrap (before_bootstrap config h) = (inr tt, __init__ config h)
  /\ self (__init__ config h) = attributes config.
Proof.
  destruct (get (cfg_enabled config) false) eqn:Een.
  - rewrite (init_unfold _ _ Een). unfold try_except.
    pose proof (preserves_bootstrap (before_bootstrap config h)) as P.
    destruct (bootstrap (before_bootstrap config h)) as [[e|[]] s1].
    + unfold bind. rewrite logging_error_run. cbn. discriminate.
    + intros _. repeat split. exact P.
  - assert (Hen : is_enabled (attributes config) = false) by exact Een.
    unfold __init__. rewrite Hen. cbn [negb snd logging_info logging self].
    rewrite Hen. discriminate.
Qed.

(** The constructor, when the bootstrap raises: the error is logged and
    the instance disabled. *)
Lemma init_failed (config : Config) (h : Host) (e : exn) (st1 : State) :
  get (cfg_enabled config) false = true ->
  bootstrap (before_bootstrap config h) = (inl e, st1) ->
  __init__ config h
  = mkState (set_is_enabled false (self st1))
            (host (add_log ERROR (MsgFatalInit e) st1)).
Proof.
  intros He Hb. rewrite (init_unfold _ _ He). unfold try_except. rewrite Hb.
  reflexivity.
Qed.

End InitFacts.

(* ================================================================== *)
(** * Properties of the save-event handler and of a disabled instance *)
(* ================================================================== *)

Section HandlerClaims.

Context {R : Runtime}.

(** Run the next command of the goal, given its argument vector and the
    successful outcome of its child. *)
Ltac run_any Hsplit Hrun :=
  match goal with
  | |- context [_run_git_command ?c ?s ?st] =>
      rewrite (@run_git_command_outcome _ c s st _ _ _ Hsplit Hrun)
  end.

Ltac run_ok Hsplit Hrun :=
  match goal with
  | |- context [_run_git_command ?c ?s ?st] =>
      rewrite (@run_git_command_ok _ c s st _ _ _ _ Hsplit Hrun)
  end.

(** C9.  With [enabled] false (or absent), the constructor starts no child
    process and registers no handler: it only logs that the component is
    disabled.  From then on the handler is a no-op: whatever save events
    arrive, in whatever state of the host, nothing changes, so no child
    process is ever started. *)
Theorem disabled_agent_is_inert (config : Config) (h : Host) :
  get (cfg_enabled config) false = false ->
  let st := __init__ config h in
  is_enabled (self st) = false
  /\ host st = mkHost (world h) (calls h) (log h ++ [(INFO, MsgDisabled)])%list (handlers h)
  /\ forall (filepaths : list string) (h' : Host),
       deliver filepaths (mkState (self st) h') = mkState (self st) h'.
Proof.
  intros He.
  assert (Hen : is_enabled (attributes config) = false) by exact He.
  unfold __init__. rewrite Hen. cbn [negb].
  split; [exact Hen | split; [reflexivity|]].
  intros filepaths h'. apply deliver_disabled. exact Hen.
Qed.

(** C7.  With [enabled] true and the remote URL or the token empty or
    absent, the constructor fails on the configuration check
    ([MissingConfig]) before anything else: no child process is started,
    the world is untouched, no handler is registered, the error is logged
    and the instance is disabled, so that every later save event is a
    no-op. *)
Theorem missing_credentials_disable (config : Config) (h : Host) :
  cfg_enabled config = Some true ->
  falsy (cfg_remote_url config) = true \/ falsy (cfg_github_token config) = true ->
  let st := __init__ config h in
  is_enabled (self st) = false
  /\ world (host st) = world h
  /\ calls (host st) = calls h
  /\ handlers (host st) = handlers h
  /\ log (host st)
     = (log h ++ [(INFO, MsgInitialized (join ", " (watched_files (self st))));
                  (ERROR, MsgFatalInit MissingConfig)])%list
  /\ forall (filepaths : list string) (h' : Host),
       deliver filepaths (mkState (self st) h') = mkState (self st) h'.
Proof.
  intros He Hmissing.
  assert (Hf : falsy (cfg_remote_url config) || falsy (cfg_github_token config) = true).
  { destruct Hmissing as [-> | ->]; [reflexivity | apply orb_true_r]. }
  assert (Hen : get (cfg_enabled config) false = true) by now rewrite He.
  assert (Hb : bootstrap (before_bootstrap config h)
               = (inl MissingConfig, before_bootstrap config h)).
  { unfold bootstrap, bind, _validate_config, bind, get_self.
    cbn [self before_bootstrap add_log attributes remote_url github_token].
    now rewrite Hf. }
  rewrite (init_failed _ _ Hen Hb).
  split; [reflexivity|]. split; [reflexivity|]. split; [reflexivity|].
  split; [reflexivity|]. split; [cbn; now rewrite <- app_assoc|].
  intros filepaths h'. now apply deliver_disabled.
Qed.

(** A save event on a watched file, when staging succeeds and
    [git status --porcelain] prints nothing: the handler starts exactly
    these two child processes, logs that nothing changed and returns.  No
    commit, no push. *)
Theorem empty_status_stops_backup
    (st : State) (filepath : string)
    (w1 w2 : World) (out1 err1 out2 err2 : string) :
  let g := self st in
  let filename := basename filepath in
  is_enabled g = true ->
  in_list filename (watched_files g) = true ->
  run_process (world (host st)) (config_path g) (argv_add filepath)
    = (w1, Completed 0 out1 err1) ->
  run_process w1 (config_path g) argv_status = (w2, Completed 0 out2 err2) ->
  strip out2 = "" ->
  _on_file_saved filepath st
  = (inr tt,
     mkState g (mkHost w2
                  (calls (host st) ++ [argv_add filepath; argv_status])%list
                  (log (host st) ++ [(INFO, MsgSaved filename); (INFO, MsgNoChange)])%list
                  (handlers (host st)))).
Proof.
  intros g filename He Hw Hadd Hstatus Hempty.
  rewrite (on_file_saved_watched _ _ He Hw).
  unfold try_except, backup, bind.
  run_ok (split_add filepath) Hadd.
  run_ok split_status Hstatus.
  rewrite Hempty. cbn [falsy is_empty]. rewrite ?logging_info_run, ?logging_error_run.
  unfold add_log, record_call. cbn. now rewrite <- !app_assoc.
Qed.

(** A save event on a watched file with pending changes, when every
    step succeeds: the handler starts staging, status, one commit and then
    one push, in this order and nothing else.  The commit message is the
    template with each [{filename}] replaced by the base name of the saved
    file and each doubled brace by a single one; the push names the remote
    [origin] and the configured branch.  Stated for a branch name that is
    a plain word.  The push is attempted whatever its outcome. *)
Theorem backup_commits_and_pushes
    (st : State) (filepath : string) (segs : list segment)
    (w1 w2 w3 w4 : World) (out1 err1 out2 err2 out3 err3 : string)
    (pushed : proc_outcome) :
  let g := self st in
  let filename := basename filepath in
  let msg := substituted filename segs in
  is_enabled g = true ->
  in_list filename (watched_files g) = true ->
  commit_message g = template_of segs ->
  forallb segment_ok segs = true ->
  plain_word (branch_name g) = true ->
  run_process (world (host st)) (config_path g) (argv_add filepath)
    = (w1, Completed 0 out1 err1) ->
  run_process w1 (config_path g) argv_status = (w2, Completed 0 out2 err2) ->
  strip out2 <> "" ->
  run_process w2 (config_path g) (argv_commit msg) = (w3, Completed 0 out3 err3) ->
  run_process w3 (config_path g) (argv_push (branch_name g)) = (w4, pushed) ->
  exists st',
    _on_file_saved filepath st = (inr tt, st')
    /\ self st' = g
    /\ world (host st') = w4
    /\ calls (host st')
       = (calls (host st)
          ++ [argv_add filepath; argv_status; argv_commit msg;
              argv_push (branch_name g)])%list.
Proof.
  intros g filename msg He Hw Htemplate Hsegs Hbranch Hadd Hstatus Hpending Hcommit Hpush.
  rewrite (on_file_saved_watched _ _ He Hw).
  unfold try_except, backup, bind.
  run_ok (split_add filepath) Hadd.
  run_ok split_status Hstatus.
  assert (Hfalsy : falsy (Some (strip out2)) = false).
  { cbn [falsy]. destruct (strip out2); [congruence | reflexivity]. }
  rewrite Hfalsy. unfold get_self, lift.
  cbn [self record_call add_log].
  fold g. rewrite Htemplate, (str_format_template_of _ _ _ Hsegs).
  fold filename msg.
  run_ok (split_commit msg) Hcommit.
  run_any (split_push _ Hbranch) Hpush.
  unfold run_result.
  destruct pushed as [rc out4 err4|e].
  - destruct ((rc =? 0)%Z || false).
    + rewrite ?logging_info_run, ?logging_error_run. eexists. split; [reflexivity|].
      cbn. rewrite <- !app_assoc. repeat split.
    + rewrite ?logging_info_run, ?logging_error_run. eexists. split; [reflexivity|].
      cbn. rewrite <- !app_assoc. repeat split.
  - destruct e; rewrite ?logging_info_run, ?logging_error_run; eexists; (split; [reflexivity|]);
      cbn; rewrite <- !app_assoc; repeat split.
Qed.





End HandlerClaims.


(* ================================================================== *)
(** * Properties of the bootstrap *)
(* ================================================================== *)

Section BootstrapClaims.

Context {R : Runtime}.

Ltac run_ok Hsplit Hrun :=
  match goal with
  | |- context [_run_git_command ?c ?s ?st] =>
      rewrite (@run_git_command_ok _ c s st _ _ _ _ Hsplit Hrun)
  end.

(** The remote setup, once the URL is known and the removal of the old
    remote has run to completion: whatever the exit status of the removal,
    the remote is added next, with this URL. *)
Lemma setup_remote_calls (st : State) (url : string)
      (w : World) (rc : Z) (out err : string) :
  url_with_token (self st) = inr url ->
  run_process (world (host st)) (config_path (self st)) argv_remote_remove
    = (w, Completed rc out err) ->
  evolves st (snd (_setup_remote st)) [argv_remote_remove; argv_remote_add url].
Proof.
  intros Hurl Hrm. unfold _setup_remote, bind.
  rewrite logging_info_run. unfold get_self, lift.
  cbn [self add_log]. rewrite Hurl.
  match goal with
  | |- context [_run_git_command ?c true ?s] =>
      rewrite (@run_git_command_suppressed _ c s _ _ _ _ _ split_remote_remove Hrm)
  end.
  set (s0 := add_log INFO MsgRemoteSetup st).
  set (s1 := record_call argv_remote_remove w s0).
  assert (H01 : evolves st s1 [argv_remote_remove]).
  { change [argv_remote_remove] with ([] ++ [argv_remote_remove])%list.
    exact (evolves_trans (evolves_add_log st INFO MsgRemoteSetup)
                         (evolves_record_call s0 argv_remote_remove w)). }
  pose proof (run_git_command_evolves ("git remote add origin " ++ shlex_quote url)
                false s1) as H2.
  rewrite split_remote_add in H2.
  destruct (_run_git_command ("git remote add origin " ++ shlex_quote url) false s1)
    as [[e|r] s2]; cbv beta iota in H2 |- *; cbn [snd] in H2 |- *.
  - exact (evolves_trans H01 H2).
  - pose proof (evolves_trans (evolves_trans H01 H2)
                  (evolves_add_log s2 INFO MsgRemoteDone)) as H.
    exact H.
Qed.

(** C3 fails on the code.  On a directory without repository the
    bootstrap always goes on to [git commit], also when no watched file
    exists and nothing was staged; when that commit exits with an error
    (as git does when there is nothing to commit), the constructor logs the
    failure and disables the instance, and no handler is registered. *)
Theorem initial_commit_is_forced
    (config : Config) (h : Host) (w1 w2 w3 w4 w5 w6 : World)
    (o1 e1 o2 e2 o3 e3 o4 e4 o5 e5 out err : string) (rc : Z) :
  let g := attributes config in
  let dir := config_path g in
  is_enabled g = true ->
  falsy (remote_url g) = false ->
  falsy (github_token g) = false ->
  plain_word (branch_name g) = true ->
  run_process (world h) dir ["git"; "--version"] = (w1, Completed 0 o1 e1) ->
  isdir w1 (path_join dir ".git") = false ->
  run_process w1 dir ["git"; "init"] = (w2, Completed 0 o2 e2) ->
  run_process w2 dir ["git"; "checkout"; "-b"; branch_name g] = (w3, Completed 0 o3 e3) ->
  run_process w3 dir ["git"; "config"; "user.name"; "Klipper Backup Plugin"]
    = (w4, Completed 0 o4 e4) ->
  run_process w4 dir ["git"; "config"; "user.email"; "backup@klipper.local"]
    = (w5, Completed 0 o5 e5) ->
  (forall f, In f (watched_files g) -> path_exists w5 (path_join dir f) = false) ->
  run_process w5 dir (argv_commit initial_commit_message) = (w6, Completed rc out err) ->
  rc <> 0%Z ->
  let st := __init__ config h in
  is_enabled (self st) = false
  /\ handlers (host st) = handlers h
  /\ world (host st) = w6
  /\ calls (host st)
     = (calls h ++ [["git"; "--version"]; ["git"; "init"];
                    ["git"; "checkout"; "-b"; branch_name g];
                    ["git"; "config"; "user.name"; "Klipper Backup Plugin"];
                    ["git"; "config"; "user.email"; "backup@klipper.local"];
                    argv_commit initial_commit_message])%list
  /\ In (ERROR, MsgFatalInit
                  (CalledProcessError (argv_commit initial_commit_message) rc out err))
        (log (host st)).
Proof.
  intros g dir Hen Hu Ht Hbranch Hversion Hnodir Hinit Hcheckout Hname Hemail
         Hnofile Hcommit Hrc.
  set (st0 := before_bootstrap config h).
  assert (Hb : exists st1,
             bootstrap st0
             = (inl (CalledProcessError (argv_commit initial_commit_message) rc out err), st1)
             /\ self st1 = g /\ handlers (host st1) = handlers h
             /\ world (host st1) = w6
             /\ calls (host st1)
                = (calls h ++ [["git"; "--version"]; ["git"; "init"];
                               ["git"; "checkout"; "-b"; branch_name g];
                               ["git"; "config"; "user.name"; "Klipper Backup Plugin"];
                               ["git"; "config"; "user.email"; "backup@klipper.local"];
                               argv_commit initial_commit_message])%list).
  { unfold bootstrap. unfold bind at 1.
    rewrite (validate_config_ok st0 Hu Ht).
    unfold bind at 1.
    rewrite (@check_git_installed_ok _ st0 w1 o1 e1 Hversion).
    unfold bind at 1. unfold _initialize_repo.
    unfold bind at 1. unfold get_self at 1. unfold bind at 1. unfold get_world at 1.
    cbn [self host world record_call st0 before_bootstrap add_log].
    fold g. fold dir. rewrite Hnodir.
    unfold bind at 1. rewrite logging_info_run.
    unfold bind at 1. run_ok split_init Hinit.
    unfold bind at 1. run_ok (split_checkout _ Hbranch) Hcheckout.
    unfold bind at 1. run_ok split_config_name Hname.
    unfold bind at 1. run_ok split_config_email Hemail.
    unfold bind at 1. rewrite add_watched_files_none by exact Hnofile.
    unfold bind at 1.
    match goal with
    | |- context [_run_git_command ?c false ?s] =>
        rewrite (@run_git_command_nonzero _ c s _ _ _ _ _ split_initial_commit Hcommit Hrc)
    end.
    eexists. split; [reflexivity|]. cbn. rewrite <- !app_assoc. repeat split. }
  destruct Hb as (st1 & Hb & Hs & Hh & Hw & Hc).
  intros st. subst st. rewrite (init_failed _ _ Hen Hb).
  cbn [self host set_is_enabled is_enabled add_log handlers world calls log].
  repeat split; try assumption.
  apply in_or_app. right. left. reflexivity.
Qed.

End BootstrapClaims.

(* ================================================================== *)
(** * Idempotence of the bootstrap, on the simulator *)
(* ================================================================== *)

Section Idempotence.

Import FakeGit.

(** The remote setup when both of its commands run to completion and the
    second succeeds. *)
Lemma setup_remote_ok {R : Runtime} (st : State) (url : string)
      (w1 w2 : World) (rc : Z) (out1 err1 out2 err2 : string) :
  url_with_token (self st) = inr url ->
  run_process (world (host st)) (config_path (self st)) argv_remote_remove
    = (w1, Completed rc out1 err1) ->
  run_process w1 (config_path (self st)) (argv_remote_add url)
    = (w2, Completed 0 out2 err2) ->
  _setup_remote st
  = (inr tt,
     add_log INFO MsgRemoteDone
       (record_call (argv_remote_add url) w2
          (record_call argv_remote_remove w1 (add_log INFO MsgRemoteSetup st)))).
Proof.
  intros Hurl Hrm Hadd. unfold _setup_remote, bind.
  rewrite logging_info_run. unfold get_self, lift.
  cbn [self add_log]. rewrite Hurl.
  match goal with
  | |- context [_run_git_command ?c true ?s] =>
      rewrite (@run_git_command_suppressed _ c s _ _ _ _ _ split_remote_remove Hrm)
  end.
  match goal with
  | |- context [_run_git_command ?c false ?s] =>
      rewrite (@run_git_command_ok _ c false s _ _ _ _ (split_remote_add url) Hadd)
  end.
  now rewrite logging_info_run.
Qed.

Lemma fake_version (w : FakeWorld) (cwd : string) :
  fw_git_installed w = true ->
  fake_run w cwd ["git"; "--version"]
  = (w, Completed 0 ("git version 2.39.2" ++ newline) "").
Proof. intros H. unfold fake_run. now rewrite H. Qed.

(** Removing the remote: the child always completes, and afterwards a
    repository has no remote of that name. *)
Lemma fake_remote_remove (w : FakeWorld) (cwd : string) :
  fw_git_installed w = true ->
  exists rc err,
    fake_run w cwd argv_remote_remove
    = (if in_repo w cwd && has_remote "origin" w then without_remote "origin" w else w,
       Completed rc "" err).
Proof.
  intros H. unfold fake_run, argv_remote_remove. rewrite H. unfold git.
  destruct (in_repo w cwd); simpl andb; cbv iota.
  - destruct (has_remote "origin" w); eexists _, _; reflexivity.
  - eexists _, _; reflexivity.
Qed.

(** Adding the remote succeeds only inside a repository that has no remote
    of that name, and appends it. *)
Lemma fake_remote_add_inv (w w2 : FakeWorld) (cwd url out err : string) :
  fake_run w cwd (argv_remote_add url) = (w2, Completed 0 out err) ->
  fw_git_installed w = true /\ in_repo w cwd = true
  /\ has_remote "origin" w = false /\ w2 = with_remote "origin" url w.
Proof.
  unfold fake_run, argv_remote_add.
  destruct (fw_git_installed w); [|discriminate].
  unfold git. destruct (in_repo w cwd); [|discriminate].
  destruct (has_remote "origin" w); [discriminate|].
  unfold ok. intros H. injection H as <- _ _. repeat split.
Qed.

Lemma fake_remote_add (w : FakeWorld) (cwd url : string) :
  fw_git_installed w = true -> in_repo w cwd = true ->
  has_remote "origin" w = false ->
  fake_run w cwd (argv_remote_add url) = (with_remote "origin" url w, Completed 0 "" "").
Proof.
  intros Hi Hr Hn. unfold fake_run, argv_remote_add. rewrite Hi.
  unfold git. now rewrite Hr, Hn.
Qed.

Lemma filter_remote_absent (name url : string) (rs : list (string * string)) :
  existsb (fun r => String.eqb name (fst r)) rs = false ->
  filter (fun r => negb (String.eqb name (fst r))) (rs ++ [(name, url)]) = rs.
Proof.
  induction rs as [|r rs IH]; simpl.
  - intros _. now rewrite String.eqb_refl.
  - intros H. apply orb_false_iff in H as [Hr Hrs].
    rewrite Hr. simpl. now rewrite (IH Hrs).
Qed.

Lemma has_remote_after_add (name url : string) (w : FakeWorld) :
  has_remote name (with_remote name url w) = true.
Proof.
  unfold has_remote, with_remote, with_repo. cbn [fw_remotes].
  rewrite existsb_app. simpl. rewrite String.eqb_refl. apply orb_true_r.
Qed.

(** Removing and adding again the remote that was added last gives the
    world back. *)
Lemma remove_then_add (url : string) (w : FakeWorld) :
  has_remote "origin" w = false ->
  with_remote "origin" url (without_remote "origin" (with_remote "origin" url w))
  = with_remote "origin" url w.
Proof.
  intros H. unfold with_remote, without_remote, with_repo.
  cbn [fw_root fw_git_installed fw_online fw_files fw_repo fw_branch fw_config
       fw_tracked fw_modified fw_staged fw_commits fw_remotes fw_pushed].
  now rewrite (filter_remote_absent "origin" url (fw_remotes w) H).
Qed.

Lemma has_remote_without (w : FakeWorld) :
  has_remote "origin" w = false ->
  forall url, has_remote "origin" (without_remote "origin" (with_remote "origin" url w)) = false.
Proof.
  intros H url. unfold has_remote, with_remote, without_remote, with_repo.
  cbn [fw_remotes]. now rewrite (filter_remote_absent "origin" url (fw_remotes w) H).
Qed.

(** What a successful remote setup leaves on the simulator. *)
Lemma fake_setup_remote_inv (sb sc : @State runtime) :
  _setup_remote sb = (inr tt, sc) ->
  exists url w,
    url_with_token (self sb) = inr url
    /\ world (host sc) = with_remote "origin" url w
    /\ fw_git_installed w = true
    /\ in_repo w (config_path (self sb)) = true
    /\ has_remote "origin" w = false.
Proof.
  unfold _setup_remote, bind. rewrite logging_info_run.
  unfold get_self, lift. cbn [self add_log].
  destruct (url_with_token (self sb)) as [e|url]; [discriminate|].
  rewrite run_git_command_spec, split_remote_remove.
  cbn [world host self add_log].
  change (@run_process runtime) with fake_run.
  destruct (fw_git_installed (world (host sb))) eqn:Hi.
  2:{ unfold fake_run, argv_remote_remove. rewrite Hi. unfold run_result. discriminate. }
  destruct (fake_remote_remove (world (host sb)) (config_path (self sb)) Hi)
    as (rc & err & ->).
  unfold run_result. rewrite orb_true_r.
  rewrite run_git_command_spec, split_remote_add.
  cbn [world host self record_call add_log].
  change (@run_process runtime) with fake_run.
  match goal with
  | |- context [fake_run ?w1 ?cwd (argv_remote_add url)] =>
      destruct (fake_run w1 cwd (argv_remote_add url)) as [w2 outcome] eqn:Eadd;
      set (wr := w1) in *
  end.
  unfold run_result.
  destruct outcome as [rc2 out2 err2|e].
  - destruct (rc2 =? 0)%Z eqn:Erc; cbn [orb].
    + apply Z.eqb_eq in Erc. subst rc2.
      rewrite logging_info_run. intros H. injection H as <-.
      apply fake_remote_add_inv in Eadd as (Hi2 & Hr2 & Hn2 & ->).
      exists url, wr. repeat split; assumption.
    + discriminate.
  - destruct e; discriminate.
Qed.

(** Three facts about a second start.  In every environment, a bootstrap
    that finds the metadata directory skips the creation of the repository
    altogether; and the remote setup goes on to add the remote whatever
    the exit status of the removal, so that a remote that is not there to
    be removed does not abort it.  On the simulator, once a first
    bootstrap has succeeded, a second one after a restart succeeds as
    well, starts only the version query, the removal and the addition of
    the remote (no [init], no commit), logs no error, and leaves the world,
    and so the repository with its commits and its remotes, exactly as the
    first one left it. *)
Theorem second_start_after_success :
  (forall (R : Runtime) (st : State),
     isdir (world (host st)) (path_join (config_path (self st)) ".git") = true ->
     _initialize_repo st = (inr tt, add_log INFO MsgRepoExists st))
  /\ (forall (R : Runtime) (st : State) (url : string)
             (w : World) (rc : Z) (out err : string),
        url_with_token (self st) = inr url ->
        run_process (world (host st)) (config_path (self st)) argv_remote_remove
          = (w, Completed rc out err) ->
        evolves st (snd (_setup_remote st)) [argv_remote_remove; argv_remote_add url])
  /\ (forall (config : Config) (h : @Host runtime),
        let first := __init__ config h in
        is_enabled (self first) = true ->
        let second := __init__ config (restart first) in
        is_enabled (self second) = true
        /\ world (host second) = world (host first)
        /\ repository (world (host second)) = repository (world (host first))
        /\ (exists url,
              url_with_token (self first) = inr url
              /\ calls (host second)
                 = [["git"; "--version"]; argv_remote_remove; argv_remote_add url])
        /\ log (host second)
           = [(INFO, MsgInitialized (join ", " (watched_files (self first))));
              (INFO, MsgRepoExists); (INFO, MsgRemoteSetup); (INFO, MsgRemoteDone)]
        /\ handlers (host second) = [file_saved_event]).
Proof.
  split; [intros R st; apply initialize_repo_existing|].
  split; [intros R st url w rc out err; apply setup_remote_calls|].
  intros config h first Hen second.
  destruct (init_enabled config h Hen) as (Hcfg & Hboot & Hself).
  fold first in Hboot, Hself.
  apply bootstrap_success in Hboot
    as (Hu & Ht & sb & sc & Hsb & Hsetup & Hfirst).
  destruct (fake_setup_remote_inv _ Hsetup)
    as (url & w & Hurl & Hworld & Hinst & Hrepo & Hnone).
  assert (Hw1 : world (host first) = with_remote "origin" url w).
  { rewrite Hfirst. exact Hworld. }
  assert (Hsb' : self sb = attributes config) by exact Hsb.
  rewrite Hsb' in Hurl, Hrepo.
  set (dir := config_path (attributes config)) in *.
  set (wc := with_remote "origin" url w) in *.
  set (s0 := before_bootstrap config (restart first)).
  assert (Hdir : dir = fw_root w).
  { unfold in_repo in Hrepo. apply andb_true_iff in Hrepo as [_ H].
    now apply String.eqb_eq in H. }
  assert (Hrepo_wc : in_repo wc dir = true).
  { unfold in_repo, wc, with_remote, with_repo. cbn [fw_repo fw_root].
    rewrite Hdir. now rewrite String.eqb_refl. }
  assert (Hv : run_process (world (host s0)) (config_path (self s0)) ["git"; "--version"]
               = (wc, Completed 0 ("git version 2.39.2" ++ newline) "")).
  { cbn [s0 before_bootstrap add_log restart world host self].
    rewrite Hw1. apply fake_version. exact Hinst. }
  set (s1 := record_call (R:=runtime) ["git"; "--version"] wc s0).
  assert (Hisdir : isdir (world (host s1)) (path_join (config_path (self s1)) ".git") = true).
  { cbn [s1 record_call world host self s0 before_bootstrap add_log].
    change (@isdir runtime) with fake_isdir. unfold fake_isdir.
    fold dir. change (fw_root wc) with (fw_root w). rewrite <- Hdir.
    rewrite String.eqb_refl. change (fw_repo wc) with true.
    apply orb_true_r. }
  set (s2 := add_log INFO MsgRepoExists s1).
  assert (Hrm : run_process (world (host s2)) (config_path (self s2)) argv_remote_remove
                = (without_remote "origin" wc, Completed 0 "" "")).
  { cbn [s2 s1 record_call world host self s0 before_bootstrap add_log].
    fold dir. change (@run_process runtime) with fake_run.
    unfold fake_run, argv_remote_remove.
    change (fw_git_installed wc) with (fw_git_installed w). rewrite Hinst.
    unfold git. rewrite Hrepo_wc.
    unfold wc at 1. rewrite has_remote_after_add. reflexivity. }
  assert (Hadd : run_process (without_remote "origin" wc) (config_path (self s2))
                   (argv_remote_add url)
                 = (wc, Completed 0 "" "")).
  { cbn [s2 s1 record_call world host self s0 before_bootstrap add_log].
    fold dir. change (@run_process runtime) with fake_run.
    rewrite fake_remote_add.
    - unfold wc. now rewrite (remove_then_add url w Hnone).
    - exact Hinst.
    - unfold in_repo, without_remote, with_repo. cbn [fw_repo fw_root].
      change (fw_root wc) with (fw_root w). rewrite Hdir. now rewrite String.eqb_refl.
    - unfold wc. now apply has_remote_without. }
  assert (Hurl2 : url_with_token (self s2) = inr url) by exact Hurl.
  assert (Hb2 : bootstrap s0
                = (inr tt,
                   snd (register_event_handler file_saved_event
                          (add_log INFO MsgRemoteDone
                             (record_call (R:=runtime) (argv_remote_add url) wc
                                (record_call (R:=runtime) argv_remote_remove (without_remote "origin" wc)
                                   (add_log INFO MsgRemoteSetup s2))))))).
  { unfold bootstrap. unfold bind at 1.
    rewrite (validate_config_ok s0 Hu Ht).
    unfold bind at 1. rewrite (@check_git_installed_ok _ s0 wc _ _ Hv).
    fold s1. unfold bind at 1. rewrite (initialize_repo_existing s1 Hisdir).
    fold s2. unfold bind at 1.
    rewrite (@setup_remote_ok _ s2 url _ _ _ _ _ _ _ Hurl2 Hrm Hadd).
    reflexivity. }
  assert (Hsecond : second
                    = snd (register_event_handler file_saved_event
                             (add_log INFO MsgRemoteDone
                                (record_call (R:=runtime) (argv_remote_add url) wc
                                   (record_call (R:=runtime) argv_remote_remove
                                      (without_remote "origin" wc)
                                      (add_log INFO MsgRemoteSetup s2)))))).
  { unfold second. rewrite (init_unfold _ _ Hcfg). unfold try_except.
    fold s0. now rewrite Hb2. }
  rewrite Hsecond, Hw1, Hself.
  split; [exact Hcfg|]. split; [reflexivity|]. split; [reflexivity|].
  split; [exists url; split; [exact Hurl | reflexivity]|].
  split; reflexivity.
Qed.

End Idempotence.

(* ================================================================== *)
(** * The statements at concrete inputs, on the simulator *)
(* ================================================================== *)

Section Witnesses.

Import FakeGit.

Example ready_is_constructed :
  ready = __init__ example_config (empty_host (fresh ["printer.cfg"])).
Proof. vm_compute. reflexivity. Qed.

Example bad_template_ready_is_constructed :
  bad_template_ready
  = __init__ bad_template_config (empty_host (fresh ["printer.cfg"])).
Proof. vm_compute. reflexivity. Qed.

(** Discharge the premises of [H] one after the other by evaluation. *)
Ltac discharge H :=
  cbv zeta in H;
  repeat match type of H with
         | ?A -> _ =>
             let h := fresh "premise" in
             assert (h : A) by (vm_compute; first [reflexivity | discriminate]);
             specialize (H h); clear h
         end.

Example query_url_is_cut :
  url_with_token (R:=runtime) query_url_instance
  = inr "https://abc123@github.com/user/repo.git".
Proof. vm_compute. reflexivity. Qed.

(** A push that fails leaves the commit in place and the instance
    enabled; the failure is in the log. *)
Example push_failure_keeps_commit :
  let st := in_world unplug (in_world (edit "printer.cfg") ready) in
  let st' := snd (_on_file_saved "/cfg/printer.cfg" st) in
  fst (_on_file_saved "/cfg/printer.cfg" st) = inr tt
  /\ is_enabled (self st') = true
  /\ fw_commits (world (host st'))
     = [initial_commit_message; "Auto-backup: printer.cfg modificado"]
  /\ fw_pushed (world (host st')) = 0%nat
  /\ last (log (host st')) (INFO, MsgNoChange)
     = (ERROR, MsgBackupFailed "printer.cfg"
                 (CalledProcessError (argv_push "main") 128 ""
                    "fatal: unable to access the remote")).
Proof. vm_compute. repeat split. Qed.

Lemma initial_commit_is_forced_witness :
  let st := __init__ example_config (empty_host (fresh [])) in
  let w := with_repo (fresh []) true "main"
             [("user.name", "Klipper Backup Plugin");
              ("user.email", "backup@klipper.local")] [] [] [] [] [] 0 in
  is_enabled (self st) = false
  /\ handlers (host st) = []
  /\ world (host st) = w
  /\ calls (host st)
     = [["git"; "--version"]; ["git"; "init"]; ["git"; "checkout"; "-b"; "main"];
        ["git"; "config"; "user.name"; "Klipper Backup Plugin"];
        ["git"; "config"; "user.email"; "backup@klipper.local"];
        argv_commit initial_commit_message]
  /\ In (ERROR, MsgFatalInit
                  (CalledProcessError (argv_commit initial_commit_message) 1
                     ("nothing to commit" ++ newline) ""))
        (log (host st)).
Proof.
  pose (w0 := fresh []).
  pose (w2 := fst (fake_run w0 "/cfg" ["git"; "init"])).
  pose (w3 := fst (fake_run w2 "/cfg" ["git"; "checkout"; "-b"; "main"])).
  pose (w4 := fst (fake_run w3 "/cfg" ["git"; "config"; "user.name"; "Klipper Backup Plugin"])).
  pose (w5 := fst (fake_run w4 "/cfg" ["git"; "config"; "user.email"; "backup@klipper.local"])).
  apply (@initial_commit_is_forced runtime example_config (empty_host w0)
           w0 w2 w3 w4 w5 w5
           ("git version 2.39.2" ++ newline) ""
           ("Initialized empty Git repository" ++ newline) ""
           "" "" "" "" "" "" ("nothing to commit" ++ newline) "" 1%Z);
    try (vm_compute; reflexivity).
  - intros f [<-|[]]. vm_compute. reflexivity.
  - discriminate.
Defined.

Lemma empty_status_stops_backup_witness :
  _on_file_saved "/cfg/printer.cfg" ready
  = (inr tt,
     mkState (self ready)
       (mkHost (world (host ready))
          (calls (host ready) ++ [argv_add "/cfg/printer.cfg"; argv_status])%list
          (log (host ready) ++ [(INFO, MsgSaved "printer.cfg"); (INFO, MsgNoChange)])%list
          (handlers (host ready)))).
Proof.
  apply (@empty_status_stops_backup runtime ready "/cfg/printer.cfg"
           (world (host ready)) (world (host ready)) "" "" "" "");
    vm_compute; reflexivity.
Defined.

Lemma backup_commits_and_pushes_witness :
  exists st',
    _on_file_saved "/cfg/printer.cfg" (in_world (edit "printer.cfg") ready) = (inr tt, st')
    /\ self st' = self ready
    /\ fw_pushed (world (host st')) = 2%nat
    /\ calls (host st')
       = (calls (host ready)
          ++ [argv_add "/cfg/printer.cfg"; argv_status;
              argv_commit "Auto-backup: printer.cfg modificado"; argv_push "main"])%list.
Proof.
  pose (st := in_world (edit "printer.cfg") ready).
  pose (w1 := fst (fake_run (world (host st)) "/cfg" (argv_add "/cfg/printer.cfg"))).
  pose (w3 := fst (fake_run w1 "/cfg" (argv_commit "Auto-backup: printer.cfg modificado"))).
  pose (w4 := fst (fake_run w3 "/cfg" (argv_push "main"))).
  pose proof (@backup_commits_and_pushes runtime st "/cfg/printer.cfg"
                default_segments w1 w1 w3 w4 "" "" (status_lines w1) "" "" ""
                (Completed 0 "" "")) as H.
  discharge H.
  destruct H as (st' & Hrun & Hself & Hworld & Hcalls).
  exists st'. split; [exact Hrun|]. split; [exact Hself|].
  split; [now rewrite Hworld | exact Hcalls].
Defined.

Lemma missing_credentials_disable_witness :
  let st := __init__ no_token_config (empty_host (fresh ["printer.cfg"])) in
  is_enabled (self st) = false
  /\ world (host st) = fresh ["printer.cfg"]
  /\ calls (host st) = []
  /\ handlers (host st) = []
  /\ deliver ["/cfg/printer.cfg"] st = st.
Proof.
  destruct (@missing_credentials_disable runtime no_token_config
              (empty_host (fresh ["printer.cfg"])) eq_refl (or_intror eq_refl))
    as (He & Hw & Hc & Hh & _ & Hd).
  cbv zeta. split; [exact He|]. split; [exact Hw|]. split; [exact Hc|].
  split; [exact Hh|].
  exact (Hd ["/cfg/printer.cfg"]
            (host (__init__ no_token_config (empty_host (fresh ["printer.cfg"]))))).
Defined.

Lemma disabled_agent_is_inert_witness :
  let st := __init__ disabled_config (empty_host (fresh ["printer.cfg"])) in
  is_enabled (self st) = false
  /\ calls (host st) = []
  /\ handlers (host st) = []
  /\ deliver ["/cfg/printer.cfg"; "/cfg/other.cfg"]
       (in_world (edit "printer.cfg") st)
     = in_world (edit "printer.cfg") st.
Proof.
  destruct (@disabled_agent_is_inert runtime disabled_config
              (empty_host (fresh ["printer.cfg"])) eq_refl)
    as (He & Hh & Hd).
  cbv zeta. split; [exact He|]. split; [now rewrite Hh|]. split; [now rewrite Hh|].
  exact (Hd ["/cfg/printer.cfg"; "/cfg/other.cfg"]
            (host (in_world (edit "printer.cfg")
                     (__init__ disabled_config (empty_host (fresh ["printer.cfg"])))))).
Defined.



Lemma second_start_after_success_witness :
  let second := __init__ example_config (restart ready) in
  is_enabled (self second) = true
  /\ world (host second) = world (host ready)
  /\ fw_commits (world (host second)) = [initial_commit_message]
  /\ fw_remotes (world (host second))
     = [("origin", "https://abc123@github.com/user/repo.git")].
Proof.
  destruct second_start_after_success as (_ & _ & H).
  specialize (H example_config (empty_host (fresh ["printer.cfg"]))).
  cbv zeta in H. rewrite <- ready_is_constructed in H.
  destruct (H eq_refl) as (He & Hw & _).
  cbv zeta. split; [exact He|]. split; [exact Hw|].
  rewrite Hw. split; reflexivity.
Defined.

(** A first run that stops at the forced commit leaves the metadata
    directory behind; the next start then finds a repository, skips the
    commit and comes out enabled. *)
Example restart_after_failed_first_run :
  let first := __init__ example_config (empty_host (fresh [])) in
  let second := __init__ example_config (restart first) in
  is_enabled (self first) = false
  /\ is_enabled (self second) = true
  /\ fw_commits (world (host second)) = [].
Proof. vm_compute. repeat split. Qed.

(** A save that changes nothing, next to a file that is not under version
    control: the status is not empty, the commit is attempted and fails. *)
Example untracked_file_defeats_the_status_check :
  let st := __init__ example_config (empty_host (fresh ["printer.cfg"; "notes.txt"])) in
  let st' := snd (_on_file_saved "/cfg/printer.cfg" st) in
  calls (host st')
  = (calls (host st)
     ++ [argv_add "/cfg/printer.cfg"; argv_status;
         argv_commit "Auto-backup: printer.cfg modificado"])%list
  /\ fw_commits (world (host st')) = [initial_commit_message].
Proof. vm_compute. repeat split. Qed.

End Witnesses.

(* ================================================================== *)
(** * Further properties: command lines, names and templates *)
(* ================================================================== *)

Section CommandLines.

(** A word of safe characters ends at the next blank. *)
Lemma lex_word_then_space (s t rest : string) (esc : lexstate) (q : bool) :
  forallb_str is_safe_char s = true ->
  is_empty t = false ->
  lex LWord esc q t (s ++ String " " rest)
  = emit q (t ++ s) (lex LSpace LSpace false "" rest).
Proof.
  revert t. induction s as [|c s IH]; intros t H Ht.
  - simpl. rewrite Ht. simpl. now rewrite append_nil_r.
  - simpl in H. apply andb_true_iff in H as [Hc Hs].
    change (String c s ++ String " " rest) with (String c (s ++ String " " rest)).
    simpl lex. destruct (safe_char_ordinary c Hc) as (-> & -> & ->).
    rewrite IH; [now rewrite append_char_append | assumption |].
    unfold append_char. rewrite is_empty_append, Ht. reflexivity.
Qed.

Lemma lex_two_plain_words (a b : string) (esc : lexstate) :
  plain_word a = true -> plain_word b = true ->
  lex LSpace esc false "" (a ++ " " ++ b) = inr [a; b].
Proof.
  intros Ha Hb. unfold plain_word in Ha.
  apply andb_true_iff in Ha as [Hne Hs].
  destruct a as [|c a]; [discriminate|].
  simpl in Hs. apply andb_true_iff in Hs as [Hc Hs].
  change (String c a ++ " " ++ b) with (String c (a ++ String " " b)).
  simpl lex. destruct (safe_char_ordinary c Hc) as (-> & -> & ->).
  rewrite lex_word_then_space by (assumption || reflexivity).
  rewrite (lex_plain_word _ _ Hb). reflexivity.
Qed.

(** X1.  Whatever is passed through [shlex.quote] reaches [git] as one
    argument, unchanged: the path to stage, the commit message and the
    remote URL may hold blanks, quotes, backslashes or any other
    character. *)
Theorem quoted_arguments_reach_git_intact (text : string) :
  shlex_split (shlex_quote text) = inr [text]
  /\ shlex_split ("git add " ++ shlex_quote text) = inr ["git"; "add"; text]
  /\ shlex_split ("git commit -m " ++ shlex_quote text)
     = inr ["git"; "commit"; "-m"; text]
  /\ shlex_split ("git remote add origin " ++ shlex_quote text)
     = inr ["git"; "remote"; "add"; "origin"; text].
Proof.
  split; [apply lex_quote|].
  split; [apply split_add|].
  split; [apply split_commit | apply split_remote_add].
Qed.

(** X2.  The branch name is put on the command line as it is: a name of
    two words becomes two arguments of [git checkout -b] and of
    [git push origin]. *)
Theorem unquoted_branch_is_split (a b : string) :
  plain_word a = true -> plain_word b = true ->
  shlex_split ("git checkout -b " ++ a ++ " " ++ b)
  = inr ["git"; "checkout"; "-b"; a; b]
  /\ shlex_split ("git push origin " ++ a ++ " " ++ b)
     = inr ["git"; "push"; "origin"; a; b].
Proof.
  intros Ha Hb. unfold shlex_split. split; simpl;
    change (a ++ String " " b) with (a ++ " " ++ b);
    now rewrite (@lex_two_plain_words a b _ Ha Hb).
Qed.

Lemma unquoted_branch_is_split_witness :
  shlex_split ("git checkout -b " ++ "my" ++ " " ++ "branch")
  = inr ["git"; "checkout"; "-b"; "my"; "branch"]
  /\ shlex_split ("git push origin " ++ "my" ++ " " ++ "branch")
     = inr ["git"; "push"; "origin"; "my"; "branch"].
Proof. apply (@unquoted_branch_is_split "my" "branch"); reflexivity. Defined.

End CommandLines.

Section WatchedNames.

Lemma split_char_absent (c : ascii) (a : string) :
  contains c a = false -> split_char c a = [a].
Proof.
  unfold contains. induction a as [|d a IH]; simpl; [reflexivity|].
  intros H. apply orb_false_iff in H as [Hd Ha].
  rewrite Ascii.eqb_sym in Hd. rewrite Hd, (IH Ha). reflexivity.
Qed.

Lemma split_char_at_sep (c : ascii) (a b : string) :
  contains c a = false ->
  split_char c (a ++ String c b) = a :: split_char c b.
Proof.
  unfold contains. induction a as [|d a IH]; simpl.
  - intros _. now rewrite Ascii.eqb_refl.
  - intros H. apply orb_false_iff in H as [Hd Ha].
    rewrite Ascii.eqb_sym in Hd. rewrite Hd, (IH Ha). reflexivity.
Qed.

Lemma lstrip_by_padding p (pad s : string) :
  forallb_str p pad = true -> lstrip_by p (pad ++ s) = lstrip_by p s.
Proof.
  induction pad as [|d pad IH]; simpl; [reflexivity|].
  intros H. apply andb_true_iff in H as [Hd Hp]. now rewrite Hd, (IH Hp).
Qed.

Lemma strip_padding (pad s : string) :
  forallb_str isspace pad = true -> strip (pad ++ s) = strip s.
Proof. intros H. unfold strip. now rewrite lstrip_by_padding by exact H. Qed.

Lemma isspace_not_comma (pad : string) :
  forallb_str isspace pad = true -> contains "," pad = false.
Proof.
  intros H. apply contains_absent. revert H. apply forallb_str_impl.
  intros c. destruct c as [[] [] [] [] [] [] [] []]; vm_compute; congruence.
Qed.

Lemma contains_append (c : ascii) (a b : string) :
  contains c (a ++ b) = contains c a || contains c b.
Proof. apply char_in_append. Qed.

Lemma clean_name_facts (name : string) :
  clean_name name = true -> strip name = name /\ contains "," name = false.
Proof.
  unfold clean_name. intros H. apply andb_true_iff in H as [Hs Hc].
  apply String.eqb_eq in Hs. apply negb_true_iff in Hc. now split.
Qed.

(** Names joined by a comma and blanks, with blanks in front, are read
    back. *)
Lemma parse_joined (pad pre : string) (names : list string) :
  forallb_str isspace pad = true ->
  forallb_str isspace pre = true ->
  names <> [] ->
  forallb clean_name names = true ->
  parse_watched_files (pre ++ join (String "," pad) names) = names.
Proof.
  intros Hpad. unfold parse_watched_files.
  revert pre. induction names as [|n rest IH]; intros pre Hpre Hne Hclean;
    [congruence|].
  simpl in Hclean. apply andb_true_iff in Hclean as [Hn Hrest].
  destruct (clean_name_facts _ Hn) as [Hstrip Hcomma].
  assert (Hpn : contains "," (pre ++ n) = false).
  { rewrite contains_append, (isspace_not_comma pre Hpre), Hcomma. reflexivity. }
  destruct rest as [|m rest].
  - simpl join. rewrite split_char_absent by exact Hpn. simpl.
    rewrite strip_padding by exact Hpre. now rewrite Hstrip.
  - change (join (String "," pad) (n :: m :: rest))
      with (n ++ String "," pad ++ join (String "," pad) (m :: rest)).
    rewrite <- append_assoc.
    change ((pre ++ n) ++ String "," pad ++ join (String "," pad) (m :: rest))
      with ((pre ++ n) ++ String "," (pad ++ join (String "," pad) (m :: rest))).
    rewrite split_char_at_sep by exact Hpn. simpl map.
    rewrite strip_padding by exact Hpre. rewrite Hstrip.
    f_equal. apply IH; [assumption | discriminate | assumption].
Qed.

(** X3.  A list of names written in the configuration, each trimmed and
    free of commas, separated by a comma or by a comma and a blank, is
    read back as exactly these names, in order. *)
Theorem watched_files_round_trip (names : list string) :
  names <> [] ->
  forallb clean_name names = true ->
  parse_watched_files (join "," names) = names
  /\ parse_watched_files (join ", " names) = names.
Proof.
  intros Hne Hclean. split.
  - exact (@parse_joined "" "" names eq_refl eq_refl Hne Hclean).
  - exact (@parse_joined " " "" names eq_refl eq_refl Hne Hclean).
Qed.

Lemma watched_files_round_trip_witness :
  parse_watched_files (join "," ["printer.cfg"; "moonraker.conf"])
  = ["printer.cfg"; "moonraker.conf"]
  /\ parse_watched_files (join ", " ["printer.cfg"; "moonraker.conf"])
     = ["printer.cfg"; "moonraker.conf"].
Proof.
  apply (@watched_files_round_trip ["printer.cfg"; "moonraker.conf"]);
    [discriminate | reflexivity].
Defined.

End WatchedNames.

Section Braces.

Variable ext : string -> option ascii -> string -> string -> result string.
Variable filename : string.

(** X4.  Doubling the braces of a text gives a template that renders as
    this text, whatever the file name: literal braces can be written in a
    commit message. *)
Theorem doubled_braces_render_literally (text : string) :
  str_format ext filename (escape_braces text) = inr text.
Proof.
  unfold str_format. induction text as [|c text IH]; [reflexivity|].
  simpl escape_braces. unfold is_brace.
  destruct (Ascii.eqb c "{") eqn:Eo.
  - apply Ascii.eqb_eq in Eo. subst c. simpl. now rewrite IH.
  - destruct (Ascii.eqb c "}") eqn:Ec.
    + apply Ascii.eqb_eq in Ec. subst c. simpl. now rewrite IH.
    + simpl. rewrite Eo, Ec, IH. reflexivity.
Qed.

End Braces.

Section OtherRemotes.

Ltac by_bits c :=
  destruct c as [[] [] [] [] [] [] [] []]; vm_compute; intros;
  first [discriminate | reflexivity | tauto | repeat split; congruence].

Lemma scp_user_char_facts (c : ascii) :
  scp_user_char c = true ->
  Ascii.eqb c ":" = false /\ Ascii.eqb c "/" = false
  /\ c0_control_or_space c = false /\ is_tab_cr_lf c = false
  /\ Ascii.eqb c "#" = false /\ Ascii.eqb c "?" = false /\ Ascii.eqb c ";" = false.
Proof. by_bits c. Qed.

Lemma scp_tail_char_facts (c : ascii) :
  scp_tail_char c = true ->
  is_tab_cr_lf c = false
  /\ Ascii.eqb c "#" = false /\ Ascii.eqb c "?" = false /\ Ascii.eqb c ";" = false.
Proof. by_bits c. Qed.

(** Splitting at a character that comes only after another one. *)
Lemma partition_through (c d : ascii) (a b : string) :
  forallb_str (fun x => negb (Ascii.eqb x c)) a = true ->
  Ascii.eqb d c = false ->
  partition c (a ++ String d b)
  = let '(b', found, after) := partition c b in (a ++ String d b', found, after).
Proof.
  intros Ha Hd. induction a as [|x a IH]; simpl.
  - rewrite Hd. now destruct (partition c b) as [[b' f] a'].
  - simpl in Ha. apply andb_true_iff in Ha as [Hx Ha].
    apply negb_true_iff in Hx. rewrite Hx, (IH Ha).
    now destruct (partition c b) as [[b' f] a'].
Qed.

Lemma scheme_chars_with_at (a b : string) :
  forallb_str scheme_chars (a ++ String "@" b) = false.
Proof.
  rewrite forallb_str_append. simpl. apply andb_false_r.
Qed.

Section ScpRemote.

Variables (user tail : string).
Hypothesis Huser : forallb_str scp_user_char user = true.
Hypothesis Htail : forallb_str scp_tail_char tail = true.

Lemma scp_all (q : ascii -> bool) :
  (forall c, scp_user_char c = true -> q c = true) ->
  (forall c, scp_tail_char c = true -> q c = true) ->
  q "@"%char = true ->
  forallb_str q (user ++ String "@" tail) = true.
Proof.
  intros Hu Ht Hat. rewrite forallb_str_append. simpl. rewrite Hat.
  rewrite (forallb_str_impl _ _ _ Hu Huser), (forallb_str_impl _ _ _ Ht Htail).
  reflexivity.
Qed.

Lemma scp_first :
  exists c r, user ++ String "@" tail = String c r
              /\ c0_control_or_space c = false /\ Ascii.eqb c "/" = false.
Proof.
  destruct user as [|c u].
  - exists "@"%char, tail. repeat split.
  - exists c, (u ++ String "@" tail). split; [reflexivity|].
    simpl in Huser. apply andb_true_iff in Huser as [Hc _].
    apply scp_user_char_facts in Hc. tauto.
Qed.

Lemma scp_split_scheme :
  split_scheme (user ++ String "@" tail) "" = ("", user ++ String "@" tail).
Proof.
  unfold split_scheme. rewrite partition_through.
  - destruct (partition ":" tail) as [[b' found] after].
    destruct (user ++ String "@" b') as [|c0 r] eqn:E; [reflexivity|].
    destruct found; [|reflexivity].
    rewrite <- E, scheme_chars_with_at, andb_false_r. reflexivity.
  - revert Huser. apply forallb_str_impl. intros c Hc.
    apply scp_user_char_facts in Hc as (-> & _). reflexivity.
  - reflexivity.
Qed.

(** A remote of the form [user@host:path] is taken for a path without
    scheme and without network location. *)
Lemma urlparse_scp (check_br check_nfkc : string -> option string) :
  urlparse check_br check_nfkc (user ++ String "@" tail)
  = inr (mkParseResult "" "" (user ++ String "@" tail) "" "" "").
Proof.
  unfold urlparse, urlsplit.
  destruct scp_first as (c & r & E & Hc0 & Hslash).
  assert (Hstrip : lstrip_by c0_control_or_space (user ++ String "@" tail)
                   = user ++ String "@" tail).
  { rewrite E. simpl. now rewrite Hc0. }
  rewrite Hstrip, remove_tab_cr_lf.
  2:{ apply scp_all; [| |reflexivity]; intros x Hx.
      - apply scp_user_char_facts in Hx as (_ & _ & _ & -> & _). reflexivity.
      - apply scp_tail_char_facts in Hx as (-> & _). reflexivity. }
  rewrite scp_split_scheme.
  assert (Hnet : match user ++ String "@" tail with
                 | String "/" (String "/" r0) => _splitnetloc r0
                 | _ => ("", user ++ String "@" tail)
                 end = ("", user ++ String "@" tail)).
  { rewrite E. clear E. revert Hslash. by_bits c. }
  rewrite Hnet.
  assert (Hh : contains "#" (user ++ String "@" tail) = false).
  { apply contains_absent, scp_all; [| |reflexivity]; intros x Hx.
    - apply scp_user_char_facts in Hx as (_ & _ & _ & _ & -> & _). reflexivity.
    - apply scp_tail_char_facts in Hx as (_ & -> & _). reflexivity. }
  assert (Hq : contains "?" (user ++ String "@" tail) = false).
  { apply contains_absent, scp_all; [| |reflexivity]; intros x Hx.
    - apply scp_user_char_facts in Hx as (_ & _ & _ & _ & _ & -> & _). reflexivity.
    - apply scp_tail_char_facts in Hx as (_ & _ & -> & _). reflexivity. }
  assert (Hs : contains ";" (user ++ String "@" tail) = false).
  { apply contains_absent, scp_all; [| |reflexivity]; intros x Hx.
    - apply scp_user_char_facts in Hx as (_ & _ & _ & _ & _ & _ & ->). reflexivity.
    - apply scp_tail_char_facts in Hx as (_ & _ & _ & ->). reflexivity. }
  cbn [contains char_in orb andb negb is_empty]. rewrite Hh, Hq.
  cbn [orb]. rewrite Hs, andb_false_r. reflexivity.
Qed.

Lemma urlunparse_scp (token : string) :
  urlunparse "" (token ++ "@" ++ "") (user ++ String "@" tail) "" "" ""
  = "//" ++ token ++ "@/" ++ user ++ "@" ++ tail.
Proof.
  destruct scp_first as (c & r & E & _ & Hslash).
  assert (Hn : is_empty (token ++ "@" ++ "") = false).
  { rewrite is_empty_append. simpl. apply andb_false_r. }
  unfold urlunparse, urlunsplit.
  change (is_empty "") with true. cbv beta iota zeta delta [negb].
  rewrite Hn. cbv beta iota zeta delta [orb].
  assert (Hp : match user ++ String "@" tail with
               | EmptyString => user ++ String "@" tail
               | String "/" _ => user ++ String "@" tail
               | String _ _ => String "/" (user ++ String "@" tail)
               end = String "/" (user ++ String "@" tail)).
  { rewrite E. clear E. revert Hslash. by_bits c. }
  rewrite Hp. simpl. rewrite !append_assoc. reflexivity.
Qed.

End ScpRemote.

(** X5.  A remote given in the form [user@host:path] (as in
    [git@github.com:user/repo.git]) is not a URL for [urlparse]: it has no
    scheme and no network location, so the URL with the token becomes
    [//TOKEN@/user@host:path]. *)
Theorem scp_style_remote_is_mangled {R : Runtime}
    (g : GitBackup) (user tail token : string) :
  remote_url g = Some (user ++ "@" ++ tail) ->
  github_token g = Some token ->
  forallb_str scp_user_char user = true ->
  forallb_str scp_tail_char tail = true ->
  url_with_token g = inr ("//" ++ token ++ "@/" ++ user ++ "@" ++ tail).
Proof.
  intros Hu Ht Huser Htail. unfold url_with_token. rewrite Hu.
  change (user ++ "@" ++ tail) with (user ++ String "@" tail).
  rewrite (@urlparse_scp user tail Huser Htail), Ht.
  cbn [scheme netloc path fstr].
  f_equal. exact (@urlunparse_scp user tail Huser token).
Qed.

Lemma scp_style_remote_is_mangled_witness :
  url_with_token (R:=FakeGit.runtime) FakeGit.scp_instance
  = inr "//abc123@/git@github.com:user/repo.git".
Proof.
  apply (@scp_style_remote_is_mangled FakeGit.runtime FakeGit.scp_instance
           "git" "github.com:user/repo.git" "abc123"); reflexivity.
Defined.

End OtherRemotes.

(* ================================================================== *)
(** * Further properties of the save-event handler *)
(* ================================================================== *)

Section Paths.

Ltac by_bits c :=
  destruct c as [[] [] [] [] [] [] [] []]; vm_compute; intros;
  first [discriminate | reflexivity | tauto | repeat split; congruence].

Lemma in_list_In (x : string) (l : list string) :
  in_list x l = true <-> In x l.
Proof.
  unfold in_list. rewrite existsb_exists. split.
  - intros (y & Hy & E). apply String.eqb_eq in E. now subst y.
  - intros H. exists x. split; [assumption | apply String.eqb_refl].
Qed.

Lemma rpartition_absent (c : ascii) (s : string) :
  contains c s = false -> rpartition c s = ("", false, s).
Proof.
  unfold contains. induction s as [|d s IH]; simpl; [reflexivity|].
  intros H. apply orb_false_iff in H as [Hd Hs].
  rewrite Ascii.eqb_sym in Hd. now rewrite (IH Hs), Hd.
Qed.

Lemma rpartition_last (c : ascii) (a b : string) :
  contains c b = false -> rpartition c (a ++ String c b) = (a, true, b).
Proof.
  intros Hb. induction a as [|d a IH]; simpl.
  - rewrite rpartition_absent by exact Hb. now rewrite Ascii.eqb_refl.
  - now rewrite IH.
Qed.

(** What follows the last separator holds no separator. *)
Lemma rpartition_after (c : ascii) (s : string) :
  contains c (snd (rpartition c s)) = false
  /\ (snd (fst (rpartition c s)) = false -> snd (rpartition c s) = s).
Proof.
  unfold contains. induction s as [|d s IH]; simpl; [now split|].
  destruct (rpartition c s) as [[b f] a]. simpl in IH. destruct IH as [Ha Hs].
  destruct f; simpl; [split; [assumption | discriminate]|].
  destruct (Ascii.eqb d c) eqn:E; simpl.
  - split; [|discriminate]. rewrite (Hs eq_refl) in Ha. exact Ha.
  - split.
    + rewrite Ascii.eqb_sym, E. exact Ha.
    + intros _. now rewrite (Hs eq_refl).
Qed.

Lemma basename_no_slash (p : string) : contains "/" (basename p) = false.
Proof.
  unfold basename. pose proof (rpartition_after "/" p) as [Ha Hs].
  destruct (rpartition "/" p) as [[b f] a]. simpl in Ha, Hs.
  destruct f; [exact Ha|]. rewrite <- (Hs eq_refl). exact Ha.
Qed.

Lemma basename_plain (f : string) : contains "/" f = false -> basename f = f.
Proof. intros H. unfold basename. now rewrite rpartition_absent by exact H. Qed.

Lemma last_char_slash (a : string) :
  last_char a = Some "/"%char -> exists a', a = a' ++ "/".
Proof.
  induction a as [|c a IH]; [discriminate|].
  destruct a as [|d a].
  - simpl. intros H. injection H as ->. now exists "".
  - intros H. destruct (IH H) as [a' E]. exists (String c a'). simpl. now rewrite <- E.
Qed.

(** The base name of a name joined to a directory is the name. *)
Lemma basename_path_join (dir f : string) :
  contains "/" f = false -> basename (path_join dir f) = f.
Proof.
  intros Hf.
  assert (Hjoin : path_join dir f
                  = match last_char dir with
                    | None => f
                    | Some "/"%char => dir ++ f
                    | Some _ => dir ++ String "/" f
                    end).
  { unfold path_join. destruct f as [|c f]; [reflexivity|].
    unfold contains in Hf. simpl in Hf. apply orb_false_iff in Hf as [Hc _].
    revert Hc. clear. by_bits c. }
  rewrite Hjoin.
  destruct (last_char dir) as [c|] eqn:El; [|now apply basename_plain].
  destruct (Ascii.eqb_spec c "/") as [->|Hc].
  - destruct (last_char_slash _ El) as [d' ->].
    rewrite append_assoc. unfold basename.
    change ("/" ++ f) with (String "/" f). now rewrite rpartition_last by exact Hf.
  - assert (E : match c with
                | "/"%char => dir ++ f
                | _ => dir ++ String "/" f
                end = dir ++ String "/" f).
    { revert Hc. clear. destruct c as [[] [] [] [] [] [] [] []];
        intros H; try reflexivity. now elim H. }
    rewrite E. unfold basename. now rewrite rpartition_last by exact Hf.
Qed.

End Paths.

(* ================================================================== *)
(** * The remote URL and the URL with the token *)
(* ================================================================== *)

Section RemoteUrl.

Ltac by_bits c :=
  destruct c as [[] [] [] [] [] [] [] []]; vm_compute; intros;
  first [discriminate | reflexivity | tauto | repeat split; congruence].

Ltac weaken H c Hc :=
  generalize H; apply forallb_str_impl; intros c Hc.

Lemma clean_append (a b : string) : clean (a ++ b) = clean a && clean b.
Proof. apply forallb_str_append. Qed.

Lemma scheme_chars_facts (c : ascii) :
  scheme_chars c = true ->
  is_tab_cr_lf c = false /\ Ascii.eqb c ":" = false
  /\ scheme_chars (lower_char c) = true.
Proof. by_bits c. Qed.

Lemma ascii_alpha_facts (c : ascii) :
  is_ascii_alpha c = true ->
  c0_control_or_space c = false /\ is_ascii_alpha (lower_char c) = true.
Proof. by_bits c. Qed.

Lemma userinfo_char_facts (c : ascii) :
  userinfo_char c = true -> char_in c "/?#" = false.
Proof. by_bits c. Qed.

Lemma host_char_facts (c : ascii) :
  host_char c = true ->
  char_in c "/?#" = false /\ is_tab_cr_lf c = false /\ Ascii.eqb c "@" = false.
Proof. by_bits c. Qed.

Lemma path_char_facts (c : ascii) :
  path_char c = true ->
  char_in c "?#" = false /\ is_tab_cr_lf c = false
  /\ Ascii.eqb c "#" = false /\ Ascii.eqb c "?" = false.
Proof. by_bits c. Qed.

Lemma query_char_facts (c : ascii) :
  query_char c = true -> Ascii.eqb c "#" = false /\ is_tab_cr_lf c = false.
Proof. by_bits c. Qed.

Lemma partition_absent (c : ascii) (s : string) :
  forallb_str (fun d => negb (Ascii.eqb d c)) s = true -> partition c s = (s, false, "").
Proof.
  induction s as [|d s IH]; simpl; [reflexivity|].
  intros H. apply andb_true_iff in H as [Hd Hs].
  apply negb_true_iff in Hd. now rewrite Hd, (IH Hs).
Qed.

Lemma lower_scheme_chars (t : string) :
  forallb_str scheme_chars t = true -> forallb_str scheme_chars (lower t) = true.
Proof.
  induction t as [|d t IH]; simpl; [reflexivity|].
  intros H. apply andb_true_iff in H as [Hd Ht].
  apply scheme_chars_facts in Hd as (_ & _ & Hd). now rewrite Hd, (IH Ht).
Qed.

Lemma lower_scheme (s : string) :
  scheme_ok s = true -> scheme_ok (lower s) = true.
Proof.
  unfold scheme_ok. destruct s as [|c s]; [discriminate|].
  intros H. apply andb_true_iff in H as [Hc Hs].
  apply lower_scheme_chars in Hs.
  change (lower (String c s)) with (String (lower_char c) (lower s)) in *.
  apply ascii_alpha_facts in Hc as [_ Hc]. now rewrite Hc, Hs.
Qed.

(** ** Reading the text of a URL *)

Section Reading.

Variable u : Url.
Hypothesis Hok : url_ok u = true.

Lemma url_ok_parts :
  scheme_ok (url_scheme u) = true
  /\ all_of userinfo_char (url_userinfo u) = true
  /\ forallb_str host_char (url_host u) = true
  /\ path_ok (url_path u) = true
  /\ all_of query_char (url_query u) = true
  /\ all_of fragment_char (url_fragment u) = true.
Proof.
  unfold url_ok in Hok.
  repeat (apply andb_true_iff in Hok as [Hok ?]). repeat split; assumption.
Qed.

Lemma scheme_parts :
  exists c r, url_scheme u = String c r
              /\ is_ascii_alpha c = true
              /\ forallb_str scheme_chars (url_scheme u) = true.
Proof.
  destruct url_ok_parts as (H & _). unfold scheme_ok in H.
  destruct (url_scheme u) as [|c r]; [discriminate|].
  apply andb_true_iff in H as [Hc Hs]. now exists c, r.
Qed.

Lemma path_chars : forallb_str path_char (url_path u) = true.
Proof.
  destruct url_ok_parts as (_ & _ & _ & H & _). unfold path_ok in H.
  now apply andb_true_iff in H as [_ H].
Qed.

Lemma query_text_no_hash :
  forallb_str (fun d => negb (Ascii.eqb d "#")) (query_text (url_query u)) = true.
Proof.
  destruct url_ok_parts as (_ & _ & _ & _ & H & _).
  destruct (url_query u) as [q|]; [|reflexivity].
  simpl in H |- *. weaken H c Hc. apply query_char_facts in Hc as (-> & _). reflexivity.
Qed.

(** What follows the path begins with the mark of the query or of the
    fragment, and what follows the authority with a slash or one of them. *)
Lemma after_path_begins :
  match query_text (url_query u) ++ fragment_text (url_fragment u) with
  | EmptyString => True
  | String c _ => char_in c "?#" = true
  end.
Proof.
  destruct (url_query u); [reflexivity|].
  destruct (url_fragment u); [reflexivity | exact I].
Qed.

Lemma after_authority_begins :
  match url_path u ++ query_text (url_query u) ++ fragment_text (url_fragment u) with
  | EmptyString => True
  | String c _ => char_in c "/?#" = true
  end.
Proof.
  destruct url_ok_parts as (_ & _ & _ & H & _). unfold path_ok in H.
  apply andb_true_iff in H as [H _].
  destruct (url_path u) as [|c r].
  - destruct (url_query u); [reflexivity|].
    destruct (url_fragment u); [reflexivity | exact I].
  - apply Ascii.eqb_eq in H. now subst c.
Qed.

Lemma partition_scheme (rest : string) :
  partition ":" (url_scheme u ++ String ":" rest) = (url_scheme u, true, rest).
Proof.
  apply partition_first. destruct scheme_parts as (c & r & _ & _ & H).
  weaken H d Hd. apply scheme_chars_facts in Hd as (_ & -> & _). reflexivity.
Qed.

Lemma span_path :
  span_until (fun c => char_in c "?#")
             (url_path u ++ query_text (url_query u) ++ fragment_text (url_fragment u))
  = (url_path u, query_text (url_query u) ++ fragment_text (url_fragment u)).
Proof.
  apply span_until_stop; [|exact after_path_begins].
  weaken path_chars c Hc. apply path_char_facts in Hc as (-> & _). reflexivity.
Qed.

Lemma partition_fragment :
  partition "#" (query_text (url_query u) ++ fragment_text (url_fragment u))
  = (query_text (url_query u),
     match url_fragment u with Some _ => true | None => false end,
     match url_fragment u with Some f => f | None => "" end).
Proof.
  destruct (url_fragment u) as [f|]; cbn [fragment_text].
  - change ("#" ++ f) with (String "#" f).
    apply partition_first. exact query_text_no_hash.
  - rewrite append_nil_r. apply partition_absent. exact query_text_no_hash.
Qed.

Lemma authority_chars :
  forallb_str (fun c => negb (char_in c "/?#"))
              (userinfo_text (url_userinfo u) ++ url_host u) = true.
Proof.
  destruct url_ok_parts as (_ & Hi & Hh & _).
  rewrite forallb_str_append. apply andb_true_iff. split.
  - destruct (url_userinfo u) as [i|]; [|reflexivity].
    cbn [userinfo_text all_of] in *. rewrite forallb_str_append.
    apply andb_true_iff. split; [|reflexivity].
    weaken Hi c Hc. apply userinfo_char_facts in Hc as ->. reflexivity.
  - weaken Hh c Hc. apply host_char_facts in Hc as (-> & _). reflexivity.
Qed.

Lemma host_no_at : contains "@" (url_host u) = false.
Proof.
  destruct url_ok_parts as (_ & _ & Hh & _). apply contains_absent.
  weaken Hh c Hc. apply host_char_facts in Hc as (_ & _ & ->). reflexivity.
Qed.

Lemma rpartition_authority :
  rpartition "@" (userinfo_text (url_userinfo u) ++ url_host u)
  = (match url_userinfo u with Some i => i | None => "" end,
     match url_userinfo u with Some _ => true | None => false end,
     url_host u).
Proof.
  destruct (url_userinfo u) as [i|]; cbn [userinfo_text].
  - rewrite append_assoc. change ("@" ++ url_host u) with (String "@" (url_host u)).
    apply rpartition_last. exact host_no_at.
  - apply rpartition_absent. exact host_no_at.
Qed.

(** A URL is what its text reads as. *)
Lemma url_read_text : url_read (url_text u) = u.
Proof.
  unfold url_read, url_text.
  change (url_scheme u ++ "://" ++ userinfo_text (url_userinfo u) ++ url_host u
          ++ url_path u ++ query_text (url_query u) ++ fragment_text (url_fragment u))
    with (url_scheme u
          ++ String ":" (String "/" (String "/"
               (userinfo_text (url_userinfo u) ++ url_host u
                ++ url_path u ++ query_text (url_query u)
                ++ fragment_text (url_fragment u))))).
  rewrite partition_scheme. cbv beta iota.
  rewrite <- (append_assoc (userinfo_text (url_userinfo u)) (url_host u)).
  rewrite (span_until_stop _ _ _ authority_chars after_authority_begins).
  rewrite rpartition_authority, span_path, partition_fragment.
  destruct u as [s i h p q f]. cbn [url_userinfo url_query url_fragment].
  destruct i, q, f; reflexivity.
Qed.

End Reading.

(** The text of a URL has one reading. *)
Lemma url_text_unique (u v : Url) :
  url_ok u = true -> url_ok v = true -> url_text u = url_text v -> u = v.
Proof.
  intros Hu Hv H.
  rewrite <- (@url_read_text u Hu), <- (@url_read_text v Hv). now rewrite H.
Qed.

(** ** What [urlparse] and [urlunparse] make of a URL without user-info *)

Section Parsing.

Variable u : Url.
Hypothesis Hok : url_ok u = true.
Hypothesis Hnone : url_userinfo u = None.

Lemma remote_text : url_text u = url_scheme u ++ String ":" (String "/" (String "/" (after_slashes u))).
Proof. unfold url_text, after_slashes. now rewrite Hnone. Qed.

Lemma remote_clean : clean (url_text u) = true.
Proof.
  destruct (url_ok_parts u Hok) as (_ & _ & Hh & Hp & Hq & Hf).
  destruct (scheme_parts u Hok) as (c & r & _ & _ & Hs).
  unfold url_text. rewrite Hnone. cbn [userinfo_text].
  change ("://" ++ "" ++ url_host u ++ url_path u ++ query_text (url_query u)
          ++ fragment_text (url_fragment u))
    with (String ":" (String "/" (String "/" (after_slashes u)))).
  rewrite clean_append. apply andb_true_iff. split.
  { unfold clean. weaken Hs d Hd. apply scheme_chars_facts in Hd as (-> & _). reflexivity. }
  unfold clean. cbn [forallb_str]. change (negb (is_tab_cr_lf ":")) with true.
  change (negb (is_tab_cr_lf "/")) with true. cbn [andb].
  fold (clean (after_slashes u)). unfold after_slashes. rewrite !clean_append.
  repeat (apply andb_true_iff; split).
  - unfold clean. weaken Hh d Hd. apply host_char_facts in Hd as (_ & -> & _). reflexivity.
  - unfold clean. weaken (path_chars u Hok) d Hd.
    apply path_char_facts in Hd as (_ & -> & _). reflexivity.
  - destruct (url_query u) as [q|]; [|reflexivity].
    cbn [query_text all_of] in *. change ("?" ++ q) with (String "?" q).
    unfold clean. cbn [forallb_str]. change (negb (is_tab_cr_lf "?")) with true.
    cbn [andb]. weaken Hq d Hd. apply query_char_facts in Hd as (_ & ->). reflexivity.
  - destruct (url_fragment u) as [f|]; [|reflexivity].
    cbn [fragment_text all_of] in *. change ("#" ++ f) with (String "#" f).
    unfold clean. cbn [forallb_str]. change (negb (is_tab_cr_lf "#")) with true.
    cbn [andb]. exact Hf.
Qed.

Lemma remote_lstrip : lstrip_by c0_control_or_space (url_text u) = url_text u.
Proof.
  rewrite remote_text. destruct (scheme_parts u Hok) as (c & r & -> & Hc & _).
  apply ascii_alpha_facts in Hc as [Hc _]. simpl. now rewrite Hc.
Qed.

Lemma remote_split_scheme :
  split_scheme (url_text u) "" = (lower (url_scheme u), String "/" (String "/" (after_slashes u))).
Proof.
  unfold split_scheme. rewrite remote_text, (partition_scheme u Hok).
  destruct (scheme_parts u Hok) as (c & r & E & Hc & Hs).
  rewrite E in *. now rewrite Hc, Hs.
Qed.

Lemma remote_splitnetloc :
  _splitnetloc (after_slashes u)
  = (url_host u,
     url_path u ++ query_text (url_query u) ++ fragment_text (url_fragment u)).
Proof.
  unfold _splitnetloc, after_slashes. apply span_until_stop; [|exact (after_authority_begins u Hok)].
  destruct (url_ok_parts u Hok) as (_ & _ & Hh & _).
  weaken Hh c Hc. apply host_char_facts in Hc as (-> & _). reflexivity.
Qed.

Lemma path_no_hash :
  forallb_str (fun d => negb (Ascii.eqb d "#")) (url_path u) = true.
Proof.
  weaken (path_chars u Hok) c Hc. apply path_char_facts in Hc as (_ & _ & -> & _).
  reflexivity.
Qed.

Lemma path_no_question :
  forallb_str (fun d => negb (Ascii.eqb d "?")) (url_path u) = true.
Proof.
  weaken (path_chars u Hok) c Hc. apply path_char_facts in Hc as (_ & _ & _ & ->).
  reflexivity.
Qed.

(** The fragment is cut off at the first [#], the query at the first [?]. *)
Lemma remote_fragment :
  (if contains "#" (url_path u ++ query_text (url_query u)
                    ++ fragment_text (url_fragment u))
   then let '(b, _, a) := partition "#" (url_path u ++ query_text (url_query u)
                                          ++ fragment_text (url_fragment u)) in
        (b, a)
   else (url_path u ++ query_text (url_query u) ++ fragment_text (url_fragment u), ""))
  = (url_path u ++ query_text (url_query u),
     match url_fragment u with Some f => f | None => "" end).
Proof.
  assert (Hpq : forallb_str (fun d => negb (Ascii.eqb d "#"))
                            (url_path u ++ query_text (url_query u)) = true).
  { rewrite forallb_str_append, path_no_hash, (query_text_no_hash u Hok). reflexivity. }
  destruct (url_fragment u) as [f|]; cbn [fragment_text].
  - rewrite <- append_assoc. change ("#" ++ f) with (String "#" f).
    unfold contains. rewrite char_in_append. simpl char_in at 2.
    rewrite orb_true_r. now rewrite (partition_first _ _ _ Hpq).
  - rewrite !append_nil_r. now rewrite (contains_absent _ _ Hpq).
Qed.

Lemma remote_query :
  (if contains "?" (url_path u ++ query_text (url_query u))
   then let '(b, _, a) := partition "?" (url_path u ++ query_text (url_query u)) in
        (b, a)
   else (url_path u ++ query_text (url_query u), ""))
  = (url_path u, match url_query u with Some q => q | None => "" end).
Proof.
  destruct (url_query u) as [q|]; cbn [query_text].
  - change ("?" ++ q) with (String "?" q).
    unfold contains. rewrite char_in_append. simpl char_in at 2.
    rewrite orb_true_r. now rewrite (partition_first _ _ _ path_no_question).
  - rewrite append_nil_r. now rewrite (contains_absent _ _ path_no_question).
Qed.

Lemma basename_of_path :
  contains "/" (url_path u) = true ->
  exists head, rpartition "/" (url_path u) = (head, true, basename (url_path u)).
Proof.
  intros H. unfold basename.
  destruct (rpartition "/" (url_path u)) as [[head found] tail] eqn:E.
  destruct found; [now exists head|].
  pose proof (rpartition_after "/" (url_path u)) as [Hno Hsame].
  rewrite E in Hno, Hsame. cbn [fst snd] in Hno, Hsame.
  rewrite (Hsame eq_refl) in Hno. congruence.
Qed.

(** Without parameters, the path is left as it is. *)
Lemma remote_params :
  has_params u = false ->
  (if in_list (lower (url_scheme u)) uses_params && contains ";" (url_path u)
   then _splitparams (url_path u)
   else (url_path u, ""))
  = (url_path u, "").
Proof.
  unfold has_params. intros H.
  destruct (in_list (lower (url_scheme u)) uses_params); [|reflexivity].
  destruct (contains ";" (url_path u)) eqn:Esemi; [|reflexivity].
  cbn [andb] in H |- *. unfold _splitparams.
  destruct (contains "/" (url_path u)) eqn:Eslash.
  - destruct (basename_of_path Eslash) as [head ->].
    rewrite partition_absent; [reflexivity|].
    now apply char_in_false_forall.
  - destruct (url_ok_parts u Hok) as (_ & _ & _ & Hp & _). unfold path_ok in Hp.
    apply andb_true_iff in Hp as [Hp _].
    destruct (url_path u) as [|c r]; [discriminate Esemi|].
    apply Ascii.eqb_eq in Hp. subst c. discriminate Eslash.
Qed.

(** The six components [urlparse] returns. *)
Lemma urlparse_url (check_br check_nfkc : string -> option string) :
  has_params u = false ->
  contains "[" (url_host u) = contains "]" (url_host u) ->
  (contains "[" (url_host u) = true -> check_br (url_host u) = None) ->
  (forallb_str is_ascii (url_host u) = false -> check_nfkc (url_host u) = None) ->
  urlparse check_br check_nfkc (url_text u)
  = inr (mkParseResult (lower (url_scheme u)) (url_host u) (url_path u) ""
           (match url_query u with Some q => q | None => "" end)
           (match url_fragment u with Some f => f | None => "" end)).
Proof.
  intros Hparams Hpair Hbr Hnfkc. unfold urlparse, urlsplit.
  rewrite remote_lstrip.
  fold (clean (url_text u)) in *.
  rewrite (remove_tab_cr_lf _ remote_clean), remote_split_scheme, remote_splitnetloc.
  cbv beta iota zeta. rewrite <- Hpair.
  assert (Hcheck : (if contains "[" (url_host u) && contains "[" (url_host u)
                    then check_br (url_host u) else None) = None).
  { destruct (contains "[" (url_host u)) eqn:E; [exact (Hbr eq_refl) | reflexivity]. }
  assert (Hnorm : (if is_empty (url_host u) || forallb_str is_ascii (url_host u)
                   then None else check_nfkc (url_host u)) = None).
  { destruct (forallb_str is_ascii (url_host u)) eqn:E.
    - now rewrite orb_true_r.
    - rewrite (Hnfkc eq_refl). now destruct (is_empty (url_host u)). }
  assert (Hbalanced : contains "[" (url_host u) && negb (contains "[" (url_host u))
                      || contains "[" (url_host u) && negb (contains "[" (url_host u))
                      = false).
  { now destruct (contains "[" (url_host u)). }
  rewrite Hbalanced, Hcheck, remote_fragment. cbv beta iota zeta.
  rewrite remote_query. cbv beta iota zeta.
  rewrite Hnorm, (remote_params Hparams). reflexivity.
Qed.

Lemma urlunparse_url (token : string) :
  urlunparse (lower (url_scheme u)) (token ++ "@" ++ url_host u) (url_path u) "" "" ""
  = url_text (pushed_url token u).
Proof.
  assert (Hn : is_empty (token ++ "@" ++ url_host u) = false).
  { rewrite is_empty_append. simpl. apply andb_false_r. }
  assert (Hs : is_empty (lower (url_scheme u)) = false).
  { destruct (scheme_parts u Hok) as (c & r & -> & _). reflexivity. }
  unfold urlunparse, urlunsplit.
  change (is_empty "") with true. cbv beta iota zeta delta [negb].
  rewrite Hn, Hs. cbv beta iota zeta delta [orb].
  assert (Hp : match url_path u with
               | EmptyString => url_path u
               | String "/" _ => url_path u
               | String _ _ => String "/" (url_path u)
               end = url_path u).
  { destruct (url_ok_parts u Hok) as (_ & _ & _ & H & _). unfold path_ok in H.
    apply andb_true_iff in H as [H _].
    destruct (url_path u) as [|c p]; [reflexivity|].
    apply Ascii.eqb_eq in H. now subst c. }
  rewrite Hp. unfold url_text, pushed_url.
  cbn [url_scheme url_userinfo url_host url_path url_query url_fragment
       userinfo_text query_text fragment_text].
  rewrite !append_assoc, !append_nil_r. reflexivity.
Qed.

Lemma pushed_url_ok (token : string) :
  forallb_str userinfo_char token = true -> url_ok (pushed_url token u) = true.
Proof.
  intros Ht. destruct (url_ok_parts u Hok) as (Hs & _ & Hh & Hp & _).
  unfold url_ok, pushed_url.
  cbn [url_scheme url_userinfo url_host url_path url_query url_fragment all_of].
  now rewrite (lower_scheme _ Hs), Ht, Hh, Hp.
Qed.

Lemma with_userinfo_ok (token : string) :
  forallb_str userinfo_char token = true -> url_ok (with_userinfo token u) = true.
Proof.
  intros Ht. destruct (url_ok_parts u Hok) as (Hs & _ & Hh & Hp & Hq & Hf).
  unfold url_ok, with_userinfo.
  cbn [url_scheme url_userinfo url_host url_path url_query url_fragment all_of].
  now rewrite Hs, Ht, Hh, Hp, Hq, Hf.
Qed.

End Parsing.

Context {R : Runtime}.

(** C1, amended.  The remote URL is [scheme://host/path], with or without
    query and fragment, without user-info and without path parameters; the
    token holds none of [/?#]; the host passes the library checks of
    [urlsplit].  Then the URL the remote
    setup computes is [scheme://TOKEN@host/path] with the scheme in lower
    case: it is a URL whose user-info is the token and whose host and path
    are those of the remote URL, and it reads in no other way; a query and
    a fragment are not carried over.  So it is the remote URL with the
    token injected exactly when the remote URL has a scheme in lower case,
    no query and no fragment.  The setup removes the remote [origin] and
    then adds it with exactly this URL. *)
Theorem push_url_carries_token
    (st : State) (u : Url) (token : string)
    (w : World) (rc : Z) (out err : string) :
  remote_url (self st) = Some (url_text u) ->
  github_token (self st) = Some token ->
  url_ok u = true ->
  url_userinfo u = None ->
  has_params u = false ->
  forallb_str userinfo_char token = true ->
  host_accepted (url_host u) ->
  run_process (world (host st)) (config_path (self st)) argv_remote_remove
    = (w, Completed rc out err) ->
  let pushed := pushed_url token u in
  url_with_token (self st) = inr (url_text pushed)
  /\ url_ok pushed = true
  /\ (forall v : Url, url_ok v = true -> url_text v = url_text pushed -> v = pushed)
  /\ (url_text pushed = credential_url_spec token u
      <-> lower (url_scheme u) = url_scheme u
          /\ url_query u = None /\ url_fragment u = None)
  /\ calls (host (snd (_setup_remote st)))
     = (calls (host st) ++ [argv_remote_remove; argv_remote_add (url_text pushed)])%list.
Proof.
  intros Hu Ht Hok Hnone Hparams Htoken (Hpair & Hbr & Hnfkc) Hrm pushed.
  assert (Hurl : url_with_token (self st) = inr (url_text pushed)).
  { unfold url_with_token. rewrite Hu.
    rewrite (@urlparse_url u Hok Hnone _ _ Hparams Hpair Hbr Hnfkc), Ht.
    cbn [scheme netloc path fstr]. f_equal.
    exact (@urlunparse_url u Hok token). }
  assert (Hpushed : url_ok pushed = true) by exact (@pushed_url_ok u Hok token Htoken).
  split; [exact Hurl|]. split; [exact Hpushed|]. split; [|split].
  - intros v Hv E. exact (@url_text_unique v pushed Hv Hpushed E).
  - unfold credential_url_spec. split.
    + intros E.
      apply (@url_text_unique pushed (with_userinfo token u) Hpushed
               (@with_userinfo_ok u Hok token Htoken)) in E.
      unfold pushed, pushed_url, with_userinfo in E. injection E as E1 E2 E3.
      repeat split; congruence.
    + intros (E1 & E2 & E3). unfold pushed, pushed_url, with_userinfo.
      now rewrite E1, E2, E3.
  - now destruct (setup_remote_calls _ Hurl Hrm) as (_ & _ & Hc & _).
Qed.

End RemoteUrl.

Section HandlerExtras.

Context {R : Runtime}.

Ltac run_ok Hsplit Hrun :=
  match goal with
  | |- context [_run_git_command ?c ?s ?st] =>
      rewrite (@run_git_command_ok _ c s st _ _ _ _ Hsplit Hrun)
  end.

Lemma deliver_unwatched (filepaths : list string) (st : State) :
  (forall p, In p filepaths -> ~ In (basename p) (watched_files (self st))) ->
  deliver filepaths st = st.
Proof.
  induction filepaths as [|p rest IH]; intros H; [reflexivity|].
  simpl. rewrite on_file_saved_unwatched.
  - apply IH. intros q Hq. apply H. now right.
  - destruct (in_list (basename p) (watched_files (self st))) eqn:E; [|reflexivity].
    apply in_list_In in E. elim (H p (or_introl eq_refl) E).
Qed.

(** X6.  Save events for files whose base name is not in the watched list
    change nothing: no log record, no child process, whatever the state of
    the instance and however many events arrive. *)
Theorem unwatched_files_are_ignored (st : State) (filepaths : list string) :
  (forall p, In p filepaths -> ~ In (basename p) (watched_files (self st))) ->
  deliver filepaths st = st.
Proof. apply deliver_unwatched. Qed.

(** X7.  The handler compares the base name of the saved path with the
    watched names.  A base name holds no slash, so a watched entry that
    names a file in a subdirectory never matches: when every entry holds a
    slash, no save event is ever backed up. *)
Theorem watched_entry_with_slash_never_matches (st : State) (filepaths : list string) :
  (forall f, In f (watched_files (self st)) -> contains "/" f = true) ->
  deliver filepaths st = st.
Proof.
  intros H. apply deliver_unwatched. intros p _ Hin.
  pose proof (H _ Hin) as Hs. rewrite basename_no_slash in Hs. discriminate.
Qed.

(** One backup starts with the staging of the saved path. *)
Lemma backup_starts_with_add (filepath : string) (st : State) :
  exists rest,
    calls (host (snd (backup filepath (basename filepath) st)))
    = (calls (host st) ++ argv_add filepath :: rest)%list.
Proof.
  unfold backup. unfold bind at 1.
  pose proof (run_git_command_evolves ("git add " ++ shlex_quote filepath) false st) as H1.
  rewrite split_add in H1.
  destruct (_run_git_command ("git add " ++ shlex_quote filepath) false st) as [[e1|r1] st1];
    cbv beta iota in H1 |- *; cbn [snd] in H1 |- *.
  { exists []. now destruct H1 as (_ & _ & -> & _). }
  match goal with
  | |- context [snd (?k st1)] =>
      assert (Hk : exists l, calls (host (snd (k st1))) = (calls (host st1) ++ l)%list)
  end.
  { unfold bind at 1.
    pose proof (run_git_command_evolves "git status --porcelain" false st1) as H2.
    rewrite split_status in H2.
    destruct (_run_git_command "git status --porcelain" false st1) as [[e2|status] st2];
      cbv beta iota in H2 |- *; cbn [snd] in H2 |- *.
    { exists [argv_status]. now destruct H2 as (_ & _ & -> & _). }
    destruct H2 as (_ & _ & C2 & _).
    destruct (falsy status).
    { exists [argv_status]. rewrite logging_info_run. exact C2. }
    unfold bind at 1. unfold get_self. unfold bind at 1. unfold lift.
    destruct (str_format rt_format_ext (basename filepath) (commit_message (self st2)))
      as [ef|msg].
    { exists [argv_status]. exact C2. }
    unfold bind at 1.
    pose proof (run_git_command_evolves ("git commit -m " ++ shlex_quote msg) false st2) as H3.
    rewrite split_commit in H3.
    destruct (_run_git_command ("git commit -m " ++ shlex_quote msg) false st2)
      as [[e3|r3] st3]; cbv beta iota in H3 |- *; cbn [snd] in H3 |- *;
      destruct H3 as (_ & _ & C3 & _).
    { exists [argv_status; argv_commit msg]. rewrite C3, C2, <- app_assoc. reflexivity. }
    unfold bind at 1.
    pose proof (run_git_command_evolves ("git push origin " ++ branch_name (self st2))
                  false st3) as H4.
    destruct (shlex_split ("git push origin " ++ branch_name (self st2))) as [es|args].
    { rewrite H4. exists [argv_status; argv_commit msg].
      cbn [snd]. rewrite C3, C2, <- app_assoc. reflexivity. }
    destruct (_run_git_command ("git push origin " ++ branch_name (self st2)) false st3)
      as [[e4|r4] st4]; cbv beta iota in H4 |- *; cbn [snd] in H4 |- *;
      destruct H4 as (_ & _ & C4 & _).
    { exists [argv_status; argv_commit msg; args].
      rewrite C4, C3, C2, <- !app_assoc. reflexivity. }
    exists [argv_status; argv_commit msg; args]. rewrite logging_info_run.
    cbn [snd add_log host calls]. rewrite C4, C3, C2, <- !app_assoc. reflexivity. }
  destruct Hk as [l Hl]. exists l. rewrite Hl.
  destruct H1 as (_ & _ & -> & _). now rewrite <- app_assoc.
Qed.

(** X8.  A watched name without slash, saved in any directory (the
    configuration directory in particular), is recognised: the base name of
    the joined path is the name, the handler logs the save and starts
    [git add] on the full path, and returns. *)
Theorem saved_watched_file_is_staged (st : State) (dir f : string) :
  is_enabled (self st) = true ->
  In f (watched_files (self st)) ->
  contains "/" f = false ->
  basename (path_join dir f) = f
  /\ exists st' rest,
       _on_file_saved (path_join dir f) st = (inr tt, st')
       /\ calls (host st')
          = (calls (host st) ++ argv_add (path_join dir f) :: rest)%list
       /\ In (INFO, MsgSaved f) (log (host st')).
Proof.
  intros He Hin Hf.
  pose proof (basename_path_join dir f Hf) as Hb.
  split; [exact Hb|].
  assert (Hw : in_list (basename (path_join dir f)) (watched_files (self st)) = true).
  { rewrite Hb. now apply in_list_In. }
  rewrite (on_file_saved_watched _ _ He Hw). unfold try_except.
  set (st0 := add_log INFO (MsgSaved (basename (path_join dir f))) st).
  destruct (backup_starts_with_add (path_join dir f) st0) as [rest Hrest].
  pose proof (backup_evolves (path_join dir f) st0) as [n (_ & _ & _ & records & Hlog)].
  assert (Hsaved : In (INFO, MsgSaved f) (log (host st0))).
  { unfold st0. rewrite Hb. cbn. apply in_or_app. right. now left. }
  destruct (backup (path_join dir f) (basename (path_join dir f)) st0) as [[e|[]] st1];
    cbn [snd] in Hrest, Hlog.
  - rewrite logging_error_run. eexists _, rest. split; [reflexivity|].
    split; [exact Hrest|].
    cbn [add_log host log]. apply in_or_app. left.
    rewrite Hlog. apply in_or_app. now left.
  - exists st1, rest. split; [reflexivity|]. split; [exact Hrest|].
    rewrite Hlog. apply in_or_app. now left.
Qed.

(** X9.  When staging fails, the backup stops there: no status, no commit,
    no push.  The log receives the record of the failed command and the
    record of the failed backup, both with the error of [git]. *)
Theorem staging_failure_stops_backup
    (st : State) (filepath : string) (w : World) (rc : Z) (out err : string) :
  is_enabled (self st) = true ->
  in_list (basename filepath) (watched_files (self st)) = true ->
  run_process (world (host st)) (config_path (self st)) (argv_add filepath)
    = (w, Completed rc out err) ->
  rc <> 0%Z ->
  _on_file_saved filepath st
  = (inr tt,
     mkState (self st)
       (mkHost w (calls (host st) ++ [argv_add filepath])%list
          (log (host st)
           ++ [(INFO, MsgSaved (basename filepath));
               (ERROR, MsgCommandFailed ("git add " ++ shlex_quote filepath) err);
               (ERROR, MsgBackupFailed (basename filepath)
                         (CalledProcessError (argv_add filepath) rc out err))])%list
          (handlers (host st)))).
Proof.
  intros He Hw Hadd Hrc.
  rewrite (on_file_saved_watched _ _ He Hw).
  unfold try_except, backup. unfold bind at 1.
  match goal with
  | |- context [_run_git_command ?c false ?s] =>
      rewrite (@run_git_command_nonzero _ c s _ _ _ _ _ (split_add filepath) Hadd Hrc)
  end.
  rewrite logging_error_run. unfold add_log, record_call. cbn.
  now rewrite <- !app_assoc.
Qed.

(** X10.  A branch name that cannot be split as a command line (a quote
    that is never closed): the commit is made, the push is never started,
    and the failure is logged with the error of the lexer. *)
Theorem unsplittable_branch_blocks_push
    (st : State) (filepath : string) (segs : list segment) (e : exn)
    (w1 w2 w3 : World) (out1 err1 out2 err2 out3 err3 : string) :
  let g := self st in
  let filename := basename filepath in
  let msg := substituted filename segs in
  is_enabled g = true ->
  in_list filename (watched_files g) = true ->
  commit_message g = template_of segs ->
  forallb segment_ok segs = true ->
  shlex_split ("git push origin " ++ branch_name g) = inl e ->
  run_process (world (host st)) (config_path g) (argv_add filepath)
    = (w1, Completed 0 out1 err1) ->
  run_process w1 (config_path g) argv_status = (w2, Completed 0 out2 err2) ->
  strip out2 <> "" ->
  run_process w2 (config_path g) (argv_commit msg) = (w3, Completed 0 out3 err3) ->
  _on_file_saved filepath st
  = (inr tt,
     mkState g
       (mkHost w3
          (calls (host st) ++ [argv_add filepath; argv_status; argv_commit msg])%list
          (log (host st)
           ++ [(INFO, MsgSaved filename); (ERROR, MsgBackupFailed filename e)])%list
          (handlers (host st)))).
Proof.
  intros g filename msg He Hw Htemplate Hsegs Hsplit Hadd Hstatus Hpending Hcommit.
  rewrite (on_file_saved_watched _ _ He Hw).
  unfold try_except, backup, bind.
  run_ok (split_add filepath) Hadd.
  run_ok split_status Hstatus.
  assert (Hfalsy : falsy (Some (strip out2)) = false).
  { cbn [falsy]. destruct (strip out2); [congruence | reflexivity]. }
  rewrite Hfalsy. unfold get_self, lift.
  cbn [self record_call add_log].
  fold g. rewrite Htemplate, (str_format_template_of _ _ _ Hsegs).
  fold filename msg.
  run_ok (split_commit msg) Hcommit.
  rewrite run_git_command_spec, Hsplit, logging_error_run.
  unfold add_log, record_call. cbn. now rewrite <- !app_assoc.
Qed.

End HandlerExtras.

(* ================================================================== *)
(** * Further properties of commands and of the constructor *)
(* ================================================================== *)

Section ConstructorExtras.

Context {R : Runtime}.

(** X11.  What a command does once its child has run to completion.  With
    [suppress_errors] it returns the stripped output whatever the exit
    status, and logs nothing.  Without, a non-zero status raises
    [CalledProcessError], with one ERROR record that carries the command
    line and the error output.  The exception of line 62 is never raised:
    [subprocess.run] has raised before the return code is looked at. *)
Theorem run_git_command_on_completion
    (command : string) (suppress_errors : bool) (st : State)
    (args : list string) (w : World) (rc : Z) (out err : string) :
  shlex_split command = inr args ->
  run_process (world (host st)) (config_path (self st)) args
    = (w, Completed rc out err) ->
  (forall text, fst (_run_git_command command suppress_errors st) <> inl (GitError text))
  /\ (suppress_errors = true ->
      _run_git_command command true st
      = (inr (Some (strip out)), record_call args w st))
  /\ (suppress_errors = false -> rc <> 0%Z ->
      _run_git_command command false st
      = (inl (CalledProcessError args rc out err),
         add_log ERROR (MsgCommandFailed command err) (record_call args w st))).
Proof.
  intros Hs Hr. split; [|split].
  - intros text. rewrite (run_git_command_outcome _ suppress_errors _ Hs Hr).
    unfold run_result.
    destruct ((rc =? 0)%Z || suppress_errors); [discriminate|].
    destruct suppress_errors; discriminate.
  - intros _. exact (run_git_command_suppressed _ _ Hs Hr).
  - intros _ Hrc. exact (run_git_command_nonzero _ _ Hs Hr Hrc).
Qed.

(** *** Computations that leave the registered handlers alone *)

Lemma handlers_ret {A : Type} (a : A) : preserves_handlers (ret a).
Proof. intros st. reflexivity. Qed.

Lemma handlers_raise {A : Type} (e : exn) : preserves_handlers (@raise _ A e).
Proof. intros st. reflexivity. Qed.

Lemma handlers_lift {A : Type} (r : result A) : preserves_handlers (lift r).
Proof. intros st. reflexivity. Qed.

Lemma handlers_bind {A B : Type} (m : M A) (k : A -> M B) :
  preserves_handlers m -> (forall a, preserves_handlers (k a)) ->
  preserves_handlers (bind m k).
Proof.
  intros Hm Hk st. unfold bind. specialize (Hm st).
  destruct (m st) as [[e|a] st1]; simpl in *; [assumption|].
  rewrite (Hk a st1). assumption.
Qed.

Lemma handlers_try_except {A : Type} (m : M A) (handler : exn -> M A) :
  preserves_handlers m -> (forall e, preserves_handlers (handler e)) ->
  preserves_handlers (try_except m handler).
Proof.
  intros Hm Hk st. unfold try_except. specialize (Hm st).
  destruct (m st) as [[e|a] st1]; simpl in *; [|assumption].
  rewrite (Hk e st1). assumption.
Qed.

Lemma handlers_logging lv msg : preserves_handlers (logging lv msg).
Proof. intros st. reflexivity. Qed.

Lemma handlers_get_self : preserves_handlers get_self.
Proof. intros st. reflexivity. Qed.

Lemma handlers_get_world : preserves_handlers get_world.
Proof. intros st. reflexivity. Qed.

Lemma handlers_set_enabled b : preserves_handlers (set_enabled b).
Proof. intros st. reflexivity. Qed.

Lemma handlers_run_git_command command suppress :
  preserves_handlers (_run_git_command command suppress).
Proof.
  intros st. pose proof (run_git_command_evolves command suppress st) as H.
  destruct (shlex_split command).
  - now rewrite H.
  - now destruct H as (_ & -> & _).
Qed.

Create HintDb keep_handlers.
#[local] Hint Resolve handlers_ret handlers_raise handlers_lift handlers_logging
  handlers_get_self handlers_get_world handlers_set_enabled
  handlers_run_git_command : keep_handlers.

Ltac keep_handlers :=
  repeat first
    [ solve [auto with keep_handlers]
    | apply handlers_bind; [|intros ?]
    | apply handlers_try_except; [|intros ?]
    | match goal with |- preserves_handlers (if ?b then _ else _) => destruct b end ].

Lemma handlers_add_watched_files files : preserves_handlers (add_watched_files files).
Proof.
  induction files as [|f rest IH]; simpl; [auto with keep_handlers|].
  keep_handlers.
Qed.

#[local] Hint Resolve handlers_add_watched_files : keep_handlers.

Lemma handlers_validate_config : preserves_handlers _validate_config.
Proof. unfold _validate_config. keep_handlers. Qed.

Lemma handlers_check_git_installed : preserves_handlers _check_git_installed.
Proof. unfold _check_git_installed. keep_handlers. Qed.

Lemma handlers_initialize_repo : preserves_handlers _initialize_repo.
Proof. unfold _initialize_repo, logging_info. keep_handlers. Qed.

Lemma handlers_setup_remote : preserves_handlers _setup_remote.
Proof. unfold _setup_remote, logging_info. keep_handlers. Qed.

(** The bootstrap registers the handler as its last step, and only then. *)
Lemma bootstrap_handlers (st : State) :
  let '(res, st') := bootstrap st in
  handlers (host st')
  = match res with
    | inr _ => (handlers (host st) ++ [file_saved_event])%list
    | inl _ => handlers (host st)
    end.
Proof.
  unfold bootstrap, bind.
  pose proof (handlers_validate_config st) as H1.
  destruct (_validate_config st) as [[e|[]] s1]; cbn [fst snd] in *; [exact H1|].
  pose proof (handlers_check_git_installed s1) as H2.
  destruct (_check_git_installed s1) as [[e|[]] s2]; cbn [fst snd] in *; [congruence|].
  pose proof (handlers_initialize_repo s2) as H3.
  destruct (_initialize_repo s2) as [[e|[]] s3]; cbn [fst snd] in *; [congruence|].
  pose proof (handlers_setup_remote s3) as H4.
  destruct (_setup_remote s3) as [[e|[]] s4]; cbn [fst snd] in *; [congruence|].
  cbn. congruence.
Qed.

(** Where the constructor registers the handler. *)
Lemma init_registers_iff_enabled (config : Config) (h : Host) :
  let st := __init__ config h in
  handlers (host st)
  = (if is_enabled (self st)
     then (handlers h ++ [file_saved_event])%list
     else handlers h)
  /\ self st = set_is_enabled (is_enabled (self st)) (attributes config).
Proof.
  intros st. subst st.
  destruct (get (cfg_enabled config) false) eqn:Een.
  - rewrite (init_unfold _ _ Een). unfold try_except.
    pose proof (bootstrap_handlers (before_bootstrap config h)) as Hh.
    pose proof (preserves_bootstrap (before_bootstrap config h)) as Hs.
    destruct (bootstrap (before_bootstrap config h)) as [[e|[]] s1];
      cbn [fst snd] in Hh, Hs.
    + unfold bind. rewrite logging_error_run. cbn.
      split; [exact Hh|]. rewrite Hs. reflexivity.
    + cbn [snd]. rewrite Hs.
      assert (Hen : is_enabled (attributes config) = true) by exact Een.
      cbn [self before_bootstrap add_log]. rewrite Hen.
      split; [exact Hh|]. unfold set_is_enabled, attributes. cbn. now rewrite Een.
  - assert (Hen : is_enabled (attributes config) = false) by exact Een.
    unfold __init__. rewrite Hen. cbn [negb snd logging_info logging self host handlers].
    rewrite Hen. split; [reflexivity|].
    unfold set_is_enabled, attributes. cbn. now rewrite Een.
Qed.

(** X12.  The constructor registers the save-event handler exactly when
    the instance comes out enabled, and then exactly once; a constructor
    that gives up leaves the registered handlers as they were.  Apart from
    [is_enabled], the attributes are those read from the configuration. *)
Theorem handler_registered_iff_enabled (config : Config) (h : Host) :
  let st := __init__ config h in
  handlers (host st)
  = (if is_enabled (self st)
     then (handlers h ++ [file_saved_event])%list
     else handlers h)
  /\ self st = set_is_enabled (is_enabled (self st)) (attributes config).
Proof. exact (init_registers_iff_enabled config h). Qed.

(** X13.  When the version query does not end with exit status 0 (the
    program is missing, cannot be started, or fails), the constructor
    reports [GitNotFound], whatever the error was; nothing else is started,
    no handler is registered and the instance is disabled. *)
Theorem git_check_failure_is_reported_as_missing
    (config : Config) (h : Host) (w : World) (outcome : proc_outcome) :
  get (cfg_enabled config) false = true ->
  falsy (cfg_remote_url config) = false ->
  falsy (cfg_github_token config) = false ->
  run_process (world h) (cfg_config_dir config) ["git"; "--version"] = (w, outcome) ->
  (forall out err, outcome <> Completed 0 out err) ->
  let st := __init__ config h in
  is_enabled (self st) = false
  /\ world (host st) = w
  /\ calls (host st) = (calls h ++ [["git"; "--version"]])%list
  /\ handlers (host st) = handlers h
  /\ last (log (host st)) (INFO, MsgDisabled) = (ERROR, MsgFatalInit GitNotFound).
Proof.
  intros Hen Hu Ht Hrun Hfail st. subst st.
  set (st0 := before_bootstrap config h).
  assert (Hc : exists st1,
             _check_git_installed st0 = (inl GitNotFound, st1)
             /\ world (host st1) = w
             /\ calls (host st1) = (calls h ++ [["git"; "--version"]])%list
             /\ handlers (host st1) = handlers h).
  { unfold _check_git_installed, try_except. unfold bind at 1.
    match goal with
    | |- context [_run_git_command ?c false ?s] =>
        rewrite (@run_git_command_outcome _ c false s _ _ _ split_version Hrun)
    end.
    unfold run_result.
    destruct outcome as [rc out err|e].
    - destruct (rc =? 0)%Z eqn:Erc.
      + apply Z.eqb_eq in Erc. subst rc. elim (Hfail out err). reflexivity.
      + cbn [orb]. eexists. split; [reflexivity|]. repeat split.
    - destruct e; eexists; (split; [reflexivity|]); repeat split. }
  destruct Hc as (st1 & Hc & Hw & Hcalls & Hh).
  assert (Hb : bootstrap st0 = (inl GitNotFound, st1)).
  { unfold bootstrap. unfold bind at 1.
    rewrite (validate_config_ok st0 Hu Ht). unfold bind at 1. now rewrite Hc. }
  rewrite (init_failed _ _ Hen Hb).
  cbn [self host set_is_enabled is_enabled add_log handlers world calls log].
  repeat split; try assumption. apply last_last.
Qed.

(** The constructor on a directory that already holds a repository. *)
Lemma init_on_existing_repository
    (config : Config) (h : Host) (url : string) (w1 w2 w3 : World)
    (rc : Z) (out1 err1 out2 err2 out3 err3 : string) :
  let g := attributes config in
  is_enabled g = true ->
  falsy (remote_url g) = false ->
  falsy (github_token g) = false ->
  url_with_token g = inr url ->
  run_process (world h) (config_path g) ["git"; "--version"] = (w1, Completed 0 out1 err1) ->
  isdir w1 (path_join (config_path g) ".git") = true ->
  run_process w1 (config_path g) argv_remote_remove = (w2, Completed rc out2 err2) ->
  run_process w2 (config_path g) (argv_remote_add url) = (w3, Completed 0 out3 err3) ->
  __init__ config h
  = mkState g
      (mkHost w3
         (calls h ++ [["git"; "--version"]; argv_remote_remove; argv_remote_add url])%list
         (log h ++ [(INFO, MsgInitialized (join ", " (watched_files g)));
                    (INFO, MsgRepoExists); (INFO, MsgRemoteSetup);
                    (INFO, MsgRemoteDone)])%list
         (handlers h ++ [file_saved_event])%list).
Proof.
  intros g Hen Hu Ht Hurl Hversion Hisdir Hrm Hadd.
  rewrite (init_unfold _ _ Hen). unfold try_except.
  set (st0 := before_bootstrap config h).
  assert (Hb : bootstrap st0
               = (inr tt,
                  snd (register_event_handler file_saved_event
                         (add_log INFO MsgRemoteDone
                            (record_call (argv_remote_add url) w3
                               (record_call argv_remote_remove w2
                                  (add_log INFO MsgRemoteSetup
                                     (add_log INFO MsgRepoExists
                                        (record_call ["git"; "--version"] w1 st0))))))))).
  { unfold bootstrap. unfold bind at 1.
    rewrite (validate_config_ok st0 Hu Ht).
    unfold bind at 1. rewrite (@check_git_installed_ok _ st0 w1 _ _ Hversion).
    unfold bind at 1.
    rewrite (initialize_repo_existing (record_call ["git"; "--version"] w1 st0) Hisdir).
    unfold bind at 1.
    rewrite (@setup_remote_ok _ (add_log INFO MsgRepoExists
                                   (record_call ["git"; "--version"] w1 st0))
               url w2 w3 rc out2 err2 out3 err3 Hurl Hrm Hadd).
    reflexivity. }
  rewrite Hb. cbn. rewrite <- !app_assoc. reflexivity.
Qed.

(** X14.  On a directory that already holds a repository, when the version
    query succeeds, the removal of the old remote runs to completion
    (with any exit status) and the addition of the new one succeeds: the
    constructor starts exactly these three child processes, logs four INFO
    records and no error, registers the handler and leaves the instance
    enabled with the attributes of the configuration. *)
Theorem constructor_succeeds_on_existing_repository
    (config : Config) (h : Host) (url : string) (w1 w2 w3 : World)
    (rc : Z) (out1 err1 out2 err2 out3 err3 : string) :
  let g := attributes config in
  is_enabled g = true ->
  falsy (remote_url g) = false ->
  falsy (github_token g) = false ->
  url_with_token g = inr url ->
  run_process (world h) (config_path g) ["git"; "--version"] = (w1, Completed 0 out1 err1) ->
  isdir w1 (path_join (config_path g) ".git") = true ->
  run_process w1 (config_path g) argv_remote_remove = (w2, Completed rc out2 err2) ->
  run_process w2 (config_path g) (argv_remote_add url) = (w3, Completed 0 out3 err3) ->
  __init__ config h
  = mkState g
      (mkHost w3
         (calls h ++ [["git"; "--version"]; argv_remote_remove; argv_remote_add url])%list
         (log h ++ [(INFO, MsgInitialized (join ", " (watched_files g)));
                    (INFO, MsgRepoExists); (INFO, MsgRemoteSetup);
                    (INFO, MsgRemoteDone)])%list
         (handlers h ++ [file_saved_event])%list).
Proof.
  intros g. exact (@init_on_existing_repository config h url w1 w2 w3 rc
                     out1 err1 out2 err2 out3 err3).
Qed.

(** X15.  A remote URL that [urlparse] refuses makes the constructor give
    up before it touches the remote: on an existing repository only the
    version query has run, the old remote is still in place, and the error
    of the parser is what the log reports. *)
Theorem unparsable_remote_url_leaves_remote_alone
    (config : Config) (h : Host) (e : exn) (w1 : World) (out1 err1 : string) :
  let g := attributes config in
  is_enabled g = true ->
  falsy (remote_url g) = false ->
  falsy (github_token g) = false ->
  url_with_token g = inl e ->
  run_process (world h) (config_path g) ["git"; "--version"] = (w1, Completed 0 out1 err1) ->
  isdir w1 (path_join (config_path g) ".git") = true ->
  __init__ config h
  = mkState (set_is_enabled false g)
      (mkHost w1 (calls h ++ [["git"; "--version"]])%list
         (log h ++ [(INFO, MsgInitialized (join ", " (watched_files g)));
                    (INFO, MsgRepoExists); (INFO, MsgRemoteSetup);
                    (ERROR, MsgFatalInit e)])%list
         (handlers h)).
Proof.
  intros g Hen Hu Ht Hurl Hversion Hisdir.
  set (st0 := before_bootstrap config h).
  assert (Hb : bootstrap st0
               = (inl e, add_log INFO MsgRemoteSetup
                           (add_log INFO MsgRepoExists
                              (record_call ["git"; "--version"] w1 st0)))).
  { unfold bootstrap. unfold bind at 1.
    rewrite (validate_config_ok st0 Hu Ht).
    unfold bind at 1. rewrite (@check_git_installed_ok _ st0 w1 _ _ Hversion).
    unfold bind at 1.
    rewrite (initialize_repo_existing (record_call ["git"; "--version"] w1 st0) Hisdir).
    unfold bind at 1. unfold _setup_remote. unfold bind at 1.
    rewrite logging_info_run. unfold bind at 1. unfold get_self.
    unfold bind at 1. unfold lift.
    cbn [self add_log record_call st0 before_bootstrap]. fold g. rewrite Hurl.
    reflexivity. }
  rewrite (init_failed _ _ Hen Hb). cbn. rewrite <- !app_assoc. reflexivity.
Qed.

Lemma subseq_nil_l {A : Type} (l : list A) : subseq [] l.
Proof. induction l; constructor; assumption. Qed.

Lemma add_watched_files_step (f : string) (rest : list string) (st : State) :
  add_watched_files (f :: rest) st
  = if path_exists (world (host st)) (path_join (config_path (self st)) f)
    then match _run_git_command ("git add " ++ shlex_quote f) false st with
         | (inl e, st1) => (inl e, st1)
         | (inr _, st1) => add_watched_files rest st1
         end
    else add_watched_files rest st.
Proof.
  cbn [add_watched_files]. unfold bind, get_self, get_world, ret.
  destruct (path_exists (world (host st)) (path_join (config_path (self st)) f));
    [|reflexivity].
  now destruct (_run_git_command ("git add " ++ shlex_quote f) false st) as [[e|r] st1].
Qed.

(** The loop starts [git add] for a subsequence of the names. *)
Lemma add_watched_files_evolves (files : list string) (st : State) :
  exists added,
    subseq added files
    /\ evolves st (snd (add_watched_files files st)) (map argv_add added).
Proof.
  revert st. induction files as [|f rest IH]; intros st.
  - exists []. split; [constructor | apply evolves_refl].
  - rewrite add_watched_files_step.
    destruct (path_exists (world (host st)) (path_join (config_path (self st)) f)).
    + pose proof (run_git_command_evolves ("git add " ++ shlex_quote f) false st) as H1.
      rewrite split_add in H1.
      destruct (_run_git_command ("git add " ++ shlex_quote f) false st) as [[e|r] st1];
        cbn [snd] in H1 |- *.
      * exists [f]. split; [apply subseq_take, subseq_nil_l | exact H1].
      * destruct (IH st1) as (added & Hsub & Hev).
        exists (f :: added). split; [now apply subseq_take|].
        exact (evolves_trans H1 Hev).
    + destruct (IH st) as (added & Hsub & Hev).
      exists added. split; [now apply subseq_skip | exact Hev].
Qed.

(** X16.  The loop of the bootstrap stages watched files only: what it
    starts is [git add <name>] for names of the watched list, each at most
    once and in the order of the list; names that do not exist are passed
    over, and the loop stops at the first staging that fails. *)
Theorem only_watched_files_are_staged (files : list string) (st : State) :
  exists added,
    subseq added files
    /\ evolves st (snd (add_watched_files files st)) (map argv_add added).
Proof. apply add_watched_files_evolves. Qed.

Lemma firstn_map_app {A B : Type} (f : A -> B) (l : list A) (r : list B) (k : nat) :
  firstn (List.length l + k) (map f l ++ r)%list = (map f l ++ firstn k r)%list.
Proof. induction l as [|x l IH]; simpl; [reflexivity | now rewrite IH]. Qed.

(** The run of [_initialize_repo] on a directory without repository. *)
Lemma initialize_repo_creates (st : State) (checkout : list string) :
  isdir (world (host st)) (path_join (config_path (self st)) ".git") = false ->
  shlex_split ("git checkout -b " ++ branch_name (self st)) = inr checkout ->
  exists added n res st',
    _initialize_repo st = (res, st')
    /\ subseq added (watched_files (self st))
    /\ evolves st st' (firstn n (creation_commands checkout added))
    /\ (res = inr tt ->
        calls (host st') = (calls (host st) ++ creation_commands checkout added)%list
        /\ In (INFO, MsgRepoInitDone) (log (host st'))).
Proof.
  intros Hnodir Hsplit.
  unfold _initialize_repo. unfold bind at 1. unfold get_self at 1.
  unfold bind at 1. unfold get_world at 1. cbv beta iota. rewrite Hnodir.
  unfold bind at 1. rewrite logging_info_run.
  set (s0 := add_log INFO MsgRepoInit st).
  assert (E0 : evolves st s0 []) by apply evolves_add_log.
  unfold bind at 1.
  pose proof (run_git_command_evolves "git init" false s0) as H1.
  rewrite split_init in H1.
  destruct (_run_git_command "git init" false s0) as [[e1|r1] s1];
    cbv beta iota in H1 |- *; cbn [fst snd] in H1 |- *.
  { exists [], 1%nat. eexists _, _. split; [reflexivity|].
    split; [apply subseq_nil_l|].
    split; [exact (evolves_trans E0 H1) | discriminate]. }
  pose proof (evolves_trans E0 H1) as E1. cbn [app] in E1.
  unfold bind at 1.
  pose proof (run_git_command_evolves ("git checkout -b " ++ branch_name (self st))
                false s1) as H2.
  rewrite Hsplit in H2.
  destruct (_run_git_command ("git checkout -b " ++ branch_name (self st)) false s1)
    as [[e2|r2] s2]; cbv beta iota in H2 |- *; cbn [fst snd] in H2 |- *.
  { exists [], 2%nat. eexists _, _. split; [reflexivity|].
    split; [apply subseq_nil_l|].
    split; [exact (evolves_trans E1 H2) | discriminate]. }
  pose proof (evolves_trans E1 H2) as E2. cbn [app] in E2.
  unfold bind at 1.
  pose proof (run_git_command_evolves cmd_config_name false s2) as H3.
  rewrite split_config_name in H3.
  destruct (_run_git_command cmd_config_name false s2) as [[e3|r3] s3];
    cbv beta iota in H3 |- *; cbn [fst snd] in H3 |- *.
  { exists [], 3%nat. eexists _, _. split; [reflexivity|].
    split; [apply subseq_nil_l|].
    split; [exact (evolves_trans E2 H3) | discriminate]. }
  pose proof (evolves_trans E2 H3) as E3. cbn [app] in E3.
  unfold bind at 1.
  pose proof (run_git_command_evolves cmd_config_email false s3) as H4.
  rewrite split_config_email in H4.
  destruct (_run_git_command cmd_config_email false s3) as [[e4|r4] s4];
    cbv beta iota in H4 |- *; cbn [fst snd] in H4 |- *.
  { exists [], 4%nat. eexists _, _. split; [reflexivity|].
    split; [apply subseq_nil_l|].
    split; [exact (evolves_trans E3 H4) | discriminate]. }
  pose proof (evolves_trans E3 H4) as E4. cbn [app] in E4.
  unfold bind at 1.
  destruct (add_watched_files_evolves (watched_files (self st)) s4)
    as (added & Hsub & H5).
  pose proof (evolves_trans E4 H5) as E5.
  destruct (add_watched_files (watched_files (self st)) s4) as [[e5|[]] s5];
    cbv beta iota in E5 |- *; cbn [fst snd] in E5 |- *.
  { exists added, (4 + (List.length added + 0))%nat. eexists _, _.
    split; [reflexivity|]. split; [exact Hsub|].
    split; [|discriminate].
    unfold creation_commands. cbn [app Nat.add firstn].
    rewrite firstn_map_app. cbn [firstn]. rewrite app_nil_r. exact E5. }
  unfold bind at 1.
  pose proof (run_git_command_evolves cmd_initial_commit false s5) as H6.
  rewrite split_initial_commit in H6.
  destruct (_run_git_command cmd_initial_commit false s5) as [[e6|r6] s6];
    cbv beta iota in H6 |- *; cbn [fst snd] in H6 |- *.
  { exists added, (4 + (List.length added + 1))%nat. eexists _, _.
    split; [reflexivity|]. split; [exact Hsub|].
    split; [|discriminate].
    unfold creation_commands. cbn [app Nat.add firstn].
    rewrite firstn_map_app. cbn [firstn].
    pose proof (evolves_trans E5 H6) as E6.
    cbn [app] in E6. exact E6. }
  pose proof (evolves_trans E5 H6) as E6.
  cbn [app] in E6.
  rewrite logging_info_run.
  exists added, (4 + (List.length added + 1))%nat. eexists _, _.
  split; [reflexivity|]. split; [exact Hsub|].
  pose proof (evolves_trans E6 (evolves_add_log s6 INFO MsgRepoInitDone)) as E7.
  rewrite app_nil_r in E7.
  split.
  - unfold creation_commands. cbn [app Nat.add firstn].
    rewrite firstn_map_app. cbn [firstn]. exact E7.
  - intros _. split.
    + destruct E7 as (_ & _ & Hc & _). exact Hc.
    + cbn [add_log host log]. apply in_or_app. right. now left.
Qed.

(** X17.  The creation of the repository, on a directory without metadata
    directory: the child processes are a prefix of [git init], the branch
    command, the two identity settings, [git add] for a subsequence of the
    watched names and the first commit, in this order and nothing else.
    When no step fails all of them have been started, and the log says
    so. *)
Theorem repository_creation_commands (st : State) (checkout : list string) :
  isdir (world (host st)) (path_join (config_path (self st)) ".git") = false ->
  shlex_split ("git checkout -b " ++ branch_name (self st)) = inr checkout ->
  exists added n,
    subseq added (watched_files (self st))
    /\ evolves st (snd (_initialize_repo st)) (firstn n (creation_commands checkout added))
    /\ (fst (_initialize_repo st) = inr tt ->
        calls (host (snd (_initialize_repo st)))
        = (calls (host st) ++ creation_commands checkout added)%list
        /\ In (INFO, MsgRepoInitDone) (log (host (snd (_initialize_repo st))))).
Proof.
  intros Hnodir Hsplit.
  destruct (initialize_repo_creates st Hnodir Hsplit)
    as (added & n & res & st' & -> & Hsub & Hev & Hok).
  exists added, n. cbn [fst snd]. split; [exact Hsub|]. split; [exact Hev | exact Hok].
Qed.

(** X18.  When the addition of the remote fails, the command line goes to
    the log as it was run: the ERROR record holds the URL with the token.
    The removal before it has run, whatever its exit status. *)
Theorem failed_remote_add_logs_the_url
    (st : State) (url : string) (w1 w2 : World)
    (rc1 rc2 : Z) (out1 err1 out2 err2 : string) :
  url_with_token (self st) = inr url ->
  run_process (world (host st)) (config_path (self st)) argv_remote_remove
    = (w1, Completed rc1 out1 err1) ->
  run_process w1 (config_path (self st)) (argv_remote_add url)
    = (w2, Completed rc2 out2 err2) ->
  rc2 <> 0%Z ->
  _setup_remote st
  = (inl (CalledProcessError (argv_remote_add url) rc2 out2 err2),
     mkState (self st)
       (mkHost w2
          (calls (host st) ++ [argv_remote_remove; argv_remote_add url])%list
          (log (host st)
           ++ [(INFO, MsgRemoteSetup);
               (ERROR, MsgCommandFailed ("git remote add origin " ++ shlex_quote url)
                         err2)])%list
          (handlers (host st)))).
Proof.
  intros Hurl Hrm Hadd Hrc. unfold _setup_remote, bind.
  rewrite logging_info_run. unfold get_self, lift.
  cbn [self add_log]. rewrite Hurl.
  match goal with
  | |- context [_run_git_command ?c true ?s] =>
      rewrite (@run_git_command_suppressed _ c s _ _ _ _ _ split_remote_remove Hrm)
  end.
  match goal with
  | |- context [_run_git_command ?c false ?s] =>
      rewrite (@run_git_command_nonzero _ c s _ _ _ _ _ (split_remote_add url) Hadd Hrc)
  end.
  unfold add_log, record_call. cbn. now rewrite <- !app_assoc.
Qed.

Lemma forallb_firstn {A : Type} (f : A -> bool) (n : nat) (l : list A) :
  forallb f l = true -> forallb f (firstn n l) = true.
Proof.
  revert n. induction l as [|x l IH]; intros [|n] H; try reflexivity.
  simpl in H |- *. apply andb_true_iff in H as [Hx Hl].
  now rewrite Hx, IH.
Qed.

Lemma split_push_prefix (branch : string) (args : list string) :
  shlex_split ("git push origin " ++ branch) = inr args ->
  exists rest, args = "git" :: "push" :: "origin" :: rest.
Proof.
  unfold shlex_split. simpl.
  destruct (lex LSpace LSpace false "" branch) as [e|toks]; simpl.
  - discriminate.
  - intros H. injection H as <-. now exists toks.
Qed.

Lemma pipeline_backup_commands (g : GitBackup) (filepath : string) :
  in_list (basename filepath) (watched_files g) = true ->
  forallb (backup_command g) (pipeline g filepath) = true.
Proof.
  intros Hw. unfold pipeline. cbn [forallb].
  change (backup_command g (argv_add filepath))
    with (in_list (basename filepath) (watched_files g)).
  rewrite Hw. change (backup_command g argv_status) with true. cbn [andb].
  destruct (str_format rt_format_ext (basename filepath) (commit_message g)) as [e|msg];
    [reflexivity|].
  cbn [forallb]. change (backup_command g (argv_commit msg)) with true. cbn [andb].
  destruct (shlex_split ("git push origin " ++ branch_name g)) as [e|args] eqn:E;
    [reflexivity|].
  destruct (split_push_prefix _ E) as [rest ->]. reflexivity.
Qed.

(** X19.  Whatever save events arrive, in whatever state: the handler
    starts nothing but [git add] on paths with a watched base name,
    [git status --porcelain], [git commit -m] and [git push origin]; the
    instance and the registered handlers stay as they are. *)
Theorem handler_starts_only_backup_commands (filepaths : list string) (st : State) :
  exists new,
    evolves st (deliver filepaths st) new
    /\ forallb (backup_command (self st)) new = true.
Proof.
  revert st. induction filepaths as [|p rest IH]; intros st.
  - exists []. split; [apply evolves_refl | reflexivity].
  - cbn [deliver].
    destruct (is_enabled (self st)) eqn:He.
    2:{ rewrite (on_file_saved_disabled _ _ He). apply IH. }
    destruct (in_list (basename p) (watched_files (self st))) eqn:Hw.
    2:{ rewrite (on_file_saved_unwatched _ _ Hw). apply IH. }
    destruct (on_file_saved_evolves p st) as (st1 & n & Hrun & Hev).
    rewrite Hrun. cbn [snd].
    destruct (IH st1) as (new & Hnew & Hok).
    assert (Hs : self st1 = self st) by (now destruct Hev).
    rewrite Hs in Hok.
    exists (firstn n (pipeline (self st) p) ++ new)%list. split.
    + exact (evolves_trans Hev Hnew).
    + rewrite forallb_app, Hok, andb_true_r.
      apply forallb_firstn. now apply pipeline_backup_commands.
Qed.

End ConstructorExtras.


(* ================================================================== *)
(** * Failures of the steps of a backup *)
(* ================================================================== *)

Section FailedSteps.

Context {R : Runtime}.

Ltac run_ok Hsplit Hrun :=
  match goal with
  | |- context [_run_git_command ?c ?s ?st] =>
      rewrite (@run_git_command_ok _ c s st _ _ _ _ Hsplit Hrun)
  end.

Ltac run_failed Hsplit Hrun Hfail :=
  match goal with
  | |- context [_run_git_command ?c false ?st] =>
      rewrite (@run_git_command_failure _ c st _ _ _ _ _ Hsplit Hrun Hfail)
  end.

Ltac finish_stopped :=
  rewrite ?logging_error_run; unfold stopped, add_log, record_call; cbn;
  rewrite <- ?app_assoc; reflexivity.

Lemma not_falsy (out : string) : strip out <> "" -> falsy (Some (strip out)) = false.
Proof. intros H. cbn [falsy]. destruct (strip out); [congruence | reflexivity]. Qed.

(** C2.  A save event on a watched file of an enabled instance, when one
    of the four steps fails: its child ends with a non-zero status or
    cannot be run.  Whichever step it is (staging, the status query, the
    commit, the push), the handler returns normally; the children started
    are those up to the failing one and none after it; the world is the
    one the failing child left, so that a commit made before a failing
    push stays; the log receives the record of the save, the record of the
    failing command when it ended with an error status, and one ERROR
    record with the file name and the exception.  In every case the
    instance, its [is_enabled] flag and the registered handlers are as
    before, and the next save event of a watched file is processed: it
    starts [git add] again. *)
Theorem save_failures_are_contained (st : State) (filepath : string) :
  let g := self st in
  let dir := config_path g in
  let filename := basename filepath in
  let add := "git add " ++ shlex_quote filepath in
  let push := "git push origin " ++ branch_name g in
  is_enabled g = true ->
  in_list filename (watched_files g) = true ->
  (forall w1 o1 e records,
     run_process (world (host st)) dir (argv_add filepath) = (w1, o1) ->
     failure add (argv_add filepath) o1 = Some (e, records) ->
     _on_file_saved filepath st
     = (inr tt, stopped st filepath w1 [argv_add filepath] records e))
  /\ (forall w1 out1 err1 w2 o2 e records,
        run_process (world (host st)) dir (argv_add filepath)
          = (w1, Completed 0 out1 err1) ->
        run_process w1 dir argv_status = (w2, o2) ->
        failure "git status --porcelain" argv_status o2 = Some (e, records) ->
        _on_file_saved filepath st
        = (inr tt, stopped st filepath w2 [argv_add filepath; argv_status] records e))
  /\ (forall w1 out1 err1 w2 out2 err2 msg w3 o3 e records,
        run_process (world (host st)) dir (argv_add filepath)
          = (w1, Completed 0 out1 err1) ->
        run_process w1 dir argv_status = (w2, Completed 0 out2 err2) ->
        strip out2 <> "" ->
        str_format rt_format_ext filename (commit_message g) = inr msg ->
        run_process w2 dir (argv_commit msg) = (w3, o3) ->
        failure ("git commit -m " ++ shlex_quote msg) (argv_commit msg) o3
          = Some (e, records) ->
        _on_file_saved filepath st
        = (inr tt,
           stopped st filepath w3 [argv_add filepath; argv_status; argv_commit msg]
                   records e))
  /\ (forall w1 out1 err1 w2 out2 err2 msg w3 out3 err3 pushed w4 o4 e records,
        run_process (world (host st)) dir (argv_add filepath)
          = (w1, Completed 0 out1 err1) ->
        run_process w1 dir argv_status = (w2, Completed 0 out2 err2) ->
        strip out2 <> "" ->
        str_format rt_format_ext filename (commit_message g) = inr msg ->
        run_process w2 dir (argv_commit msg) = (w3, Completed 0 out3 err3) ->
        shlex_split push = inr pushed ->
        run_process w3 dir pushed = (w4, o4) ->
        failure push pushed o4 = Some (e, records) ->
        _on_file_saved filepath st
        = (inr tt,
           stopped st filepath w4
                   [argv_add filepath; argv_status; argv_commit msg; pushed]
                   records e))
  /\ (exists st',
        _on_file_saved filepath st = (inr tt, st')
        /\ self st' = g
        /\ handlers (host st') = handlers (host st)
        /\ forall next : string,
             in_list (basename next) (watched_files g) = true ->
             exists rest,
               calls (host (snd (_on_file_saved next st')))
               = (calls (host st') ++ argv_add next :: rest)%list).
Proof.
  intros g dir filename add push He Hw.
  split; [|split; [|split; [|split]]].
  - intros w1 o1 e records Hadd Hfail.
    rewrite (on_file_saved_watched _ _ He Hw).
    unfold try_except, backup. unfold bind at 1.
    run_failed (split_add filepath) Hadd Hfail. finish_stopped.
  - intros w1 out1 err1 w2 o2 e records Hadd Hstatus Hfail.
    rewrite (on_file_saved_watched _ _ He Hw).
    unfold try_except, backup. unfold bind at 1.
    run_ok (split_add filepath) Hadd. unfold bind at 1.
    run_failed split_status Hstatus Hfail. finish_stopped.
  - intros w1 out1 err1 w2 out2 err2 msg w3 o3 e records
           Hadd Hstatus Hpending Hfmt Hcommit Hfail.
    rewrite (on_file_saved_watched _ _ He Hw).
    unfold try_except, backup. unfold bind at 1.
    run_ok (split_add filepath) Hadd. unfold bind at 1.
    run_ok split_status Hstatus.
    rewrite (not_falsy _ Hpending). unfold bind at 1. unfold get_self.
    unfold bind at 1. unfold lift.
    cbn [self record_call add_log]. fold g filename. rewrite Hfmt.
    unfold bind at 1.
    run_failed (split_commit msg) Hcommit Hfail. finish_stopped.
  - intros w1 out1 err1 w2 out2 err2 msg w3 out3 err3 pushed w4 o4 e records
           Hadd Hstatus Hpending Hfmt Hcommit Hsplit Hpush Hfail.
    rewrite (on_file_saved_watched _ _ He Hw).
    unfold try_except, backup. unfold bind at 1.
    run_ok (split_add filepath) Hadd. unfold bind at 1.
    run_ok split_status Hstatus.
    rewrite (not_falsy _ Hpending). unfold bind at 1. unfold get_self.
    unfold bind at 1. unfold lift.
    cbn [self record_call add_log]. fold g filename. rewrite Hfmt.
    unfold bind at 1.
    run_ok (split_commit msg) Hcommit. unfold bind at 1.
    run_failed Hsplit Hpush Hfail. finish_stopped.
  - destruct (on_file_saved_evolves filepath st) as (st' & n & Hrun & Hs & Hh & _).
    exists st'. split; [exact Hrun|]. split; [exact Hs|]. split; [exact Hh|].
    intros next Hnext.
    assert (He' : is_enabled (self st') = true) by (rewrite Hs; exact He).
    assert (Hw' : in_list (basename next) (watched_files (self st')) = true)
      by (rewrite Hs; exact Hnext).
    rewrite (on_file_saved_watched _ _ He' Hw'). unfold try_except.
    set (st0 := add_log INFO (MsgSaved (basename next)) st').
    destruct (backup_starts_with_add next st0) as [rest Hrest].
    destruct (backup next (basename next) st0) as [[e|[]] st1]; cbn [snd] in Hrest.
    + rewrite logging_error_run. exists rest. exact Hrest.
    + exists rest. exact Hrest.
Qed.

End FailedSteps.

(* ================================================================== *)
(** * The status query and files other than the saved one *)
(* ================================================================== *)

Section StatusCheck.

Context {R : Runtime}.

Ltac run_ok Hsplit Hrun :=
  match goal with
  | |- context [_run_git_command ?c ?s ?st] =>
      rewrite (@run_git_command_ok _ c s st _ _ _ _ Hsplit Hrun)
  end.

(** C4 fails on the code.  The status query is [git status --porcelain]
    for the whole working tree.  On a save that changed nothing (staging
    leaves the world as it was), as soon as the query prints a line, which
    then is about another file, the handler does not stop: it starts the
    commit.  When [git] refuses the commit (nothing is staged) the event
    ends as a failed backup, with two ERROR records; when the commit goes
    through (something else was staged) the handler pushes, and the event
    has produced one commit and one push. *)
Theorem unchanged_file_reaches_commit
    (st : State) (filepath msg : string) (w2 : World) (out1 err1 out2 err2 : string) :
  let g := self st in
  let dir := config_path g in
  let filename := basename filepath in
  let commit := "git commit -m " ++ shlex_quote msg in
  is_enabled g = true ->
  in_list filename (watched_files g) = true ->
  str_format rt_format_ext filename (commit_message g) = inr msg ->
  run_process (world (host st)) dir (argv_add filepath)
    = (world (host st), Completed 0 out1 err1) ->
  run_process (world (host st)) dir argv_status = (w2, Completed 0 out2 err2) ->
  strip out2 <> "" ->
  (forall w3 rc out3 err3,
     run_process w2 dir (argv_commit msg) = (w3, Completed rc out3 err3) ->
     rc <> 0%Z ->
     _on_file_saved filepath st
     = (inr tt,
        stopped st filepath w3 [argv_add filepath; argv_status; argv_commit msg]
                [(ERROR, MsgCommandFailed commit err3)]
                (CalledProcessError (argv_commit msg) rc out3 err3)))
  /\ (forall w3 out3 err3 pushed w4 out4 err4,
        run_process w2 dir (argv_commit msg) = (w3, Completed 0 out3 err3) ->
        shlex_split ("git push origin " ++ branch_name g) = inr pushed ->
        run_process w3 dir pushed = (w4, Completed 0 out4 err4) ->
        _on_file_saved filepath st
        = (inr tt,
           mkState g
             (mkHost w4
                (calls (host st)
                 ++ [argv_add filepath; argv_status; argv_commit msg; pushed])%list
                (log (host st)
                 ++ [(INFO, MsgSaved filename); (INFO, MsgBackupDone filename)])%list
                (handlers (host st))))).
Proof.
  intros g dir filename commit He Hw Hfmt Hadd Hstatus Hpending.
  assert (Hstart :
            _on_file_saved filepath st
            = try_except
                (bind (_run_git_command commit false)
                      (fun _ => bind (_run_git_command
                                        ("git push origin " ++ branch_name g) false)
                                     (fun _ => logging_info (MsgBackupDone filename))))
                (fun e => logging_error (MsgBackupFailed filename e))
                (record_call argv_status w2
                   (record_call (argv_add filepath) (world (host st))
                      (add_log INFO (MsgSaved filename) st)))).
  { rewrite (on_file_saved_watched _ _ He Hw).
    unfold try_except, backup. unfold bind at 1.
    run_ok (split_add filepath) Hadd. unfold bind at 1.
    run_ok split_status Hstatus.
    rewrite (not_falsy _ Hpending). unfold bind at 1. unfold get_self.
    unfold bind at 1. unfold lift.
    cbn [self record_call add_log]. fold g filename. rewrite Hfmt. reflexivity. }
  split.
  - intros w3 rc out3 err3 Hcommit Hrc. rewrite Hstart.
    unfold try_except. unfold bind at 1.
    match goal with
    | |- context [_run_git_command ?c false ?s] =>
        rewrite (@run_git_command_nonzero _ c s _ _ _ _ _ (split_commit msg) Hcommit Hrc)
    end.
    rewrite logging_error_run. unfold stopped, add_log, record_call. cbn.
    rewrite <- !app_assoc. reflexivity.
  - intros w3 out3 err3 pushed w4 out4 err4 Hcommit Hsplit Hpush. rewrite Hstart.
    unfold try_except. unfold bind at 1.
    run_ok (split_commit msg) Hcommit. unfold bind at 1.
    run_ok Hsplit Hpush.
    rewrite logging_info_run. unfold add_log, record_call. cbn.
    rewrite <- !app_assoc. reflexivity.
Qed.

End StatusCheck.

(* ================================================================== *)
(** * The branch name on the command line of the push *)
(* ================================================================== *)

Section BranchQuoting.

Lemma append_cancel_l (x a b : string) : x ++ a = x ++ b -> a = b.
Proof. induction x as [|c x IH]; simpl; intros H; [exact H | injection H as H; auto]. Qed.

Lemma safe_char_not_dquote (c : ascii) :
  is_safe_char c = true -> Ascii.eqb c dquote = false.
Proof.
  intros H. destruct (safe_char_ordinary c H) as (_ & Hq & _).
  unfold shlex_quotes in Hq. now apply orb_false_iff in Hq as [_ Hq].
Qed.

(** Inside a word, safe characters are appended up to a double quote. *)
Lemma lex_word_then_dquote (s t rest : string) (esc : lexstate) (q : bool) :
  forallb_str is_safe_char s = true ->
  lex LWord esc q t (s ++ String dquote rest) = lex (LQuote dquote) esc q (t ++ s) rest.
Proof.
  revert t. induction s as [|c s IH]; intros t H.
  - simpl. now rewrite append_nil_r.
  - simpl in H. apply andb_true_iff in H as [Hc Hs].
    change (String c s ++ String dquote rest) with (String c (s ++ String dquote rest)).
    simpl lex. destruct (safe_char_ordinary c Hc) as (-> & -> & ->).
    rewrite (IH _ Hs). now rewrite append_char_append.
Qed.

(** Inside double quotes, safe characters are appended up to the closing
    quote, which ends the word at the end of the input. *)
Lemma lex_double_quoted (s t : string) (esc : lexstate) (q : bool) :
  forallb_str is_safe_char s = true ->
  lex (LQuote dquote) esc q t (s ++ String dquote "") = inr [t ++ s].
Proof.
  revert t q. induction s as [|c s IH]; intros t q H.
  - simpl. now rewrite append_nil_r.
  - simpl in H. apply andb_true_iff in H as [Hc Hs].
    change (String c s ++ String dquote "") with (String c (s ++ String dquote "")).
    simpl lex. rewrite (safe_char_not_dquote _ Hc).
    destruct (safe_char_ordinary c Hc) as (_ & _ & ->). cbn [andb].
    rewrite (IH _ _ Hs). now rewrite append_char_append.
Qed.

(** A branch name with a part in double quotes loses the quotes on its
    way to [git]. *)
Lemma split_push_quoted (x y : string) :
  plain_word x = true -> forallb_str is_safe_char y = true ->
  shlex_split ("git push origin " ++ x ++ quoted y) = inr (argv_push (x ++ y)).
Proof.
  intros Hx Hy. unfold plain_word in Hx. apply andb_true_iff in Hx as [Hne Hs].
  destruct x as [|c x]; [discriminate|].
  simpl in Hs. apply andb_true_iff in Hs as [Hc Hs].
  unfold shlex_split, quoted.
  change ("git push origin " ++ String c x ++ String dquote (y ++ String dquote ""))
    with ("git push origin " ++ String c (x ++ String dquote (y ++ String dquote ""))).
  simpl. destruct (safe_char_ordinary c Hc) as (-> & -> & ->).
  rewrite (lex_word_then_dquote _ _ _ _ _ Hs), (lex_double_quoted _ _ _ _ Hy).
  reflexivity.
Qed.

Lemma quoted_differs (x y : string) :
  forallb_str is_safe_char y = true -> x ++ y <> x ++ quoted y.
Proof.
  intros Hy H. apply append_cancel_l in H. unfold quoted in H.
  destruct y as [|c y]; [discriminate|].
  injection H as Hc _. subst c. simpl in Hy. discriminate Hy.
Qed.

Context {R : Runtime}.

Ltac run_any Hsplit Hrun :=
  match goal with
  | |- context [_run_git_command ?c ?s ?st] =>
      rewrite (@run_git_command_outcome _ c s st _ _ _ Hsplit Hrun)
  end.

Ltac run_ok Hsplit Hrun :=
  match goal with
  | |- context [_run_git_command ?c ?s ?st] =>
      rewrite (@run_git_command_ok _ c s st _ _ _ _ Hsplit Hrun)
  end.

(** C5 fails on the code.  The path and the commit message are quoted for
    the command line, the branch name is not (line 125).  With a branch
    name that holds a part in double quotes, a save event on a changed
    watched file stages, commits, and then pushes another branch than the
    configured one: the name without the quotes. *)
Theorem quoted_branch_is_pushed_under_another_name
    (st : State) (filepath msg x y : string)
    (w1 w2 w3 w4 : World) (out1 err1 out2 err2 out3 err3 : string)
    (pushed : proc_outcome) :
  let g := self st in
  let dir := config_path g in
  let filename := basename filepath in
  is_enabled g = true ->
  in_list filename (watched_files g) = true ->
  str_format rt_format_ext filename (commit_message g) = inr msg ->
  branch_name g = x ++ quoted y ->
  plain_word x = true ->
  forallb_str is_safe_char y = true ->
  run_process (world (host st)) dir (argv_add filepath) = (w1, Completed 0 out1 err1) ->
  run_process w1 dir argv_status = (w2, Completed 0 out2 err2) ->
  strip out2 <> "" ->
  run_process w2 dir (argv_commit msg) = (w3, Completed 0 out3 err3) ->
  run_process w3 dir (argv_push (x ++ y)) = (w4, pushed) ->
  argv_push (x ++ y) <> argv_push (branch_name g)
  /\ exists st',
       _on_file_saved filepath st = (inr tt, st')
       /\ world (host st') = w4
       /\ calls (host st')
          = (calls (host st)
             ++ [argv_add filepath; argv_status; argv_commit msg;
                 argv_push (x ++ y)])%list.
Proof.
  intros g dir filename He Hw Hfmt Hbranch Hx Hy Hadd Hstatus Hpending Hcommit Hpush.
  split.
  - rewrite Hbranch. unfold argv_push. intros H. injection H as H.
    exact (quoted_differs x y Hy H).
  - rewrite (on_file_saved_watched _ _ He Hw).
    unfold try_except, backup, bind.
    run_ok (split_add filepath) Hadd.
    run_ok split_status Hstatus.
    rewrite (not_falsy _ Hpending). unfold get_self, lift.
    cbn [self record_call add_log]. fold g filename. rewrite Hfmt, Hbranch.
    run_ok (split_commit msg) Hcommit.
    run_any (@split_push_quoted x y Hx Hy) Hpush.
    unfold run_result.
    destruct pushed as [rc out4 err4|e].
    + destruct ((rc =? 0)%Z || false);
        rewrite ?logging_info_run, ?logging_error_run; eexists;
        (split; [reflexivity|]); cbn; rewrite <- !app_assoc; split; reflexivity.
    + destruct e; rewrite ?logging_info_run, ?logging_error_run; eexists;
        (split; [reflexivity|]); cbn; rewrite <- !app_assoc; split; reflexivity.
Qed.

End BranchQuoting.

(* ================================================================== *)
(** * A second start after a first one that gave up *)
(* ================================================================== *)

Section SecondStart.

Context {R : Runtime}.


End SecondStart.

(* ================================================================== *)
(** * The further properties on the simulator *)
(* ================================================================== *)

Section ExtraWitnesses.

Import FakeGit.

Ltac discharge H :=
  cbv zeta in H;
  repeat match type of H with
         | ?A -> _ =>
             let h := fresh "premise" in
             assert (h : A) by (vm_compute; first [reflexivity | discriminate]);
             specialize (H h); clear h
         end.

(** Saves of files that are not watched, with a change of the watched file
    pending. *)
Lemma unwatched_files_are_ignored_witness :
  deliver ["/cfg/moonraker.conf"; "/tmp/notes.txt"] (in_world (edit "printer.cfg") ready)
  = in_world (edit "printer.cfg") ready.
Proof.
  apply (@unwatched_files_are_ignored runtime (in_world (edit "printer.cfg") ready)
           ["/cfg/moonraker.conf"; "/tmp/notes.txt"]).
  intros p [<-|[<-|[]]]; vm_compute; intros [H|[]]; discriminate H.
Defined.

(** The watched entry [macros/print.cfg] is never backed up, not even when
    this very file is saved. *)
Lemma watched_entry_with_slash_never_matches_witness :
  deliver ["/cfg/macros/print.cfg"; "macros/print.cfg"] (with_self subdir_instance ready)
  = with_self subdir_instance ready.
Proof.
  apply (@watched_entry_with_slash_never_matches runtime
           (with_self subdir_instance ready)
           ["/cfg/macros/print.cfg"; "macros/print.cfg"]).
  intros f [<-|[]]. vm_compute. reflexivity.
Defined.

Lemma saved_watched_file_is_staged_witness :
  basename (path_join "/cfg" "printer.cfg") = "printer.cfg"
  /\ exists st' rest,
       _on_file_saved (path_join "/cfg" "printer.cfg") ready = (inr tt, st')
       /\ calls (host st')
          = (calls (host ready) ++ argv_add (path_join "/cfg" "printer.cfg") :: rest)%list
       /\ In (INFO, MsgSaved "printer.cfg") (log (host st')).
Proof.
  apply (@saved_watched_file_is_staged runtime ready "/cfg" "printer.cfg").
  - vm_compute. reflexivity.
  - left. reflexivity.
  - vm_compute. reflexivity.
Defined.

(** A file of a watched name saved outside the configuration directory:
    [git add] refuses the path and the backup stops. *)
Lemma staging_failure_stops_backup_witness :
  _on_file_saved "/other/printer.cfg" ready
  = (inr tt,
     mkState (self ready)
       (mkHost (world (host ready))
          (calls (host ready) ++ [argv_add "/other/printer.cfg"])%list
          (log (host ready)
           ++ [(INFO, MsgSaved "printer.cfg");
               (ERROR, MsgCommandFailed ("git add " ++ shlex_quote "/other/printer.cfg")
                         "fatal: pathspec did not match any files");
               (ERROR, MsgBackupFailed "printer.cfg"
                         (CalledProcessError (argv_add "/other/printer.cfg") 128 ""
                            "fatal: pathspec did not match any files"))])%list
          (handlers (host ready)))).
Proof.
  pose proof (@staging_failure_stops_backup runtime ready "/other/printer.cfg"
                (world (host ready)) 128 ""
                "fatal: pathspec did not match any files") as H.
  discharge H. exact H.
Defined.

Lemma unsplittable_branch_blocks_push_witness :
  let st := with_self quote_branch_instance (in_world (edit "printer.cfg") ready) in
  let w1 := fst (fake_run (world (host st)) "/cfg" (argv_add "/cfg/printer.cfg")) in
  let w3 := fst (fake_run w1 "/cfg" (argv_commit "Auto-backup: printer.cfg modificado")) in
  _on_file_saved "/cfg/printer.cfg" st
  = (inr tt,
     mkState quote_branch_instance
       (mkHost w3
          (calls (host st)
           ++ [argv_add "/cfg/printer.cfg"; argv_status;
               argv_commit "Auto-backup: printer.cfg modificado"])%list
          (log (host st)
           ++ [(INFO, MsgSaved "printer.cfg");
               (ERROR, MsgBackupFailed "printer.cfg" (ValueError "No closing quotation"))])%list
          (handlers (host st)))).
Proof.
  intros st w1 w3.
  pose proof (@unsplittable_branch_blocks_push runtime st "/cfg/printer.cfg"
                default_segments (ValueError "No closing quotation")
                w1 w1 w3 "" "" (status_lines w1) "" "" "") as H.
  discharge H. exact H.
Defined.

(** The removal of a remote that does not exist: exit status 2, and the
    command returns normally. *)
Lemma run_git_command_on_completion_witness :
  let st := in_world (without_remote "origin") ready in
  _run_git_command "git remote remove origin" true st
  = (inr (Some ""), record_call argv_remote_remove (world (host st)) st).
Proof.
  intros st.
  destruct (@run_git_command_on_completion runtime "git remote remove origin" true st
              argv_remote_remove (world (host st)) 2 "" "error: No such remote")
    as (_ & H & _).
  - vm_compute. reflexivity.
  - vm_compute. reflexivity.
  - exact (H eq_refl).
Defined.

Lemma git_check_failure_is_reported_as_missing_witness :
  let h := empty_host (without_git (fresh ["printer.cfg"])) in
  let st := __init__ example_config h in
  is_enabled (self st) = false
  /\ world (host st) = without_git (fresh ["printer.cfg"])
  /\ calls (host st) = [["git"; "--version"]]
  /\ handlers (host st) = []
  /\ last (log (host st)) (INFO, MsgDisabled) = (ERROR, MsgFatalInit GitNotFound).
Proof.
  intros h.
  apply (@git_check_failure_is_reported_as_missing runtime example_config h
           (without_git (fresh ["printer.cfg"]))
           (Failed (OSError "[Errno 2] No such file or directory: 'git'")));
    try reflexivity.
  intros out err. discriminate.
Defined.

(** A restart of the running example. *)
Lemma constructor_succeeds_on_existing_repository_witness :
  let url := "https://abc123@github.com/user/repo.git" in
  __init__ example_config (restart ready)
  = mkState (attributes example_config)
      (mkHost (world (host ready))
         [["git"; "--version"]; argv_remote_remove; argv_remote_add url]
         [(INFO, MsgInitialized "printer.cfg");
          (INFO, MsgRepoExists); (INFO, MsgRemoteSetup); (INFO, MsgRemoteDone)]
         [file_saved_event]).
Proof.
  intros url.
  pose (w := world (host ready)).
  pose proof (@constructor_succeeds_on_existing_repository runtime example_config
                (restart ready) url w (without_remote "origin" w) w
                0 ("git version 2.39.2" ++ newline) "" "" "" "" "") as H.
  discharge H. exact H.
Defined.

Lemma unparsable_remote_url_leaves_remote_alone_witness :
  let st := __init__ bracket_url_config (restart ready) in
  is_enabled (self st) = false
  /\ world (host st) = world (host ready)
  /\ calls (host st) = [["git"; "--version"]]
  /\ handlers (host st) = []
  /\ last (log (host st)) (INFO, MsgDisabled)
     = (ERROR, MsgFatalInit (ValueError "Invalid IPv6 URL")).
Proof.
  intros st.
  pose proof (@unparsable_remote_url_leaves_remote_alone runtime bracket_url_config
                (restart ready) (ValueError "Invalid IPv6 URL") (world (host ready))
                ("git version 2.39.2" ++ newline) "") as H.
  discharge H. subst st. rewrite H. repeat split.
Defined.

(** The instance of the running example on the machine before its first
    start. *)
Lemma repository_creation_commands_witness :
  let st := mkState (self ready) (empty_host (fresh ["printer.cfg"])) in
  let checkout := ["git"; "checkout"; "-b"; "main"] in
  exists added n,
    subseq added ["printer.cfg"]
    /\ evolves st (snd (_initialize_repo st)) (firstn n (creation_commands checkout added))
    /\ (fst (_initialize_repo st) = inr tt ->
        calls (host (snd (_initialize_repo st)))
        = (calls (host st) ++ creation_commands checkout added)%list
        /\ In (INFO, MsgRepoInitDone) (log (host (snd (_initialize_repo st))))).
Proof.
  intros st checkout.
  apply (@repository_creation_commands runtime st checkout); vm_compute; reflexivity.
Defined.

Example first_start_creates_repository :
  let st := mkState (self ready) (empty_host (fresh ["printer.cfg"])) in
  fst (_initialize_repo st) = inr tt
  /\ calls (host (snd (_initialize_repo st)))
     = creation_commands ["git"; "checkout"; "-b"; "main"] ["printer.cfg"].
Proof. vm_compute. split; reflexivity. Qed.

(** The remote is set up in a directory that is no repository: both
    commands fail, and the second failure puts the URL into the log. *)
Lemma failed_remote_add_logs_the_url_witness :
  let st := mkState (self ready) (empty_host (fresh ["printer.cfg"])) in
  let url := "https://abc123@github.com/user/repo.git" in
  _setup_remote st
  = (inl (CalledProcessError (argv_remote_add url) 128 "" "fatal: not a git repository"),
     mkState (self ready)
       (mkHost (fresh ["printer.cfg"])
          [argv_remote_remove; argv_remote_add url]
          [(INFO, MsgRemoteSetup);
           (ERROR, MsgCommandFailed
                     "git remote add origin https://abc123@github.com/user/repo.git"
                     "fatal: not a git repository")]
          [])).
Proof.
  intros st url.
  pose proof (@failed_remote_add_logs_the_url runtime st url
                (fresh ["printer.cfg"]) (fresh ["printer.cfg"])
                128 128 "" "fatal: not a git repository"
                "" "fatal: not a git repository") as H.
  discharge H. exact H.
Defined.

(** The network is down when a change of the watched file is saved: the
    push fails, the commit made before it stays, the instance stays
    enabled. *)
Lemma save_failures_are_contained_witness :
  let st := in_world unplug (in_world (edit "printer.cfg") ready) in
  let w1 := fst (fake_run (world (host st)) "/cfg" (argv_add "/cfg/printer.cfg")) in
  let w3 := fst (fake_run w1 "/cfg" (argv_commit "Auto-backup: printer.cfg modificado")) in
  _on_file_saved "/cfg/printer.cfg" st
  = (inr tt,
     stopped st "/cfg/printer.cfg" w3
       [argv_add "/cfg/printer.cfg"; argv_status;
        argv_commit "Auto-backup: printer.cfg modificado"; argv_push "main"]
       [(ERROR, MsgCommandFailed "git push origin main"
                  "fatal: unable to access the remote")]
       (CalledProcessError (argv_push "main") 128 ""
          "fatal: unable to access the remote"))
  /\ fw_commits w3 = [initial_commit_message; "Auto-backup: printer.cfg modificado"]
  /\ is_enabled (self st) = true.
Proof.
  intros st w1 w3.
  pose proof (@save_failures_are_contained runtime st "/cfg/printer.cfg") as H.
  discharge H.
  destruct H as (_ & _ & _ & Hpush & _).
  pose proof (Hpush w1 "" "" w1 (status_lines w1) ""
                "Auto-backup: printer.cfg modificado" w3 "" ""
                (argv_push "main") w3
                (Completed 128 "" "fatal: unable to access the remote")
                (CalledProcessError (argv_push "main") 128 ""
                   "fatal: unable to access the remote")
                [(ERROR, MsgCommandFailed "git push origin main"
                           "fatal: unable to access the remote")]) as H.
  discharge H.
  split; [exact H|]. split; vm_compute; reflexivity.
Defined.

(** The watched file is saved unchanged.  Beside a file that is not under
    version control the event ends as a failed backup; with a change of
    another file staged it makes a commit and pushes it. *)
Lemma unchanged_file_reaches_commit_witness :
  let message := "Auto-backup: printer.cfg modificado" in
  let refused := "nothing to commit" ++ newline in
  let st := in_world (stage_other "moonraker.conf") ready in
  let w3 := fst (fake_run (world (host st)) "/cfg" (argv_commit message)) in
  let w4 := fst (fake_run w3 "/cfg" (argv_push "main")) in
  (status_lines (world (host untracked_ready)) = "?? notes.txt" ++ newline
   /\ _on_file_saved "/cfg/printer.cfg" untracked_ready
      = (inr tt,
         stopped untracked_ready "/cfg/printer.cfg" (world (host untracked_ready))
           [argv_add "/cfg/printer.cfg"; argv_status; argv_commit message]
           [(ERROR, MsgCommandFailed ("git commit -m " ++ shlex_quote message) "")]
           (CalledProcessError (argv_commit message) 1 refused "")))
  /\ (in_list "printer.cfg" (fw_modified (world (host st))) = false
      /\ _on_file_saved "/cfg/printer.cfg" st
         = (inr tt,
            mkState (self st)
              (mkHost w4
                 (calls (host st)
                  ++ [argv_add "/cfg/printer.cfg"; argv_status; argv_commit message;
                      argv_push "main"])%list
                 (log (host st)
                  ++ [(INFO, MsgSaved "printer.cfg");
                      (INFO, MsgBackupDone "printer.cfg")])%list
                 (handlers (host st))))
      /\ fw_commits w4 = [initial_commit_message; message]
      /\ fw_pushed w4 = 2%nat).
Proof.
  intros message refused st w3 w4. split.
  - pose proof (@unchanged_file_reaches_commit runtime untracked_ready
                  "/cfg/printer.cfg" message (world (host untracked_ready))
                  "" "" (status_lines (world (host untracked_ready))) "") as H.
    discharge H. destruct H as [H _].
    specialize (H (world (host untracked_ready)) 1%Z refused "").
    discharge H.
    split; [vm_compute; reflexivity | exact H].
  - pose proof (@unchanged_file_reaches_commit runtime st "/cfg/printer.cfg"
                  message (world (host st))
                  "" "" (status_lines (world (host st))) "") as H.
    discharge H. destruct H as [_ H].
    specialize (H w3 "" "" (argv_push "main") w4 "" "").
    discharge H.
    split; [vm_compute; reflexivity|]. split; [exact H|].
    split; vm_compute; reflexivity.
Defined.

(** The branch [v"2"]: the push names the branch [v2]. *)
Lemma quoted_branch_is_pushed_under_another_name_witness :
  let st := with_self dquote_branch_instance (in_world (edit "printer.cfg") ready) in
  argv_push "v2" <> argv_push (branch_name (self st))
  /\ exists st',
       _on_file_saved "/cfg/printer.cfg" st = (inr tt, st')
       /\ calls (host st')
          = (calls (host st)
             ++ [argv_add "/cfg/printer.cfg"; argv_status;
                 argv_commit "Auto-backup: printer.cfg modificado";
                 argv_push "v2"])%list.
Proof.
  intros st.
  pose (w1 := fst (fake_run (world (host st)) "/cfg" (argv_add "/cfg/printer.cfg"))).
  pose (w3 := fst (fake_run w1 "/cfg" (argv_commit "Auto-backup: printer.cfg modificado"))).
  pose proof (@quoted_branch_is_pushed_under_another_name runtime st "/cfg/printer.cfg"
                "Auto-backup: printer.cfg modificado" "v" "2"
                w1 w1 w3 w3 "" "" (status_lines w1) "" "" ""
                (Completed 1 "" "error: src refspec does not match any")) as H.
  discharge H.
  destruct H as (Hne & st' & Hrun & _ & Hcalls).
  split; [exact Hne|]. exists st'. split; [exact Hrun | exact Hcalls].
Defined.


(** C1, as stated, fails: the query of the remote URL is not carried over
    to the URL with the token, which therefore is not the remote URL with
    the token injected. *)
Lemma push_url_drops_query :
  url_ok query_url = true
  /\ url_userinfo query_url = None
  /\ remote_url query_url_instance = Some (url_text query_url)
  /\ github_token query_url_instance = Some "abc123"
  /\ credential_url_spec "abc123" query_url
     = "https://abc123@github.com/user/repo.git?ref=main"
  /\ url_with_token (R := runtime) query_url_instance
     = inr "https://abc123@github.com/user/repo.git"
  /\ url_with_token (R := runtime) query_url_instance
     <> inr (credential_url_spec "abc123" query_url).
Proof.
  repeat split; try (vm_compute; reflexivity). vm_compute. discriminate.
Qed.

(** The example of the specification. *)
Lemma push_url_carries_token_witness :
  url_text example_url = "https://github.com/user/repo.git"
  /\ url_with_token (self ready) = inr "https://abc123@github.com/user/repo.git"
  /\ credential_url_spec "abc123" example_url = "https://abc123@github.com/user/repo.git"
  /\ calls (host (snd (_setup_remote ready)))
     = (calls (host ready)
        ++ [argv_remote_remove;
            argv_remote_add "https://abc123@github.com/user/repo.git"])%list.
Proof.
  assert (Hhost : host_accepted (R := runtime) (url_host example_url)).
  { split; [reflexivity|]. split; intros E; vm_compute in E; discriminate E. }
  pose proof (@push_url_carries_token runtime ready example_url "abc123"
                (without_remote "origin" (world (host ready))) 0 "" "") as H.
  cbv zeta in H.
  assert (H1 : remote_url (self ready) = Some (url_text example_url))
    by (vm_compute; reflexivity).
  assert (H2 : github_token (self ready) = Some "abc123") by (vm_compute; reflexivity).
  assert (H3 : url_ok example_url = true) by (vm_compute; reflexivity).
  assert (H4 : has_params example_url = false) by (vm_compute; reflexivity).
  assert (H5 : forallb_str userinfo_char "abc123" = true) by (vm_compute; reflexivity).
  assert (H6 : run_process (world (host ready)) (config_path (self ready))
                 argv_remote_remove
               = (without_remote "origin" (world (host ready)), Completed 0 "" ""))
    by (vm_compute; reflexivity).
  destruct (H H1 H2 H3 eq_refl H4 H5 Hhost H6) as (Hurl & _ & _ & _ & Hcalls).
  split; [vm_compute; reflexivity|]. split; [exact Hurl|].
  split; [vm_compute; reflexivity | exact Hcalls].
Defined.


End ExtraWitnesses.
